(** * The quantitative analytics core: [quantlib_analyzer.py] and [risk_layer.py]

    A shallow embedding of the two numeric modules of the repository and the
    properties stated about them.

    Number model.  A Python [float] is a rational number, so every value the
    code obtains with [+ - * /], comparisons, [int], [round] and [max] is
    modelled as an exact [Q]: the embedding of that code is executable.  The
    code that calls [np.exp], [np.log] or [np.sqrt] ([vasicek_analysis],
    [_calculate_var]) is modelled over [R], its rational inputs injected with
    [Q2R].  Rounding error of binary64 arithmetic and overflow are not part of
    the model; where a discrete outcome hangs on them (the period count and
    the class of a bond), the statements are made inside [Regime], away from
    the boundaries.

    Exceptions.  Python code that can raise returns a [Py.result]. *)

From Stdlib Require Import ZArith QArith Qround Qpower Qreals.
From Stdlib Require Import Reals Lra Lia Psatz.
From Stdlib Require Import String Ascii List Sorted.
From stdpp Require Import base option list gmap strings.
Import ListNotations.

(** ** Python values and operators *)

Module Py.

Inductive exn : Set := ZeroDivisionError | NameError | KeyError | IndexError.

Inductive result (A : Type) : Type :=
| Return (a : A)
| Raise (e : exn).
Arguments Return {A} a.
Arguments Raise {A} e.

#[global] Instance result_ret : MRet result := @Return.
#[global] Instance result_bind : MBind result :=
  λ A B f m, match m with Return a => f a | Raise e => Raise e end.
#[global] Instance result_fmap : FMap result :=
  λ A B f m, match m with Return a => Return (f a) | Raise e => Raise e end.

(** *** Floats as rationals *)

Definition ltb (x y : Q) : bool := negb (Qle_bool y x).
Definition gtb (x y : Q) : bool := ltb y x.

(** [x / y] on floats raises on a zero divisor. *)
Definition div (x y : Q) : result Q :=
  if Qeq_bool y 0 then Raise ZeroDivisionError else Return (x / y)%Q.

(** [x ** n] for an [int] exponent: [0.0 ** n] raises for negative [n],
    and [0.0 ** 0] is [1.0]. *)
Definition pow (x : Q) (n : Z) : result Q :=
  if Qeq_bool x 0 && (n <? 0)%Z then Raise ZeroDivisionError
  else Return (x ^ n)%Q.

(** [int(x)] truncates toward zero. *)
Definition int (x : Q) : Z := Z.quot (Qnum x) (QDen x).

(** [range(a, b)] *)
Definition range (a b : Z) : list Z :=
  map (λ i, (a + Z.of_nat i)%Z) (seq 0 (Z.to_nat (b - a))).

(** [sum(l)] adds from the left, starting at 0. *)
Definition sum (l : list Q) : Q := fold_left Qplus l 0%Q.

(** [max(a, b)] returns [a] unless [b] is strictly greater. *)
Definition max (a b : Q) : Q := if ltb a b then b else a.

(** Rounding to the nearest integer, ties to the even one. *)
Definition round_half_even (x : Q) : Z :=
  let f := Qfloor x in
  match (x - inject_Z f ?= 1 # 2)%Q with
  | Lt => f
  | Gt => (f + 1)%Z
  | Eq => if Z.even f then f else (f + 1)%Z
  end.

(** [round(x, ndigits)] *)
Definition round (x : Q) (ndigits : nat) : Q :=
  let scale := inject_Z (10 ^ Z.of_nat ndigits) in
  (inject_Z (round_half_even (x * scale)) / scale)%Q.

(** [d.get(k, default)] *)
Definition get {V} (d : gmap string V) (k : string) (dflt : V) : V :=
  default dflt (d !! k).

(** [d[k]] *)
Definition getitem {V} (d : gmap string V) (k : string) : result V :=
  match d !! k with Some v => Return v | None => Raise KeyError end.

(** [s.lower()] on ASCII text. *)
Definition lower_ascii (c : ascii) : ascii :=
  let n := nat_of_ascii c in
  if (65 <=? n)%nat && (n <=? 90)%nat then ascii_of_nat (n + 32) else c.

Fixpoint lower (s : string) : string :=
  match s with
  | EmptyString => EmptyString
  | String c s' => String (lower_ascii c) (lower s')
  end.

(** [sorted] on a list of pairs of floats: tuples compare by their first
    components unless these are equal; the sort is stable. *)
Definition tuple_lt (p q : Q * Q) : bool :=
  if Qeq_bool (fst p) (fst q) then ltb (snd p) (snd q) else ltb (fst p) (fst q).

Fixpoint insert_sorted (p : Q * Q) (l : list (Q * Q)) : list (Q * Q) :=
  match l with
  | [] => [p]
  | q :: l' => if tuple_lt q p then q :: insert_sorted p l' else p :: q :: l'
  end.

Definition sorted (l : list (Q * Q)) : list (Q * Q) :=
  fold_right insert_sorted [] l.

(** *** Reals, for the code that goes through numpy *)

Definition floorR (x : R) : Z := (up x - 1)%Z.

Definition round_half_even_R (x : R) : Z :=
  let f := floorR x in
  let d := (x - IZR f)%R in
  if Rlt_dec d (1 / 2) then f
  else if Rlt_dec (1 / 2) d then (f + 1)%Z
  else if Z.even f then f else (f + 1)%Z.

Definition round_R (x : R) (ndigits : nat) : R :=
  (IZR (round_half_even_R (x * 10 ^ ndigits)) / 10 ^ ndigits)%R.

(** Division of a Python float by a Python float, over the reals. *)
Definition div_R (x y : R) : result R :=
  if Req_dec_T y 0 then Raise ZeroDivisionError else Return (x / y)%R.

End Py.

Import Py.

(** ** The pricing library

    [black_scholes_analysis] delegates pricing to QuantLib, which is not part
    of the repository.  The library is a parameter of the embedding: given the
    objects the code sets up, it either yields the six figures the code reads
    inside its [try] block or raises there. *)

Record QLOption : Type := {
  ql_today : Z;            (* evaluation date, a serial number *)
  ql_maturity : Z;         (* exercise date *)
  ql_spot : Q;
  ql_strike : Q;
  ql_rate : Q;
  ql_volatility : Q;
  ql_is_call : bool
}.

Record QLFigures : Type := {
  ql_NPV : Q; ql_delta : Q; ql_gamma : Q; ql_theta : Q; ql_vega : Q; ql_rho : Q
}.

Definition QuantLib : Type := QLOption → option QLFigures.

(** ** [quantlib_analyzer.py] *)

Module QuantLibAnalyzer.

(** [__init__] reads the system date once and keeps it. *)
Record t : Type := { today : Z }.

(** *** [vasicek_analysis] *)

Record Scenario : Type := { scenario_rate : R; scenario_prob : Q }.

Record VasicekReport : Type := {
  param_r0 : R;
  param_kappa : R;
  param_theta : R;
  param_sigma : R;
  expected_path : list (R * R);
  rate_volatility : list (R * R);
  zcb_prices : list (Z * (R * R));
  scenario_base : Scenario;
  scenario_up_1std : Scenario;
  scenario_down_1std : Scenario;
  half_life_years : R;
  long_term_rate : R
}.

Definition times : list R := [0.25; 0.5; 1; 2; 3; 5; 10]%R.

(** One turn of the loop over [times]: the rounded expected rate and the
    rounded standard deviation, in percent. *)
Definition vasicek_point (r0 a b sigma t : R) : result (R * R) :=
  let exp_rate := (r0 * exp (- a * t) + b * (1 - exp (- a * t)))%R in
  q ← div_R (sigma ^ 2) (2 * a);
  let var_rate := (q * (1 - exp (- 2 * a * t)))%R in
  let std_rate := sqrt var_rate in
  mret (round_R (exp_rate * 100) 3, round_R (std_rate * 100) 3).

Definition vasicek_zcb_price (r t a b sigma : R) : result R :=
  let B := ((1 - exp (- a * t)) / a)%R in
  q1 ← div_R (sigma ^ 2) (2 * a ^ 2);
  q2 ← div_R (sigma ^ 2) (4 * a);
  let A := exp ((b - q1) * (B - t) - q2 * B ^ 2) in
  mret (A * exp (- B * r))%R.

Definition vasicek_zcb_entry (r0 a b sigma : R) (t : Z) : result (Z * (R * R)) :=
  price ← vasicek_zcb_price r0 (IZR t) a b sigma;
  let ytm := (- ln price / IZR t)%R in
  mret (t, (round_R price 4, round_R (ytm * 100) 3)).

Definition vasicek_analysis (r0 kappa theta sigma : R) : result VasicekReport :=
  let a := kappa in
  let b := theta in
  points ← mapM (vasicek_point r0 a b sigma) times;
  let expected_rates := map fst points in
  let rate_std := map snd points in
  zcb ← mapM (vasicek_zcb_entry r0 a b sigma) [1; 2; 5; 10]%Z;
  let half_life := (ln 2 / a)%R in
  mret {|
    param_r0 := round_R (r0 * 100) 3;
    param_kappa := kappa;
    param_theta := round_R (theta * 100) 3;
    param_sigma := round_R (sigma * 100) 3;
    expected_path := zip times expected_rates;
    rate_volatility := zip times rate_std;
    zcb_prices := zcb;
    scenario_base := {| scenario_rate := round_R (r0 * 100) 2; scenario_prob := 0.5 |};
    scenario_up_1std :=
      {| scenario_rate := round_R ((r0 + sigma) * 100) 2; scenario_prob := 0.25 |};
    scenario_down_1std :=
      {| scenario_rate := round_R ((r0 - sigma) * 100) 2; scenario_prob := 0.25 |};
    half_life_years := round_R half_life 2;
    long_term_rate := round_R (theta * 100) 3
  |}.

(** *** [black_scholes_analysis] *)

Inductive Moneyness : Set := ITM | OTM | ATM.

Record OptionReport : Type := {
  opt_spot : Q;
  opt_strike : Q;
  opt_rate : Q;
  opt_volatility : Q;
  opt_maturity_days : Z;
  opt_type : string;
  opt_price : Q;
  opt_delta : Q;
  opt_gamma : Q;
  opt_theta : Q;
  opt_vega : Q;
  opt_rho : Q;
  opt_moneyness : Moneyness;
  opt_intrinsic_value : Q;
  opt_time_value : Q;
  opt_breakeven : Q
}.

Definition is_call (option_type : string) : bool :=
  String.eqb (lower option_type) "call".

(** The [try] block: the six figures, or all of them 0 when a call into the
    library raises. *)
Definition greeks (ql : QuantLib) (o : QLOption) : Q * Q * Q * Q * Q * Q :=
  match ql o with
  | Some f =>
      (ql_NPV f, ql_delta f, ql_gamma f,
       ql_theta f / 365, ql_vega f / 100, ql_rho f / 100)%Q
  | None => (0, 0, 0, 0, 0, 0)%Q
  end.

Definition black_scholes_analysis (ql : QuantLib) (self : t)
    (spot strike rate volatility : Q) (maturity_days : Z)
    (option_type : string) : OptionReport :=
  let maturity := (today self + maturity_days)%Z in
  let o := {| ql_today := today self; ql_maturity := maturity;
              ql_spot := spot; ql_strike := strike; ql_rate := rate;
              ql_volatility := volatility;
              ql_is_call := is_call option_type |} in
  let '(price, delta, gamma, theta, vega, rho) := greeks ql o in
  let breakeven :=
    if is_call option_type then (strike + price)%Q else (strike - price)%Q in
  let '(moneyness, intrinsic) :=
    if is_call option_type then
      (if gtb spot strike then ITM else if ltb spot strike then OTM else ATM,
       Py.max 0 (spot - strike))
    else
      (if ltb spot strike then ITM else if gtb spot strike then OTM else ATM,
       Py.max 0 (strike - spot)) in
  let time_value := (price - intrinsic)%Q in
  {| opt_spot := spot;
     opt_strike := strike;
     opt_rate := round (rate * 100) 2;
     opt_volatility := round (volatility * 100) 2;
     opt_maturity_days := maturity_days;
     opt_type := option_type;
     opt_price := round price 4;
     opt_delta := round delta 4;
     opt_gamma := round gamma 6;
     opt_theta := round theta 4;
     opt_vega := round vega 4;
     opt_rho := round rho 4;
     opt_moneyness := moneyness;
     opt_intrinsic_value := round intrinsic 4;
     opt_time_value := round time_value 4;
     opt_breakeven := round breakeven 2 |}.

(** *** [yield_curve_analysis] *)

Inductive CurveShape : Set := STEEP | NORMAL | FLAT | INVERTED | UNKNOWN.

Record YieldCurveReport : Type := {
  curve_shape : CurveShape;
  slope_bps : Q;
  interpretation : string;
  short_rate : Q;
  long_rate : Q;
  forward_rates : list ((Q * Q) * Q);
  data_points : nat
}.

(** The function returns either the dict [{"error": ...}] or the report. *)
Inductive YieldCurveResult : Type :=
| YieldCurveError (error : string)
| YieldCurve (report : YieldCurveReport).

Definition tenor_map : gmap string Q :=
  list_to_map
    [("1M", 1 # 12); ("3M", 0.25); ("6M", 0.5); ("1Y", 1); ("2Y", 2);
     ("3Y", 3); ("5Y", 5); ("7Y", 7); ("10Y", 10); ("30Y", 30)]%Q.

(** The loop over [rates.items()], which fills [tenors] and [yields]. *)
Fixpoint collect (rates : list (string * Q)) : list Q * list Q :=
  match rates with
  | [] => ([], [])
  | (tenor, rate) :: rest =>
      let '(tenors, yields) := collect rest in
      match tenor_map !! tenor with
      | Some years => (years :: tenors, rate :: yields)
      | None => (tenors, yields)
      end
  end.

(** The loop over adjacent points of the sorted curve.  The quotient is exact
    here; the code's binary64 quotient is within rounding error of it, so the
    third decimal it reports can differ by one. *)
Fixpoint forwards (points : list (Q * Q)) : result (list ((Q * Q) * Q)) :=
  match points with
  | (t1, r1) :: (((t2, r2) :: _) as rest) =>
      fwd ← div (r2 * t2 - r1 * t1) (t2 - t1);
      others ← forwards rest;
      mret (((t1, t2), round (fwd * 100) 3) :: others)
  | _ => mret []
  end.

Definition classify_slope (slope : Q) : CurveShape * string :=
  if gtb slope 0.5 then (STEEP, "경기 확장 기대, 성장주 유리")
  else if gtb slope 0 then (NORMAL, "정상적 경기 환경")
  else if gtb slope (-0.5) then (FLAT, "경기 둔화 우려, 방어적 포지션 권고")
  else (INVERTED, "경기 침체 신호, 안전자산 선호").

(** [rates] is a dict, iterated in insertion order: a list of items. *)
Definition yield_curve_analysis (rates : list (string * Q))
    : result YieldCurveResult :=
  let '(tenors, yields) := collect rates in
  if (length tenors <? 2)%nat then mret (YieldCurveError "Insufficient data")
  else
    let sorted_data := sorted (zip tenors yields) in
    let tenors := map fst sorted_data in
    let yields := map snd sorted_data in
    if (2 <=? length tenors)%nat then
      match head yields, last yields with
      | Some short_rate, Some long_rate =>
          let slope := (long_rate - short_rate)%Q in
          let '(curve_shape, interpretation) := classify_slope slope in
          forward_rates ← forwards (zip tenors yields);
          mret (YieldCurve {|
            curve_shape := curve_shape;
            slope_bps := round (slope * 10000) 1;
            interpretation := interpretation;
            short_rate := round (short_rate * 100) 3;
            long_rate := round (long_rate * 100) 3;
            forward_rates := forward_rates;
            data_points := length tenors |})
      | _, _ => Raise IndexError
      end
    else
      (* the branch that sets "UNKNOWN" leaves [short_rate] unbound *)
      Raise NameError.

(** *** [bond_analysis] *)

Inductive PremiumDiscount : Set := Premium | Discount | Par.

Record RateShock : Type := { shock_price : Q; shock_change_pct : Q }.

Record BondReport : Type := {
  bond_face_value : Q;
  bond_coupon_rate : Q;
  bond_ytm : Q;
  bond_years_to_maturity : Q;
  bond_price : Q;
  premium_discount : PremiumDiscount;
  current_yield : Q;
  macaulay_duration : Q;
  modified_duration : Q;
  convexity : Q;
  rate_sensitivity : list (Z * RateShock)
}.

Definition rate_changes : list Q := [-0.01; -0.005; 0.005; 0.01]%Q.

(** The values the function computes before it rounds them for the report,
    in exact rationals: where the code's binary64 product
    [years_to_maturity * frequency] rounds up to a whole number, or its price
    lands within rounding error of the face value, the code's [n_periods] and
    class can differ from the ones computed here (see [Regime] below). *)
Record BondFigures : Type := {
  n_periods : Z;
  coupon : Q;
  ytm_period : Q;
  price : Q;
  mac_duration : Q;
  mod_duration : Q;
  convexity_raw : Q
}.

Definition bond_figures (face_value coupon_rate ytm years_to_maturity : Q)
    (frequency : Z) : result BondFigures :=
  let n_periods := int (years_to_maturity * inject_Z frequency) in
  coupon ← div (face_value * coupon_rate) (inject_Z frequency);
  ytm_period ← div ytm (inject_Z frequency);
  let periods := range 1 (n_periods + 1) in
  cfs ← mapM (λ t, d ← pow (1 + ytm_period) t; div coupon d) periods;
  let pv_coupons := sum cfs in
  d ← pow (1 + ytm_period) n_periods;
  pv_face ← div face_value d;
  let price := (pv_coupons + pv_face)%Q in
  wcfs ← mapM (λ t, d ← pow (1 + ytm_period) t; div (inject_Z t * coupon) d)
             periods;
  d ← pow (1 + ytm_period) n_periods;
  w ← div (inject_Z n_periods * face_value) d;
  let weighted_cf := (sum wcfs + w)%Q in
  q ← div weighted_cf price;
  mac_duration ← div q (inject_Z frequency);
  mod_duration ← div mac_duration (1 + ytm_period);
  ccfs ← mapM (λ t, d ← pow (1 + ytm_period) (t + 2);
                    div (inject_Z t * inject_Z (t + 1) * coupon) d) periods;
  d ← pow (1 + ytm_period) (n_periods + 2);
  c ← div (inject_Z n_periods * inject_Z (n_periods + 1) * face_value) d;
  let convexity_sum := (sum ccfs + c)%Q in
  convexity ← div convexity_sum (price * inject_Z (frequency ^ 2));
  mret {| n_periods := n_periods; coupon := coupon; ytm_period := ytm_period;
          price := price; mac_duration := mac_duration;
          mod_duration := mod_duration; convexity_raw := convexity |}.

Definition rate_shock (f : BondFigures) (dr : Q) : Z * RateShock :=
  let approx_change :=
    (- mod_duration f * dr + 0.5 * convexity_raw f * dr ^ 2)%Q in
  let new_price := (price f * (1 + approx_change))%Q in
  (int (dr * 10000),
   {| shock_price := round new_price 2;
      shock_change_pct := round (approx_change * 100) 3 |}).

Definition bond_analysis (face_value coupon_rate ytm years_to_maturity : Q)
    (frequency : Z) : result BondReport :=
  f ← bond_figures face_value coupon_rate ytm years_to_maturity frequency;
  let price_changes := map (rate_shock f) rate_changes in
  cy ← div (coupon f * inject_Z frequency) (price f);
  mret {|
    bond_face_value := face_value;
    bond_coupon_rate := round (coupon_rate * 100) 2;
    bond_ytm := round (ytm * 100) 2;
    bond_years_to_maturity := years_to_maturity;
    bond_price := round (price f) 2;
    premium_discount :=
      if gtb (price f) face_value then Premium
      else if ltb (price f) face_value then Discount else Par;
    current_yield := round (cy * 100) 3;
    macaulay_duration := round (mac_duration f) 3;
    modified_duration := round (mod_duration f) 3;
    convexity := round (convexity_raw f) 3;
    rate_sensitivity := price_changes |}.

(** *** [volatility_surface_analysis] *)

Inductive TermShape : Set := BACKWARDATION | CONTANGO.

Record VolatilityReport : Type := {
  vol_spot : Q;
  atm_volatility : Q;
  volatility_smile : gmap string Q;
  skew : Q;
  risk_reversal : Q;
  butterfly : Q;
  skew_interpretation : string;
  term_structure : gmap string Q;
  term_shape : TermShape;
  term_interpretation : string
}.

Definition default_vol_data : gmap string Q :=
  let atm_vol := 0.18%Q in
  list_to_map
    [("10D_Put", atm_vol * 1.3); ("25D_Put", atm_vol * 1.15); ("ATM", atm_vol);
     ("25D_Call", atm_vol * 0.95); ("10D_Call", atm_vol * 0.90)]%Q.

Definition volatility_surface_analysis (spot rate : Q)
    (vol_data : option (gmap string Q)) : result VolatilityReport :=
  let vol_data := match vol_data with None => default_vol_data | Some d => d end in
  let put_vol := get vol_data "25D_Put" (get vol_data "ATM" 0.18%Q) in
  let call_vol := get vol_data "25D_Call" (get vol_data "ATM" 0.18%Q) in
  let atm_vol := get vol_data "ATM" 0.18%Q in
  let skew := (put_vol - call_vol)%Q in
  let risk_reversal := (call_vol - put_vol)%Q in
  let butterfly := ((put_vol + call_vol) / 2 - atm_vol)%Q in
  let skew_interpretation :=
    if gtb skew 0.03 then "강한 하방 리스크 프리미엄 - 시장 불안 신호"
    else if gtb skew 0.01 then "정상적 하방 헤지 수요"
    else if gtb skew (-0.01) then "균형 잡힌 변동성 구조"
    else "상방 기대감 - 콜옵션 수요 증가" in
  let term_structure : gmap string Q :=
    list_to_map
      [("1W", round (atm_vol * 1.1) 4); ("1M", round atm_vol 4);
       ("3M", round (atm_vol * 0.95) 4); ("6M", round (atm_vol * 0.92) 4);
       ("1Y", round (atm_vol * 0.90) 4)]%Q in
  w1 ← getitem term_structure "1W";
  m1 ← getitem term_structure "1M";
  let '(term_shape, term_interpretation) :=
    if gtb w1 m1 then (BACKWARDATION, "단기 불확실성 높음 - 이벤트 리스크")
    else (CONTANGO, "정상적 변동성 기간구조") in
  mret {|
    vol_spot := spot;
    atm_volatility := round (atm_vol * 100) 2;
    volatility_smile := (λ v, round (v * 100) 2) <$> vol_data;
    skew := round (skew * 100) 2;
    risk_reversal := round (risk_reversal * 100) 2;
    butterfly := round (butterfly * 100) 2;
    skew_interpretation := skew_interpretation;
    term_structure := (λ v, round (v * 100) 2) <$> term_structure;
    term_shape := term_shape;
    term_interpretation := term_interpretation |}.

(** *** [comprehensive_analysis] *)

Record Comprehensive : Type := {
  vasicek : VasicekReport;
  yield_curve : YieldCurveResult;
  volatility : VolatilityReport;
  bond_10y : BondReport;
  option_atm : OptionReport
}.

(** The third call of [comprehensive_analysis]. *)
Definition comprehensive_volatility (market_data : gmap string Q)
    : result VolatilityReport :=
  let r0 := get market_data "us_10y" 0.0427%Q in
  let vix := get market_data "vix" 18%Q in
  let spot := get market_data "kospi" 2650%Q in
  volatility_surface_analysis spot r0
    (Some (list_to_map
       [("10D_Put", vix / 100 * 1.3); ("25D_Put", vix / 100 * 1.15);
        ("ATM", vix / 100); ("25D_Call", vix / 100 * 0.95);
        ("10D_Call", vix / 100 * 0.90)]%Q)).

Definition comprehensive_analysis (ql : QuantLib) (self : t)
    (market_data : gmap string Q) : result Comprehensive :=
  let r0 := get market_data "us_10y" 0.0427%Q in
  v ← vasicek_analysis (Q2R r0) 0.25 0.035 0.01;
  let rates :=
    [("3M", get market_data "us_3m" 0.045); ("2Y", get market_data "us_2y" 0.0359);
     ("10Y", get market_data "us_10y" 0.0427);
     ("30Y", get market_data "us_30y" 0.045)]%Q in
  yc ← yield_curve_analysis rates;
  let vix := get market_data "vix" 18%Q in
  let spot := get market_data "kospi" 2650%Q in
  vol ← comprehensive_volatility market_data;
  b ← bond_analysis 10000 0.04 r0 10 2;
  let o := black_scholes_analysis ql self spot spot r0 (vix / 100) 30 "call" in
  mret {| vasicek := v; yield_curve := yc; volatility := vol; bond_10y := b;
          option_atm := o |}.

End QuantLibAnalyzer.

(** ** [risk_layer.py] *)

Module RiskManager.

Record Thresholds : Type := { low : Q; medium : Q; high : Q; extreme : Q }.

(** The object built by [__init__]. *)
Record t : Type := {
  ql_analyzer : QuantLibAnalyzer.t;
  move_thresholds : Thresholds;
  vix_thresholds : Thresholds
}.

Definition init (ql_analyzer : QuantLibAnalyzer.t) : t :=
  {| ql_analyzer := ql_analyzer;
     move_thresholds := {| low := 80; medium := 100; high := 120; extreme := 150 |};
     vix_thresholds := {| low := 15; medium := 20; high := 25; extreme := 35 |} |}.

(** *** [_calculate_risk_metrics] *)

Inductive RiskLevel : Set := LOW | MEDIUM | HIGH | EXTREME.

Record RiskMetrics : Type := {
  risk_level : RiskLevel;
  risk_score : Z;
  move_contribution : Z;
  vix_contribution : Z;
  vol_multiplier : Q;
  move_value : Q;
  vix_value : Q
}.

Definition bucket (th : Thresholds) (x : Q) : Z :=
  if ltb x (low th) then 10
  else if ltb x (medium th) then 25
  else if ltb x (high th) then 35
  else if ltb x (extreme th) then 45
  else 50.

Definition _calculate_risk_metrics (self : t) (move vix : Q) : RiskMetrics :=
  let move_score := bucket (move_thresholds self) move in
  let vix_score := bucket (vix_thresholds self) vix in
  let risk_score := (move_score + vix_score)%Z in
  let risk_level :=
    if (risk_score <? 40)%Z then LOW
    else if (risk_score <? 60)%Z then MEDIUM
    else if (risk_score <? 80)%Z then HIGH
    else EXTREME in
  let vol_multiplier := ((vix / 20) * (move / 100))%Q in
  {| risk_level := risk_level;
     risk_score := risk_score;
     move_contribution := move_score;
     vix_contribution := vix_score;
     vol_multiplier := round vol_multiplier 3;
     move_value := move;
     vix_value := vix |}.

(** *** [_calculate_position_sizing] *)

Record PositionSizing : Type := {
  base_allocation : Q;
  risk_adjustment : Q;
  adjusted_allocation : Q;
  max_position_value : Q;
  stop_loss_pct : Q;
  stop_loss_value : Q
}.

Definition _calculate_position_sizing (risk_score portfolio_value : Q)
    : PositionSizing :=
  let base_allocation := 0.1%Q in
  let risk_adj : Q :=
    (if ltb risk_score 40 then 1.2
     else if ltb risk_score 60 then 1.0
     else if ltb risk_score 80 then 0.7
     else 0.4)%Q in
  let adjusted_allocation := (base_allocation * risk_adj)%Q in
  let max_position := (portfolio_value * adjusted_allocation)%Q in
  let stop_loss : Q :=
    (if ltb risk_score 40 then 0.05
     else if ltb risk_score 60 then 0.03
     else 0.02)%Q in
  {| base_allocation := base_allocation;
     risk_adjustment := risk_adj;
     adjusted_allocation := round adjusted_allocation 3;
     max_position_value := round max_position 0;
     stop_loss_pct := stop_loss;
     stop_loss_value := round (max_position * stop_loss) 0 |}.

(** *** [_calculate_var] *)

Record VaRReport : Type := {
  confidence_level : Q;
  daily_volatility : R;
  var_1d : R;
  var_5d : R;
  var_20d : R;
  cvar_1d : R;
  (* the two numbers printed in the [interpretation] text *)
  interpretation_confidence : Q;
  interpretation_var_1d : R
}.

(** The figures before [round]. *)
Record VaRFigures : Type := {
  daily_vol : R;
  raw_var_1d : R;
  raw_var_5d : R;
  raw_var_20d : R;
  raw_cvar_1d : R
}.

Definition z_score : list (Q * Q) := [(0.90, 1.28); (0.95, 1.645); (0.99, 2.33)]%Q.

Fixpoint z_score_get (d : list (Q * Q)) (k dflt : Q) : Q :=
  match d with
  | [] => dflt
  | (k', v) :: d' => if Qeq_bool k k' then v else z_score_get d' k dflt
  end.

Definition var_figures (portfolio_value vix confidence : Q) : VaRFigures :=
  let daily_vol := (Q2R vix / 100 / sqrt 252)%R in
  let z := z_score_get z_score confidence 1.645%Q in
  let var_1d := (Q2R portfolio_value * daily_vol * Q2R z)%R in
  let var_5d := (var_1d * sqrt 5)%R in
  let var_20d := (var_1d * sqrt 20)%R in
  let es_multiplier := 1.25%R in
  let cvar_1d := (var_1d * es_multiplier)%R in
  {| daily_vol := daily_vol; raw_var_1d := var_1d; raw_var_5d := var_5d;
     raw_var_20d := var_20d; raw_cvar_1d := cvar_1d |}.

Definition _calculate_var (portfolio_value vix confidence : Q) : VaRReport :=
  let f := var_figures portfolio_value vix confidence in
  {| confidence_level := confidence;
     daily_volatility := round_R (daily_vol f * 100) 3;
     var_1d := round_R (raw_var_1d f) 0;
     var_5d := round_R (raw_var_5d f) 0;
     var_20d := round_R (raw_var_20d f) 0;
     cvar_1d := round_R (raw_cvar_1d f) 0;
     interpretation_confidence := inject_Z (round_half_even (confidence * 100));
     interpretation_var_1d := round_R (raw_var_1d f) 0 |}.

(** *** [analyze] *)

Record Analysis : Type := {
  timestamp : string;
  risk_metrics : RiskMetrics;
  position_sizing : PositionSizing;
  var_analysis : VaRReport;
  quantlib : QuantLibAnalyzer.Comprehensive
}.

(** What [analyze] computes before it reads the clock. *)
Record AnalysisBody : Type := {
  body_risk_metrics : RiskMetrics;
  body_position_sizing : PositionSizing;
  body_var_analysis : VaRReport;
  body_quantlib : QuantLibAnalyzer.Comprehensive
}.

Definition body_of (a : Analysis) : AnalysisBody :=
  {| body_risk_metrics := risk_metrics a;
     body_position_sizing := position_sizing a;
     body_var_analysis := var_analysis a;
     body_quantlib := quantlib a |}.

(** [now] is the text [datetime.now().isoformat()] yields when the [return]
    statement is reached: the wall clock is an input of the call. *)
Definition analyze (ql : QuantLib) (self : t) (now : string)
    (move_value vix_value portfolio_value : Q)
    (market_data : option (gmap string Q)) : result Analysis :=
  let market_data := match market_data with None => ∅ | Some d => d end in
  let risk_metrics := _calculate_risk_metrics self move_value vix_value in
  let position_sizing :=
    _calculate_position_sizing (inject_Z (risk_score risk_metrics)) portfolio_value in
  let ql_data : gmap string Q :=
    list_to_map
      [("us_10y", get market_data "us_10y" 0.0427);
       ("us_2y", get market_data "us_2y" 0.0359);
       ("us_30y", get market_data "us_30y" 0.045);
       ("vix", vix_value);
       ("kospi", get market_data "kospi" 2650)]%Q in
  quantlib_analysis ←
    QuantLibAnalyzer.comprehensive_analysis ql (ql_analyzer self) ql_data;
  let var_analysis := _calculate_var portfolio_value vix_value 0.95 in
  mret {| timestamp := now;
          risk_metrics := risk_metrics;
          position_sizing := position_sizing;
          var_analysis := var_analysis;
          quantlib := quantlib_analysis |}.

End RiskManager.

(** ** What a call takes from outside its arguments

    Two things reach the results without being arguments: the clock, read by
    [analyze] for its [timestamp], and the pricing library, whose answer for
    the one option [comprehensive_analysis] prices depends on the state the
    library is in at the call (its process-wide settings, among them the
    evaluation date [__init__] sets).  The definitions below name the parts of
    a result on either side of that line. *)

(** The option [comprehensive_analysis] hands to the library: a 30-day call
    struck at the spot. *)
Definition sample_option (self : QuantLibAnalyzer.t) (market_data : gmap string Q)
    : QLOption :=
  {| ql_today := QuantLibAnalyzer.today self;
     ql_maturity := (QuantLibAnalyzer.today self + 30)%Z;
     ql_spot := get market_data "kospi" 2650%Q;
     ql_strike := get market_data "kospi" 2650%Q;
     ql_rate := get market_data "us_10y" 0.0427%Q;
     ql_volatility := (get market_data "vix" 18 / 100)%Q;
     ql_is_call := true |}.

(** The parts of a comprehensive result computed without the library. *)
Definition library_free (c : QuantLibAnalyzer.Comprehensive)
    : QuantLibAnalyzer.VasicekReport * QuantLibAnalyzer.YieldCurveResult
      * QuantLibAnalyzer.VolatilityReport * QuantLibAnalyzer.BondReport :=
  (QuantLibAnalyzer.vasicek c, QuantLibAnalyzer.yield_curve c,
   QuantLibAnalyzer.volatility c, QuantLibAnalyzer.bond_10y c).

(** The dict [ql_data] that [analyze] builds for [comprehensive_analysis]. *)
Definition snapshot (vix_value : Q) (market_data : option (gmap string Q))
    : gmap string Q :=
  let market_data := match market_data with None => ∅ | Some d => d end in
  list_to_map
    [("us_10y", get market_data "us_10y" 0.0427);
     ("us_2y", get market_data "us_2y" 0.0359);
     ("us_30y", get market_data "us_30y" 0.045);
     ("vix", vix_value);
     ("kospi", get market_data "kospi" 2650)]%Q.

(** The parts of a result of [analyze] that depend neither on the clock nor on
    the library. *)
Definition state_free (a : RiskManager.Analysis)
    : RiskManager.RiskMetrics * RiskManager.PositionSizing * RiskManager.VaRReport
      * (QuantLibAnalyzer.VasicekReport * QuantLibAnalyzer.YieldCurveResult
         * QuantLibAnalyzer.VolatilityReport * QuantLibAnalyzer.BondReport) :=
  (RiskManager.risk_metrics a, RiskManager.position_sizing a,
   RiskManager.var_analysis a, library_free (RiskManager.quantlib a)).

(** ** [macro_layer.py]

    [MacroAnalyzer.analyze] collects market data over the network and then
    works on the fetched records alone: the records a failed fetch yields, the
    MOVE estimate built from the VIX record, the signals and the overall
    call. *)

Module MacroAnalyzer.

#[local] Open Scope Q_scope.

(** The record [fetch_data] returns when the download fails or is too short. *)
Definition fetch_data_fallback : gmap string Q :=
  list_to_map
    [("value", 0); ("prev", 0); ("change", 0); ("change_pct", 0);
     ("week_change_pct", 0)]%Q.

(** The record [fetch_weekly_data] returns in the same case. *)
Definition fetch_weekly_data_fallback : gmap string Q :=
  list_to_map
    [("value", 0); ("week_change_pct", 0); ("month_change_pct", 0);
     ("high_1m", 0); ("low_1m", 0); ("range_pct", 0)]%Q.

(** [move = {"value": vix.get("value", 0) * 5.5}] *)
Definition move_estimate (vix : gmap string Q) : gmap string Q :=
  {[ "value" := (get vix "value" 0 * 5.5)%Q ]}.

(** A signal is a tuple (name, text, kind); the text is for the reader only
    and is left out. *)
Record Signal : Type := { signal_name : string; signal_kind : string }.

(** The signal list of [analyze], in the order of the [append] calls. *)
Definition signals (kospi sp500 usdkrw vix us_10y : gmap string Q) : list Signal :=
  let kospi_trend :=
    if gtb (get kospi "week_change_pct" 0) 2 then
      [{| signal_name := "KOSPI 강세"; signal_kind := "POSITIVE" |}]
    else if ltb (get kospi "week_change_pct" 0) (-2) then
      [{| signal_name := "KOSPI 약세"; signal_kind := "NEGATIVE" |}]
    else [] in
  let us_market :=
    if gtb (get sp500 "week_change_pct" 0) 2 then
      [{| signal_name := "S&P500 강세"; signal_kind := "POSITIVE" |}]
    else if ltb (get sp500 "week_change_pct" 0) (-2) then
      [{| signal_name := "S&P500 약세"; signal_kind := "NEGATIVE" |}]
    else [] in
  let fx :=
    if gtb (get usdkrw "week_change_pct" 0) 1 then
      [{| signal_name := "원화 약세"; signal_kind := "MIXED" |}]
    else if ltb (get usdkrw "week_change_pct" 0) (-1) then
      [{| signal_name := "원화 강세"; signal_kind := "POSITIVE" |}]
    else [] in
  let volatility :=
    if gtb (get vix "value" 0) 25 then
      [{| signal_name := "VIX 고점"; signal_kind := "RISK_OFF" |}]
    else if ltb (get vix "value" 0) 15 then
      [{| signal_name := "VIX 저점"; signal_kind := "RISK_ON" |}]
    else [] in
  let rates :=
    if ltb (get us_10y "change" 0) (-0.1) then
      [{| signal_name := "미국 금리 하락"; signal_kind := "POSITIVE" |}]
    else if gtb (get us_10y "change" 0) 0.1 then
      [{| signal_name := "미국 금리 상승"; signal_kind := "NEGATIVE" |}]
    else [] in
  kospi_trend ++ us_market ++ fx ++ volatility ++ rates.

(** [sum(1 for s in signals if s[2] in kinds)] *)
Definition count_kinds (kinds : list string) (signals : list Signal) : nat :=
  length (filter (λ s, existsb (String.eqb (signal_kind s)) kinds) signals).

Definition overall (signals : list Signal) : string :=
  let pos := count_kinds ["POSITIVE"; "RISK_ON"] signals in
  let neg := count_kinds ["NEGATIVE"; "RISK_OFF"] signals in
  if (neg <? pos)%nat then "BULLISH"
  else if (pos <? neg)%nat then "BEARISH"
  else "NEUTRAL".

End MacroAnalyzer.

(** ** [main.py] *)

Module InvestmentAdvisor.

(** What [make_decision] reads of the industry layer's answer. *)
Record Sector : Type := {
  sector_name : option string;
  sector_catalysts : option (list string)
}.

Record ClaudeAnalysis : Type := {
  top_sectors : option (list Sector);
  rotation_signal : option string
}.

Inductive DecisionKind : Set := STRONG_BUY | BUY | HOLD | REDUCE | SELL.

Record Decision : Type := {
  decision_timestamp : string;
  score : Z;
  decision : DecisionKind;
  action : string;
  allocation : list (string * Z);
  signal_macro : string;
  signal_risk : RiskManager.RiskLevel;
  signal_sentiment : string;
  signal_rotation : string;
  primary_sector : string;
  catalysts : list string;
  (* the number printed by [f"{position_adj:.1%}"], in percent *)
  position_size : Q;
  risk_warning : bool
}.

(** The RISK step of [analyze_all]: the inputs of [RiskManager.analyze] are
    read from the indicators of the macro result, a dict of records. *)
Definition risk_step (ql : QuantLib) (risk : RiskManager.t) (now : string)
    (portfolio_value : Q) (indicators : gmap string (gmap string Q))
    : result RiskManager.Analysis :=
  move ← getitem indicators "move";
  move_value ← getitem move "value";
  vix ← getitem indicators "vix";
  let vix_value := get vix "value" 18%Q in
  us_10y ← getitem indicators "us_10y";
  us_2y ← getitem indicators "us_2y";
  let us_30y := get indicators "us_30y" ∅ in
  kospi ← getitem indicators "kospi";
  let market_data : gmap string Q :=
    list_to_map
      [("us_10y", get us_10y "value" 0.0427 / 100);
       ("us_2y", get us_2y "value" 0.0359 / 100);
       ("us_30y", get us_30y "value" 0.045 / 100);
       ("vix", vix_value);
       ("kospi", get kospi "value" 2650)]%Q in
  RiskManager.analyze ql risk now move_value vix_value portfolio_value
    (Some market_data).

(** [now] is the clock reading taken for the [timestamp] field. *)
Definition make_decision (now : string) (macro_signal : string)
    (risk : RiskManager.Analysis) (sentiment : string)
    (claude_analysis : option ClaudeAnalysis) : Decision :=
  let risk_level := RiskManager.risk_level (RiskManager.risk_metrics risk) in
  let risk_score := RiskManager.risk_score (RiskManager.risk_metrics risk) in
  let top_sectors :=
    match claude_analysis with
    | Some c => default [] (top_sectors c)
    | None => []
    end in
  let top_sector :=
    match top_sectors with
    | s :: _ => default "N/A" (sector_name s)
    | [] => "N/A"
    end in
  let top_sector_catalysts :=
    match top_sectors with
    | s :: _ => default [] (sector_catalysts s)
    | [] => []
    end in
  let rotation_signal :=
    match claude_analysis with
    | Some c => default "NEUTRAL" (rotation_signal c)
    | None => "NEUTRAL"
    end in
  let score := 50%Z in
  let score :=
    if String.eqb macro_signal "BULLISH" then (score + 20)%Z
    else if String.eqb macro_signal "BEARISH" then (score - 20)%Z
    else score in
  let score :=
    match risk_level with
    | RiskManager.LOW => (score + 15)%Z
    | RiskManager.HIGH => (score - 15)%Z
    | _ => score
    end in
  let score :=
    if String.eqb sentiment "POSITIVE" then (score + 15)%Z
    else if String.eqb sentiment "NEGATIVE" then (score - 15)%Z
    else score in
  let score :=
    if String.eqb rotation_signal "RISK_ON" then (score + 10)%Z
    else if String.eqb rotation_signal "RISK_OFF" then (score - 10)%Z
    else score in
  let '(decision, action, allocation) :=
    if (70 <=? score)%Z then
      (STRONG_BUY, "위험자산 적극 매수", [("주식", 70); ("채권", 20); ("현금", 10)]%Z)
    else if (55 <=? score)%Z then
      (BUY, "위험자산 비중 확대", [("주식", 60); ("채권", 30); ("현금", 10)]%Z)
    else if (45 <=? score)%Z then
      (HOLD, "현재 포지션 유지", [("주식", 50); ("채권", 35); ("현금", 15)]%Z)
    else if (30 <=? score)%Z then
      (REDUCE, "위험자산 비중 축소", [("주식", 35); ("채권", 45); ("현금", 20)]%Z)
    else
      (SELL, "위험자산 대폭 축소", [("주식", 20); ("채권", 50); ("현금", 30)]%Z) in
  let position_adj :=
    RiskManager.adjusted_allocation (RiskManager.position_sizing risk) in
  {| decision_timestamp := now;
     score := score;
     decision := decision;
     action := action;
     allocation := allocation;
     signal_macro := macro_signal;
     signal_risk := risk_level;
     signal_sentiment := sentiment;
     signal_rotation := rotation_signal;
     primary_sector := top_sector;
     catalysts := top_sector_catalysts;
     position_size := round (position_adj * 100) 1;
     risk_warning := (70 <? risk_score)%Z |}.

End InvestmentAdvisor.

(** ** The points of a yield curve

    [yield_curve_analysis] pairs each recognized tenor with its rate before it
    sorts the pairs. *)

Definition tenor_lt (p q : Q * Q) : Prop := (fst p < fst q)%Q.
Definition tenor_ne (p q : Q * Q) : Prop := ¬ (fst p == fst q)%Q.

Definition points (rates : list (string * Q)) : list (Q * Q) :=
  zip (fst (QuantLibAnalyzer.collect rates)) (snd (QuantLibAnalyzer.collect rates)).

(** ** Fixed-point arithmetic for bounds on powers

    Squaring a scaled integer and rounding down, repeated: a lower bound of a
    2^n-th power that is computed on short numbers. *)

Definition sq_down (scale q : Z) : Z := (q * q / scale)%Z.

Fixpoint sq_chain (scale : Z) (n : nat) (q : Z) : Z :=
  match n with
  | O => q
  | S n' => sq_chain scale n' (sq_down scale q)
  end.

Definition fixed_scale : Z := 1000000000000000.


(** ** Where binary64 decides as exact arithmetic does

    The embedding computes in exact rationals.  Two outcomes of [bond_analysis]
    are discrete and can differ from what binary64 gives when a value sits
    within rounding error of a boundary: the number of periods,
    [int(years_to_maturity * frequency)], when the product is just below a
    whole number, and the class, when the price is within rounding error of
    the face value (as on every bond whose coupon rate equals its yield).  The
    statements about these outcomes are made away from the boundaries, by the
    margins below, and for bonds of ordinary size, on which no intermediate
    value leaves the range of binary64. *)

Module Regime.

#[local] Open Scope Q_scope.

(** 2^-40: how far below a whole number the number of periods has to stay. *)
Definition period_margin : Q := 1 # 1099511627776.

(** 2^-30: the relative distance of the price from the face value beyond which
    the class is decided. *)
Definition price_margin : Q := 1 # 1073741824.

(** frequency / 2^29: the distance between coupon rate and yield that puts the
    price beyond [price_margin]. *)
Definition rate_margin (frequency : Z) : Q := inject_Z frequency * (1 # 536870912).

(** A face value between 1 and 10^12, a coupon rate between 0 and 100%, at most
    daily coupons, a yield between 0 and 100% per period, at most 1000
    periods. *)
Definition ordinary_bond (face_value coupon_rate ytm years : Q) (frequency : Z)
    : Prop :=
  1 <= face_value ∧ face_value <= 1000000000000 ∧
  0 <= coupon_rate ∧ coupon_rate <= 1 ∧
  (1 <= frequency)%Z ∧ (frequency <= 365)%Z ∧
  0 <= ytm ∧ ytm <= inject_Z frequency ∧
  0 < years ∧ years * inject_Z frequency <= 1000.


End Regime.

(** ** The properties stated about the code, in their own words

    These definitions follow the text of the specification; the theorems below
    compare them with the embedding of the code. *)

Module Spec.

#[local] Open Scope Q_scope.

(** A five-way bucket at four ascending thresholds. *)
Definition bucket_of (t1 t2 t3 t4 x : Q) (score : Z) : Prop :=
  (x < t1 → score = 10%Z) ∧
  (t1 <= x → x < t2 → score = 25%Z) ∧
  (t2 <= x → x < t3 → score = 35%Z) ∧
  (t3 <= x → x < t4 → score = 45%Z) ∧
  (t4 <= x → score = 50%Z).

Definition level_of (score : Z) (level : RiskManager.RiskLevel) : Prop :=
  ((score < 40)%Z → level = RiskManager.LOW) ∧
  ((40 <= score < 60)%Z → level = RiskManager.MEDIUM) ∧
  ((60 <= score < 80)%Z → level = RiskManager.HIGH) ∧
  ((80 <= score)%Z → level = RiskManager.EXTREME).

(** Curve shape by the slope, with the thresholds at half a percent. *)
Definition shape_of (slope : Q) (shape : QuantLibAnalyzer.CurveShape) : Prop :=
  (0.005 < slope → shape = QuantLibAnalyzer.STEEP) ∧
  (0 < slope → slope <= 0.005 → shape = QuantLibAnalyzer.NORMAL) ∧
  (-0.005 < slope → slope <= 0 → shape = QuantLibAnalyzer.FLAT) ∧
  (slope <= -0.005 → shape = QuantLibAnalyzer.INVERTED).

(** The recognized tenor labels. *)
Definition tenor_labels : list string :=
  ["1M"; "3M"; "6M"; "1Y"; "2Y"; "3Y"; "5Y"; "7Y"; "10Y"; "30Y"].

Definition recognized (label : string) : bool :=
  existsb (String.eqb label) tenor_labels.

(** Present value of a bond: the sum over t = 1..n of coupon/(1+y)^t, plus
    face/(1+y)^n. *)
Definition sigma (n : nat) (term : nat → Q) : Q :=
  fold_right Qplus 0 (map term (seq 1 n)).

Definition bond_price (face coupon y : Q) (n : nat) : Q :=
  sigma n (λ t, coupon / (1 + y) ^ Z.of_nat t) + face / (1 + y) ^ Z.of_nat n.

Definition premium_discount_of (price face : Q)
    (c : QuantLibAnalyzer.PremiumDiscount) : Prop :=
  (face < price → c = QuantLibAnalyzer.Premium) ∧
  (price < face → c = QuantLibAnalyzer.Discount) ∧
  (price == face → c = QuantLibAnalyzer.Par).

(** The Vasicek moments. *)
Definition expected_rate (r0 kappa theta t : R) : R :=
  (r0 * exp (- kappa * t) + theta * (1 - exp (- kappa * t)))%R.

Definition rate_stdev (kappa sigma t : R) : R :=
  sqrt ((sigma ^ 2 / (2 * kappa)) * (1 - exp (- 2 * kappa * t)))%R.

End Spec.

(** * Properties *)

Import QuantLibAnalyzer RiskManager.
#[local] Open Scope Q_scope.

(** ** Comparisons and the exception monad *)

Lemma ltb_true (x y : Q) : ltb x y = true ↔ x < y.
Proof.
  unfold ltb. rewrite negb_true_iff, <- not_true_iff_false, Qle_bool_iff.
  split; [apply Qnot_le_lt | apply Qlt_not_le].
Qed.

Lemma ltb_false (x y : Q) : ltb x y = false ↔ y <= x.
Proof. unfold ltb. rewrite negb_false_iff. apply Qle_bool_iff. Qed.

Lemma ltb_spec (x y : Q) : reflect (x < y) (ltb x y).
Proof.
  destruct (ltb x y) eqn:E; constructor.
  - now apply ltb_true.
  - apply ltb_false in E. now apply Qle_not_lt.
Qed.

Ltac case_ltb :=
  repeat match goal with
         | |- context [ltb ?x ?y] => destruct (ltb_spec x y)
         | |- context [gtb ?x ?y] => unfold gtb
         end.

(** Contradictions between order facts on rationals. *)
Ltac q_order :=
  repeat match goal with H : ¬ (_ < _)%Q |- _ => apply Qnot_lt_le in H end;
  lra.

(** ** Risk scoring *)

Section RiskScore.

Variable a : QuantLibAnalyzer.t.
Let self := RiskManager.init a.

Lemma bucket_spec (th : Thresholds) (x : Q) :
  low th <= medium th → medium th <= high th → high th <= extreme th →
  Spec.bucket_of (low th) (medium th) (high th) (extreme th) x (bucket th x).
Proof.
  intros H1 H2 H3. unfold Spec.bucket_of, bucket.
  case_ltb; repeat split; intros; try reflexivity; exfalso; q_order.
Qed.

Lemma bucket_range (th : Thresholds) (x : Q) : (10 <= bucket th x <= 50)%Z.
Proof. unfold bucket. case_ltb; lia. Qed.

Lemma bucket_monotone (th : Thresholds) (x y : Q) :
  low th <= medium th → medium th <= high th → high th <= extreme th →
  x <= y → (bucket th x <= bucket th y)%Z.
Proof.
  intros H1 H2 H3 Hxy. unfold bucket.
  case_ltb; try lia; exfalso; q_order.
Qed.

(** C5: for MOVE m >= 0 and VIX v >= 0 the two contributions are the
    buckets 10/25/35/45/50 at the thresholds 80/100/120/150 and 15/20/25/35,
    the score is their sum, and the level is LOW below 40, MEDIUM below 60,
    HIGH below 80 and EXTREME from 80 on; MOVE=99 with VIX=18 gives
    25 + 25 = 50 and MEDIUM. *)
Theorem risk_metrics_buckets (m v : Q) :
  0 <= m → 0 <= v →
  let r := _calculate_risk_metrics self m v in
  Spec.bucket_of 80 100 120 150 m (move_contribution r) ∧
  Spec.bucket_of 15 20 25 35 v (vix_contribution r) ∧
  risk_score r = (move_contribution r + vix_contribution r)%Z ∧
  Spec.level_of (risk_score r) (risk_level r) ∧
  (let s := _calculate_risk_metrics self 99 18 in
   move_contribution s = 25%Z ∧ vix_contribution s = 25%Z ∧
   risk_score s = 50%Z ∧ risk_level s = MEDIUM).
Proof.
  intros _ _ r. split; [|split; [|split; [|split]]].
  - apply (bucket_spec (move_thresholds self)); cbn; lra.
  - apply (bucket_spec (vix_thresholds self)); cbn; lra.
  - reflexivity.
  - unfold Spec.level_of. subst r. cbn [risk_score risk_level _calculate_risk_metrics].
    repeat match goal with |- context [(?x <? ?y)%Z] => destruct (Z.ltb_spec x y) end;
      repeat split; intros; try reflexivity; lia.
  - vm_compute. repeat split.
Qed.

(** C6: the score never decreases when MOVE grows with VIX fixed, nor when
    VIX grows with MOVE fixed, and it always lies between 20 and 100. *)
Theorem risk_score_monotone_bounded :
  (∀ m1 m2 v : Q, m1 <= m2 →
     (risk_score (_calculate_risk_metrics self m1 v)
      <= risk_score (_calculate_risk_metrics self m2 v))%Z) ∧
  (∀ m v1 v2 : Q, v1 <= v2 →
     (risk_score (_calculate_risk_metrics self m v1)
      <= risk_score (_calculate_risk_metrics self m v2))%Z) ∧
  (∀ m v : Q, (20 <= risk_score (_calculate_risk_metrics self m v) <= 100)%Z).
Proof.
  split; [|split].
  - intros m1 m2 v H. cbn [risk_score _calculate_risk_metrics].
    apply Z.add_le_mono_r.
    apply bucket_monotone; [cbn; lra .. | exact H].
  - intros m v1 v2 H. cbn [risk_score _calculate_risk_metrics].
    apply Z.add_le_mono_l.
    apply bucket_monotone; [cbn; lra .. | exact H].
  - intros m v. cbn [risk_score _calculate_risk_metrics].
    pose proof (bucket_range (move_thresholds self) m).
    pose proof (bucket_range (vix_thresholds self) v). lia.
Qed.

End RiskScore.

(** Concrete order facts on rationals. *)
Ltac q_compute := unfold Qle, Qlt; simpl; lia.

(** C5 at the scenario of the specification, MOVE=99 and VIX=18. *)
Lemma risk_metrics_buckets_witness :
  0 <= 99 ∧ 0 <= 18 ∧
  let r := _calculate_risk_metrics (init {| today := 0 |}) 99 18 in
  Spec.bucket_of 80 100 120 150 99 (move_contribution r) ∧
  Spec.bucket_of 15 20 25 35 18 (vix_contribution r) ∧
  risk_score r = (move_contribution r + vix_contribution r)%Z ∧
  Spec.level_of (risk_score r) (risk_level r).
Proof.
  split; [q_compute | split; [q_compute |]].
  intros r.
  destruct (risk_metrics_buckets {| today := 0 |} 99 18) as (H1 & H2 & H3 & H4 & _);
    [q_compute | q_compute |].
  exact (conj H1 (conj H2 (conj H3 H4))).
Defined.

(** ** Yield curve *)

(** The thresholds the code applies to the slope are 0.5 and -0.5. *)
Lemma classify_slope_thresholds (slope : Q) :
  (0.5 < slope → fst (classify_slope slope) = STEEP) ∧
  (0 < slope → slope <= 0.5 → fst (classify_slope slope) = NORMAL) ∧
  (-0.5 < slope → slope <= 0 → fst (classify_slope slope) = FLAT) ∧
  (slope <= -0.5 → fst (classify_slope slope) = INVERTED).
Proof.
  unfold classify_slope. case_ltb; cbn [fst];
    repeat split; intros; try reflexivity; exfalso; q_order.
Qed.

(** C1, on the code: a curve from 2.0% at 3M to 4.5% at 10Y has a slope of 2.5
    points, above half a percent, and is reported NORMAL where the specification
    says STEEP; a curve from 5% down to 4% has a slope of -1 point and is
    reported FLAT where the specification says INVERTED. *)
Theorem yield_curve_shape_thresholds :
  (∃ r, yield_curve_analysis [("3M", 0.02); ("10Y", 0.045)] = Return (YieldCurve r) ∧
        curve_shape r = NORMAL ∧ slope_bps r == 250 ∧
        ¬ Spec.shape_of (0.045 - 0.02) (curve_shape r)) ∧
  (∃ r, yield_curve_analysis [("3M", 0.05); ("10Y", 0.04)] = Return (YieldCurve r) ∧
        curve_shape r = FLAT ∧ slope_bps r == -100 ∧
        ¬ Spec.shape_of (0.04 - 0.05) (curve_shape r)).
Proof.
  split; eexists; (split; [vm_compute; reflexivity |]);
    (split; [reflexivity | split; [reflexivity |]]);
    cbn [curve_shape]; intros (H1 & H2 & H3 & H4).
  - discriminate H1. q_compute.
  - discriminate H4. q_compute.
Qed.

Lemma tenor_map_recognized (label : string) :
  is_Some (tenor_map !! label) ↔ Spec.recognized label = true.
Proof.
  unfold Spec.recognized, Spec.tenor_labels. cbn [existsb]. split.
  - intros [v Hv]. apply elem_of_list_to_map_2 in Hv.
    repeat (apply elem_of_cons in Hv as [Hv | Hv];
            [injection Hv as -> _; vm_compute; reflexivity |]).
    apply elem_of_nil in Hv. contradiction.
  - rewrite !orb_true_iff, !String.eqb_eq.
    intros H. repeat destruct H as [H | H]; try discriminate H;
      subst label; vm_compute; eauto.
Qed.

Lemma collect_filter (rates : list (string * Q)) :
  collect (List.filter (λ kv, Spec.recognized kv.1) rates) = collect rates.
Proof.
  induction rates as [| [tenor rate] rest IH]; [reflexivity |].
  cbn [List.filter fst collect].
  pose proof (tenor_map_recognized tenor) as Hrec.
  destruct (Spec.recognized tenor) eqn:E.
  - cbn [collect]. now rewrite IH.
  - rewrite IH. destruct (collect rest) as [tenors yields].
    destruct (tenor_map !! tenor) eqn:El; [| reflexivity].
    assert (false = true) by (apply Hrec; eauto). discriminate.
Qed.

Lemma collect_length (rates : list (string * Q)) :
  length (fst (collect rates))
  = length (List.filter (λ kv, Spec.recognized kv.1) rates).
Proof.
  induction rates as [| [tenor rate] rest IH]; [reflexivity |].
  cbn [List.filter fst collect].
  pose proof (tenor_map_recognized tenor) as Hrec.
  destruct (collect rest) as [tenors yields]. cbn [fst] in IH.
  destruct (tenor_map !! tenor) eqn:El, (Spec.recognized tenor) eqn:E;
    cbn [fst length]; try congruence.
  - assert (false = true) by (apply Hrec; eauto). discriminate.
  - assert (is_Some (@None Q)) as [? ?] by now apply Hrec. discriminate.
Qed.

(** C9: the labels outside 1M, 3M, 6M, 1Y, 2Y, 3Y, 5Y, 7Y, 10Y, 30Y do not
    influence the result, and with fewer than two recognized points the
    function returns the error-tagged result "Insufficient data": it neither
    raises nor classifies. *)
Theorem yield_curve_insufficient_data (rates : list (string * Q)) :
  let usable := List.filter (λ kv, Spec.recognized kv.1) rates in
  yield_curve_analysis rates = yield_curve_analysis usable ∧
  ((length usable < 2)%nat →
   yield_curve_analysis rates = Return (YieldCurveError "Insufficient data")).
Proof.
  intros usable. split.
  - unfold yield_curve_analysis, usable. now rewrite collect_filter.
  - intros Hlen. unfold yield_curve_analysis.
    pose proof (collect_length rates) as Hc. fold usable in Hc.
    destruct (collect rates) as [tenors yields]. cbn [fst] in Hc.
    destruct (Nat.ltb_spec (length tenors) 2) as [_ | Hge]; [reflexivity | lia].
Qed.

(** C9 on a curve with one recognized point and two unknown labels. *)
Lemma yield_curve_insufficient_data_witness :
  let rates := [("10Y", 0.0427); ("2W", 0.05); ("overnight", 0.051)] in
  let usable := List.filter (λ kv, Spec.recognized kv.1) rates in
  (length usable < 2)%nat ∧
  yield_curve_analysis rates = yield_curve_analysis usable ∧
  yield_curve_analysis rates = Return (YieldCurveError "Insufficient data").
Proof.
  intros rates usable.
  destruct (yield_curve_insufficient_data rates) as [H1 H2].
  split; [vm_compute; lia |].
  split; [exact H1 | apply H2; vm_compute; lia].
Defined.

(** ** Bond pricing *)

Lemma mapM_total {A B} (f : A → result B) (g : A → B) (l : list A) :
  (∀ x, f x = Return (g x)) → mapM f l = Return (map g l).
Proof.
  intros Hf. induction l as [| x l IH]; [reflexivity |].
  cbn [mapM map]. rewrite Hf, IH. reflexivity.
Qed.

Lemma div_Return (x y : Q) : ¬ y == 0 → div x y = Return (x / y).
Proof.
  intros Hy. unfold div. destruct (Qeq_bool y 0) eqn:E; [| reflexivity].
  apply Qeq_bool_iff in E. contradiction.
Qed.

Lemma pow_Return (x : Q) (n : Z) : ¬ x == 0 → pow x n = Return (x ^ n).
Proof.
  intros Hx. unfold pow. destruct (Qeq_bool x 0) eqn:E; [| reflexivity].
  apply Qeq_bool_iff in E. contradiction.
Qed.

Lemma int_floor (x : Q) : 0 <= x → int x = Qfloor x.
Proof.
  destruct x as [n d]. unfold Qle, int, Qfloor. cbn. intros H.
  apply Z.quot_div_nonneg; lia.
Qed.

Lemma fold_left_Qplus (l : list Q) (acc : Q) :
  fold_left Qplus l acc == acc + fold_right Qplus 0 l.
Proof.
  revert acc. induction l as [| x l IH]; intros acc; cbn [fold_left fold_right].
  - ring.
  - rewrite IH. ring.
Qed.

Lemma range_from_1 (n : Z) :
  range 1 (n + 1) = map Z.of_nat (seq 1 (Z.to_nat n)).
Proof.
  unfold range. replace (n + 1 - 1)%Z with n by lia.
  rewrite <- seq_shift, map_map. apply map_ext. intros i. lia.
Qed.

Lemma sum_sigma (g : Z → Q) (n : Z) :
  Py.sum (map g (range 1 (n + 1))) == Spec.sigma (Z.to_nat n) (λ t, g (Z.of_nat t)).
Proof.
  unfold Py.sum, Spec.sigma. rewrite fold_left_Qplus, range_from_1, map_map. ring.
Qed.

Ltac py_step := cbn [mbind result_bind mret result_ret].

Lemma bond_figures_returns (face_value coupon_rate ytm years : Q) (frequency : Z) :
  0 < years → (1 <= frequency)%Z →
  let n := Qfloor (years * inject_Z frequency) in
  let c := face_value * coupon_rate / inject_Z frequency in
  let y := ytm / inject_Z frequency in
  let p := Spec.bond_price face_value c y (Z.to_nat n) in
  ¬ 1 + y == 0 → ¬ p == 0 →
  ∃ f, bond_figures face_value coupon_rate ytm years frequency = Return f ∧
       n_periods f = n ∧ coupon f = c ∧ ytm_period f = y ∧ price f == p.
Proof.
  intros Hyears Hfreq n c y p Hy Hp.
  assert (Hf : ¬ inject_Z frequency == 0).
  { unfold Qeq. cbn. lia. }
  assert (Hn : int (years * inject_Z frequency) = n).
  { apply int_floor. apply Qmult_le_0_compat; [lra |].
    unfold Qle. cbn. lia. }
  assert (Hpow : ∀ k, ¬ (1 + y) ^ k == 0) by (intros k; now apply Qpower_not_0).
  unfold bond_figures. rewrite Hn.
  rewrite !(div_Return _ _ Hf). py_step.
  change (face_value * coupon_rate / inject_Z frequency) with c.
  change (ytm / inject_Z frequency) with y.
  rewrite (mapM_total (λ t, d ← pow (1 + y) t; div c d) (λ t, c / (1 + y) ^ t));
    [| intros t; rewrite pow_Return by exact Hy; py_step; rewrite div_Return by apply Hpow; reflexivity ].
  py_step.
  rewrite (pow_Return _ n Hy). py_step.
  rewrite (div_Return _ _ (Hpow n)). py_step.
  rewrite (mapM_total (λ t, d ← pow (1 + y) t; div (inject_Z t * c) d) (λ t, inject_Z t * c / (1 + y) ^ t));
    [| intros t; rewrite pow_Return by exact Hy; py_step; rewrite div_Return by apply Hpow; reflexivity ].
  py_step.
  rewrite (div_Return _ _ (Hpow n)). py_step.
  assert (Hprice : Py.sum (map (λ t, c / (1 + y) ^ t) (range 1 (n + 1)))
                   + face_value / (1 + y) ^ n == p).
  { unfold p, Spec.bond_price. rewrite sum_sigma.
    assert (0 <= n)%Z.
    { unfold n. rewrite <- (Qfloor_Z 0). apply Qfloor_resp_le.
      apply Qmult_le_0_compat; [lra |]. unfold Qle. cbn. lia. }
    rewrite Z2Nat.id by assumption. reflexivity. }
  assert (Hprice0 : ¬ Py.sum (map (λ t, c / (1 + y) ^ t) (range 1 (n + 1)))
                   + face_value / (1 + y) ^ n == 0).
  { now rewrite Hprice. }
  rewrite (div_Return _ _ Hprice0). py_step.
  rewrite (div_Return _ _ Hf). py_step.
  rewrite (div_Return _ _ Hy). py_step.
  rewrite (mapM_total (λ t, d ← pow (1 + y) (t + 2); div (inject_Z t * inject_Z (t + 1) * c) d) (λ t, inject_Z t * inject_Z (t + 1) * c / (1 + y) ^ (t + 2)));
    [| intros t; rewrite pow_Return by exact Hy; py_step; rewrite div_Return by apply Hpow; reflexivity ].
  py_step.
  rewrite (pow_Return _ _ Hy). py_step.
  rewrite (div_Return _ _ (Hpow _)). py_step.
  rewrite div_Return.
  2:{ intros H. apply Qmult_integral in H as [H | H]; [contradiction |].
      revert H. unfold Qeq. cbn. nia. }
  py_step. eexists. split; [reflexivity |]. cbn [n_periods coupon ytm_period price].
  repeat split. exact Hprice.
Qed.

(** The price formula is positive for every yield above -100% per period. *)
Lemma bond_price_positive (face c y : Q) (n : nat) :
  0 < face → 0 <= c → 0 < 1 + y → 0 < Spec.bond_price face c y n.
Proof.
  intros Hface Hc Hy. unfold Spec.bond_price.
  assert (Hs : 0 <= Spec.sigma n (λ t, c / (1 + y) ^ Z.of_nat t)).
  { unfold Spec.sigma. induction (seq 1 n) as [| t l IH]; cbn [map fold_right].
    - lra.
    - assert (0 <= c / (1 + y) ^ Z.of_nat t).
      { apply Qle_shift_div_l; [now apply Qpower_0_lt | lra]. }
      lra. }
  assert (0 < face / (1 + y) ^ Z.of_nat n).
  { apply Qlt_shift_div_l; [now apply Qpower_0_lt | lra]. }
  lra.
Qed.

Lemma inject_Z_pos (z : Z) : (1 <= z)%Z → 0 < inject_Z z.
Proof. intros H. unfold Qlt. cbn. lia. Qed.

(** On an ordinary bond no division of [bond_figures] is by zero. *)
Lemma bond_figures_regime (face_value coupon_rate ytm years : Q) (frequency : Z) :
  Regime.ordinary_bond face_value coupon_rate ytm years frequency →
  let n := Qfloor (years * inject_Z frequency) in
  let c := face_value * coupon_rate / inject_Z frequency in
  let y := ytm / inject_Z frequency in
  let p := Spec.bond_price face_value c y (Z.to_nat n) in
  0 <= c ∧ 0 <= y ∧ y <= 1 ∧ 0 < p ∧
  ∃ f, bond_figures face_value coupon_rate ytm years frequency = Return f ∧
       n_periods f = n ∧ coupon f = c ∧ ytm_period f = y ∧ price f == p.
Proof.
  intros (Hface & _ & Hcr & _ & Hfreq & _ & Hytm & Hytm1 & Hyears & _) n c y p.
  pose proof (inject_Z_pos frequency Hfreq) as Hq.
  assert (Hc : 0 <= c).
  { unfold c. apply Qle_shift_div_l; [exact Hq | nra]. }
  assert (Hy : 0 <= y).
  { unfold y. apply Qle_shift_div_l; [exact Hq | lra]. }
  assert (Hy1 : y <= 1).
  { unfold y. apply Qle_shift_div_r; [exact Hq | lra]. }
  assert (Hp : 0 < p).
  { apply bond_price_positive; lra. }
  repeat (split; [assumption |]).
  apply bond_figures_returns; try assumption; fold y; fold c n p; lra.
Qed.



(** ** Rounding *)

Lemma round_half_even_comp (x y : Q) : x == y → round_half_even x = round_half_even y.
Proof.
  intros E. unfold round_half_even.
  rewrite (Qfloor_comp _ _ E).
  assert (Ec : (x - inject_Z (Qfloor y) ?= 1 # 2) = (y - inject_Z (Qfloor y) ?= 1 # 2)).
  { apply Qcompare_comp; [now rewrite E | reflexivity]. }
  now rewrite Ec.
Qed.

Lemma round_half_even_bounds (x : Q) :
  x - (1 # 2) <= inject_Z (round_half_even x) ∧
  inject_Z (round_half_even x) <= x + (1 # 2).
Proof.
  unfold round_half_even.
  pose proof (Qfloor_le x) as Hlo. pose proof (Qlt_floor x) as Hhi.
  rewrite inject_Z_plus in Hhi. change (inject_Z 1) with 1 in Hhi.
  destruct (Qcompare_spec (x - inject_Z (Qfloor x)) (1 # 2)) as [E | E | E].
  - destruct (Z.even (Qfloor x)); rewrite ?inject_Z_plus;
      change (inject_Z 1) with 1; split; lra.
  - split; lra.
  - rewrite inject_Z_plus. change (inject_Z 1) with 1. split; lra.
Qed.

Lemma round_half_even_Z (z : Z) : round_half_even (inject_Z z) = z.
Proof.
  unfold round_half_even. rewrite Qfloor_Z.
  destruct (Qcompare_spec (inject_Z z - inject_Z z) (1 # 2)) as [E | E | E];
    [exfalso; lra | reflexivity | exfalso; lra].
Qed.

Lemma inject_Z_lt_inv (a b : Z) : inject_Z a < inject_Z b → (a < b)%Z.
Proof. rewrite <- Zlt_Qlt. tauto. Qed.

(** Past 10 units of the last digit, a tenth more always rounds higher. *)
Lemma round_half_even_tenth (u : Q) :
  10 <= u → (round_half_even u < round_half_even (u * 1.1))%Z.
Proof.
  intros Hu. destruct (Qlt_le_dec 10 u) as [Hgt | Hle].
  - apply inject_Z_lt_inv.
    pose proof (round_half_even_bounds u) as [_ Hup].
    pose proof (round_half_even_bounds (u * 1.1)) as [Hlo _].
    lra.
  - assert (E : u == inject_Z 10) by (change (inject_Z 10) with 10; lra).
    rewrite (round_half_even_comp _ _ E), round_half_even_Z.
    assert (E' : u * 1.1 == inject_Z 11).
    { rewrite E. reflexivity. }
    rewrite (round_half_even_comp _ _ E'), round_half_even_Z. lia.
Qed.

Lemma round_4_tenth (a : Q) : 0.001 <= a → round a 4 < round (a * 1.1) 4.
Proof.
  intros Ha. unfold round.
  change (inject_Z (10 ^ Z.of_nat 4)) with 10000.
  assert (H : (round_half_even (a * 10000) < round_half_even (a * 1.1 * 10000))%Z).
  { rewrite (round_half_even_comp (a * 1.1 * 10000) (a * 10000 * 1.1)) by ring.
    apply round_half_even_tenth. lra. }
  rewrite Zlt_Qlt in H.
  apply Qmult_lt_r with (z := 10000); [reflexivity |].
  field_simplify. lra.
Qed.

(** ** Volatility term structure *)

Lemma term_structure_lookup (w m q h y : Q) :
  let ts : gmap string Q :=
    list_to_map [("1W", w); ("1M", m); ("3M", q); ("6M", h); ("1Y", y)] in
  getitem ts "1W" = Return w ∧ getitem ts "1M" = Return m.
Proof.
  intros ts. unfold getitem, ts. cbn [list_to_map foldr curry fst snd uncurry].
  split.
  - now rewrite lookup_insert_eq.
  - rewrite lookup_insert_ne by discriminate. now rewrite lookup_insert_eq.
Qed.

Lemma volatility_term_shape (spot rate : Q) (vol_data : option (gmap string Q)) :
  let d := match vol_data with None => default_vol_data | Some d => d end in
  let atm_vol := get d "ATM" 0.18 in
  0.001 <= atm_vol →
  ∃ r, volatility_surface_analysis spot rate vol_data = Return r ∧
       term_structure r !! "1W" = Some (round (round (atm_vol * 1.1) 4 * 100) 2) ∧
       term_structure r !! "1M" = Some (round (round atm_vol 4 * 100) 2) ∧
       term_shape r = BACKWARDATION.
Proof.
  intros d atm_vol Hatm. unfold volatility_surface_analysis. fold d. fold atm_vol.
  pose proof (term_structure_lookup (round (atm_vol * 1.1) 4) (round atm_vol 4)
                (round (atm_vol * 0.95) 4) (round (atm_vol * 0.92) 4)
                (round (atm_vol * 0.90) 4)) as [E1 E2].
  cbv zeta in E1, E2. rewrite E1. py_step. rewrite E2. py_step.
  assert (Hgt : gtb (round (atm_vol * 1.1) 4) (round atm_vol 4) = true)
    by (apply ltb_true; now apply round_4_tenth).
  rewrite Hgt. eexists. split; [reflexivity |].
  cbn [term_structure term_shape]. rewrite !lookup_fmap.
  unfold getitem in E1, E2.
  destruct (_ !! "1W") as [w |]; [| discriminate E1]. injection E1 as ->.
  destruct (_ !! "1M") as [m |]; [| discriminate E2]. injection E2 as ->.
  repeat split.
Qed.

(** C10: the 1W and 1M points of the term structure are the ATM volatility
    times 1.10 and 1.00, so from an ATM volatility of 0.001 on the shape is
    BACKWARDATION; this covers every call [comprehensive_analysis] makes with
    vix >= 0.1, whose ATM volatility is vix/100. *)
Theorem term_shape_backwardation :
  (∀ (spot rate : Q) (vol_data : option (gmap string Q)),
     let d := match vol_data with None => default_vol_data | Some d => d end in
     let atm_vol := get d "ATM" 0.18 in
     0.001 <= atm_vol →
     ∃ r, volatility_surface_analysis spot rate vol_data = Return r ∧
          term_structure r !! "1W" = Some (round (round (atm_vol * 1.1) 4 * 100) 2) ∧
          term_structure r !! "1M" = Some (round (round atm_vol 4 * 100) 2) ∧
          term_shape r = BACKWARDATION) ∧
  (∀ market_data : gmap string Q,
     0.1 <= get market_data "vix" 18 →
     ∃ r, comprehensive_volatility market_data = Return r ∧
          term_shape r = BACKWARDATION ∧
          ∀ ql self c,
            comprehensive_analysis ql self market_data = Return c →
            volatility c = r).
Proof.
  split; [exact volatility_term_shape |].
  intros market_data Hvix.
  set (vix := get market_data "vix" 18) in *.
  destruct (volatility_term_shape
              (get market_data "kospi" 2650) (get market_data "us_10y" 0.0427)
              (Some (list_to_map
                 [("10D_Put", vix / 100 * 1.3); ("25D_Put", vix / 100 * 1.15);
                  ("ATM", vix / 100); ("25D_Call", vix / 100 * 0.95);
                  ("10D_Call", vix / 100 * 0.90)])))
    as (r & Hr & _ & _ & Hshape).
  { unfold get. cbn [list_to_map foldr curry fst snd uncurry].
    rewrite !lookup_insert_ne by discriminate. rewrite lookup_insert_eq.
    cbn [default]. apply Qle_shift_div_l; [reflexivity | lra]. }
  exists r. split; [exact Hr |]. split; [exact Hshape |].
  intros ql self c. unfold comprehensive_analysis.
  destruct (vasicek_analysis _ _ _ _) as [v | e]; [| discriminate]. py_step.
  destruct (yield_curve_analysis _) as [yc | e]; [| discriminate]. py_step.
  fold vix. change (comprehensive_volatility market_data)
    with (volatility_surface_analysis (get market_data "kospi" 2650)
            (get market_data "us_10y" 0.0427)
            (Some (list_to_map
               [("10D_Put", vix / 100 * 1.3); ("25D_Put", vix / 100 * 1.15);
                ("ATM", vix / 100); ("25D_Call", vix / 100 * 0.95);
                ("10D_Call", vix / 100 * 0.90)]))).
  rewrite Hr. py_step.
  destruct (bond_analysis _ _ _ _ _) as [b | e]; [| discriminate]. py_step.
  intros [= <-]. reflexivity.
Qed.

(** C10 at the default snapshot, vix = 18. *)
Lemma term_shape_backwardation_witness :
  0.001 <= get default_vol_data "ATM" 0.18 ∧
  0.1 <= get (∅ : gmap string Q) "vix" 18 ∧
  (∃ r, volatility_surface_analysis 2650 0.0427 None = Return r ∧
        term_shape r = BACKWARDATION) ∧
  (∃ r, comprehensive_volatility ∅ = Return r ∧ term_shape r = BACKWARDATION).
Proof.
  assert (H1 : 0.001 <= get default_vol_data "ATM" 0.18) by (vm_compute; discriminate).
  assert (H2 : 0.1 <= get (∅ : gmap string Q) "vix" 18) by (vm_compute; discriminate).
  destruct term_shape_backwardation as [Ha Hb].
  destruct (Ha 2650 0.0427 None H1) as (r & Hr & _ & _ & Hs).
  destruct (Hb ∅ H2) as (r' & Hr' & Hs' & _).
  split; [exact H1 |]. split; [exact H2 |].
  split; [exists r | exists r']; split; assumption.
Defined.

(** Below that bound the other branch is taken: at an ATM volatility of 0.0004
    both points round to 0.0004. *)
Lemma term_shape_contango_small_vol :
  ∃ r, volatility_surface_analysis 2650 0.0427 (Some {["ATM" := 0.0004]}) = Return r ∧
       term_shape r = CONTANGO.
Proof. eexists. split; [vm_compute; reflexivity | reflexivity]. Qed.

(** ** Option pricing at expiry *)

(** C2, as the code has it: with maturity_days = 0 the function has no branch
    of its own and always returns.  The intrinsic value is max(0, S-K) for a
    call and max(0, K-S) for a put, computed apart from the price.  When the
    library raises inside the [try] block, the price and the five Greeks are 0
    and the time value is minus the intrinsic value; when it answers, they are
    its figures (theta per day, vega and rho per point), rounded. *)
Theorem black_scholes_at_expiry (ql : QuantLib) (self : QuantLibAnalyzer.t)
    (spot strike rate volatility : Q) (option_type : string) :
  let r := black_scholes_analysis ql self spot strike rate volatility 0 option_type in
  let o := {| ql_today := today self; ql_maturity := today self;
              ql_spot := spot; ql_strike := strike; ql_rate := rate;
              ql_volatility := volatility; ql_is_call := is_call option_type |} in
  let intrinsic :=
    if is_call option_type then Py.max 0 (spot - strike) else Py.max 0 (strike - spot) in
  opt_intrinsic_value r = round intrinsic 4 ∧
  (ql o = None →
   opt_price r == 0 ∧ opt_delta r == 0 ∧ opt_gamma r == 0 ∧ opt_theta r == 0 ∧
   opt_vega r == 0 ∧ opt_rho r == 0 ∧ opt_time_value r = round (0 - intrinsic) 4) ∧
  (∀ f, ql o = Some f →
   opt_price r = round (ql_NPV f) 4 ∧ opt_delta r = round (ql_delta f) 4 ∧
   opt_gamma r = round (ql_gamma f) 6 ∧ opt_theta r = round (ql_theta f / 365) 4 ∧
   opt_vega r = round (ql_vega f / 100) 4 ∧ opt_rho r = round (ql_rho f / 100) 4 ∧
   opt_time_value r = round (ql_NPV f - intrinsic) 4).
Proof.
  intros r o intrinsic. subst r. unfold black_scholes_analysis.
  rewrite Z.add_0_r. fold o. unfold greeks.
  split; [| split].
  - destruct (ql o), (is_call option_type); reflexivity.
  - intros ->. subst intrinsic. destruct (is_call option_type);
      cbn [opt_price opt_delta opt_gamma opt_theta opt_vega opt_rho opt_time_value];
      repeat split; reflexivity.
  - intros f ->. subst intrinsic. destruct (is_call option_type);
      cbn [opt_price opt_delta opt_gamma opt_theta opt_vega opt_rho opt_time_value];
      repeat split; reflexivity.
Qed.

(** C2 on an in-the-money call, 110 against a strike of 100, when the library
    raises. *)
Lemma black_scholes_at_expiry_witness :
  let ql : QuantLib := λ _, None in
  let r := black_scholes_analysis ql {| today := 45000 |} 110 100 0.0427 0.18 0 "call" in
  opt_intrinsic_value r == 10 ∧ opt_price r == 0 ∧ opt_delta r == 0 ∧
  opt_time_value r == -10.
Proof.
  intros ql r.
  destruct (black_scholes_at_expiry ql {| today := 45000 |} 110 100 0.0427 0.18 "call")
    as (Hi & Hnone & _).
  destruct (Hnone eq_refl) as (Hp & Hd & _ & _ & _ & _ & Ht).
  fold r in Hi, Hp, Hd, Ht.
  split; [rewrite Hi; vm_compute; reflexivity |].
  split; [exact Hp |]. split; [exact Hd |].
  rewrite Ht. vm_compute. reflexivity.
Defined.

(** C2 as stated fails on the code: at maturity_days = 0, when the library
    raises or prices the expired option at 0, an in-the-money call worth 10 at
    exercise is reported with price 0 and time value -10. *)
Lemma black_scholes_expiry_counterexample :
  let raising : QuantLib := λ _, None in
  let expired : QuantLib :=
    λ o, if (ql_maturity o <=? ql_today o)%Z
         then Some {| ql_NPV := 0; ql_delta := 0; ql_gamma := 0; ql_theta := 0;
                      ql_vega := 0; ql_rho := 0 |}
         else None in
  let r1 := black_scholes_analysis raising {| today := 45000 |}
              110 100 0.0427 0.18 0 "call" in
  let r2 := black_scholes_analysis expired {| today := 45000 |}
              110 100 0.0427 0.18 0 "call" in
  (opt_moneyness r1 = ITM ∧ opt_intrinsic_value r1 == 10 ∧ opt_price r1 == 0 ∧
   ¬ opt_price r1 == opt_intrinsic_value r1 ∧ opt_time_value r1 == -10) ∧
  (opt_moneyness r2 = ITM ∧ opt_intrinsic_value r2 == 10 ∧ opt_price r2 == 0 ∧
   ¬ opt_price r2 == opt_intrinsic_value r2 ∧ opt_time_value r2 == -10).
Proof.
  vm_compute; repeat split; discriminate.
Qed.

(** ** Rounding and elementary functions over the reals *)

#[local] Open Scope R_scope.

Lemma floorR_spec (x : R) : IZR (floorR x) <= x < IZR (floorR x) + 1.
Proof.
  unfold floorR. rewrite minus_IZR. destruct (archimed x) as [H1 H2]. lra.
Qed.

Lemma round_half_even_R_near (x : R) (z : Z) :
  IZR z - 1 / 2 < x < IZR z + 1 / 2 → round_half_even_R x = z.
Proof.
  intros [Hlo Hhi]. unfold round_half_even_R.
  pose proof (floorR_spec x) as [Hf1 Hf2].
  assert (Hle : (floorR x <= z)%Z).
  { apply Z.lt_succ_r. apply lt_IZR. rewrite succ_IZR. lra. }
  assert (Hge : (z - 1 <= floorR x)%Z).
  { apply Z.lt_succ_r. apply lt_IZR. rewrite succ_IZR, minus_IZR. lra. }
  assert (Hcases : floorR x = z ∨ floorR x = (z - 1)%Z) by lia.
  destruct Hcases as [E | E]; rewrite E in *.
  - destruct (Rlt_dec (x - IZR z) (1 / 2)); [reflexivity | exfalso; lra].
  - rewrite minus_IZR in *.
    destruct (Rlt_dec (x - (IZR z - 1)) (1 / 2)); [exfalso; lra |].
    destruct (Rlt_dec (1 / 2) (x - (IZR z - 1))); [lia | exfalso; lra].
Qed.

Lemma round_R_near (x : R) (ndigits : nat) (z : Z) :
  IZR z - 1 / 2 < x * 10 ^ ndigits < IZR z + 1 / 2 →
  round_R x ndigits = IZR z / 10 ^ ndigits.
Proof.
  intros H. unfold round_R. now rewrite (round_half_even_R_near _ z H).
Qed.

(** [round] moves a value by at most half a unit of the last digit. *)
Lemma round_half_even_R_bounds (x : R) :
  x - 1 / 2 <= IZR (round_half_even_R x) <= x + 1 / 2.
Proof.
  unfold round_half_even_R. pose proof (floorR_spec x) as [Hf1 Hf2].
  destruct (Rlt_dec (x - IZR (floorR x)) (1 / 2)); [lra |].
  destruct (Rlt_dec (1 / 2) (x - IZR (floorR x))); [rewrite plus_IZR; lra |].
  destruct (Z.even (floorR x)); rewrite ?plus_IZR; lra.
Qed.

Lemma exp_mult_nat (y : R) (n : nat) : exp (INR n * y) = exp y ^ n.
Proof.
  induction n as [| n IH].
  - cbn. rewrite Rmult_0_l. apply exp_0.
  - rewrite S_INR, Rmult_plus_distr_r, Rmult_1_l, exp_plus, IH. cbn. ring.
Qed.

(** (1 + x/n)^n is a lower bound of exp x. *)
Lemma exp_lower (x : R) (n : nat) :
  (0 < n)%nat → 0 <= 1 + x / INR n → (1 + x / INR n) ^ n <= exp x.
Proof.
  intros Hn Hpos.
  assert (HINR : 0 < INR n) by (apply lt_0_INR; lia).
  replace (exp x) with (exp (x / INR n) ^ n).
  - apply pow_incr. split; [exact Hpos | apply exp_ineq1_le].
  - rewrite <- exp_mult_nat. f_equal. field. lra.
Qed.

Lemma sqrt_gt (a x : R) : 0 <= a → a * a < x → a < sqrt x.
Proof.
  intros Ha H. rewrite <- (sqrt_square a Ha). apply sqrt_lt_1; nra.
Qed.

Lemma sqrt_lt (b x : R) : 0 <= x → 0 <= b → x < b * b → sqrt x < b.
Proof.
  intros Hx Hb H. rewrite <- (sqrt_square b Hb). apply sqrt_lt_1; nra.
Qed.

Lemma ratio_lt (a b c d : Z) :
  (0 < b)%Z → (0 < d)%Z → (a * d < c * b)%Z → IZR a / IZR b < IZR c / IZR d.
Proof.
  intros Hb Hd H.
  apply IZR_lt in Hb, Hd, H. rewrite !mult_IZR in H.
  apply Rmult_lt_reg_r with (r := IZR b * IZR d); [nra |].
  field_simplify; [| lra | lra]. nra.
Qed.

Lemma Rdiv_nonneg (a b : R) : 0 <= a → 0 < b → 0 <= a / b.
Proof.
  intros Ha Hb. unfold Rdiv. apply Rmult_le_pos; [exact Ha |].
  left. now apply Rinv_0_lt_compat.
Qed.

Lemma sq_down_nonneg (scale q : Z) : (0 < scale)%Z → (0 <= sq_down scale q)%Z.
Proof. intros Hs. unfold sq_down. apply Z.div_pos; nia. Qed.

Lemma sq_down_lower (scale q : Z) (x : R) :
  (0 < scale)%Z → (0 <= q)%Z → IZR q / IZR scale <= x →
  IZR (sq_down scale q) / IZR scale <= x ^ 2.
Proof.
  intros Hs Hq Hx.
  assert (HS : 0 < IZR scale) by now apply IZR_lt.
  assert (Hq' : 0 <= IZR q) by now apply IZR_le.
  assert (Hfloor : IZR (sq_down scale q) * IZR scale <= IZR q * IZR q).
  { rewrite <- !mult_IZR. apply IZR_le. unfold sq_down.
    rewrite Z.mul_comm. apply Z.mul_div_le. exact Hs. }
  assert (H0 : 0 <= IZR q / IZR scale) by (apply Rdiv_nonneg; lra).
  assert (Hsq : (IZR q / IZR scale) ^ 2 <= x ^ 2) by (apply pow_incr; lra).
  apply Rle_trans with (r2 := (IZR q / IZR scale) ^ 2); [| exact Hsq].
  apply Rmult_le_reg_r with (r := IZR scale * IZR scale); [nra |].
  replace ((IZR q / IZR scale) ^ 2 * (IZR scale * IZR scale)) with (IZR q * IZR q)
    by (field; lra).
  replace (IZR (sq_down scale q) / IZR scale * (IZR scale * IZR scale))
    with (IZR (sq_down scale q) * IZR scale) by (field; lra).
  exact Hfloor.
Qed.

(** [n] squarings rounded down bound the 2^n-th power from below. *)
Lemma sq_chain_lower (scale : Z) (n : nat) (q : Z) (x : R) :
  (0 < scale)%Z → (0 <= q)%Z → IZR q / IZR scale <= x →
  IZR (sq_chain scale n q) / IZR scale <= x ^ (2 ^ n).
Proof.
  intros Hs. revert q x. induction n as [| n IH]; intros q x Hq Hx.
  - cbn [sq_chain Nat.pow]. lra.
  - cbn [sq_chain].
    replace (2 ^ S n)%nat with (2 * 2 ^ n)%nat by (cbn; lia).
    rewrite pow_mult. apply IH.
    + now apply sq_down_nonneg.
    + now apply sq_down_lower.
Qed.

Lemma nat_1024 : (2 ^ 10)%nat = 1024%nat.
Proof. reflexivity. Qed.

Lemma INR_1024 : INR 1024 = 1024.
Proof. rewrite INR_IZR_INZ. reflexivity. Qed.

Lemma exp_gt_fixed (x : R) (q c d : Z) :
  (0 <= q)%Z → (0 < d)%Z →
  IZR q / IZR fixed_scale <= 1 + x / 1024 →
  (c * fixed_scale < sq_chain fixed_scale 10 q * d)%Z →
  IZR c / IZR d < exp x.
Proof.
  intros Hq Hd Hx H.
  assert (Hs : (0 < fixed_scale)%Z) by reflexivity.
  assert (HS : 0 < IZR fixed_scale) by now apply IZR_lt.
  assert (Hpos : 0 <= 1 + x / INR 1024).
  { rewrite INR_1024. apply Rle_trans with (r2 := IZR q / IZR fixed_scale); [| exact Hx].
    apply Rdiv_nonneg; [now apply IZR_le | exact HS]. }
  pose proof (exp_lower x 1024 ltac:(lia) Hpos) as Hexp.
  rewrite INR_1024 in Hexp.
  pose proof (sq_chain_lower fixed_scale 10 q _ Hs Hq Hx) as Hchain.
  rewrite nat_1024 in Hchain.
  eapply Rlt_le_trans; [| exact Hexp].
  eapply Rlt_le_trans; [| exact Hchain].
  apply ratio_lt; [exact Hd | exact Hs | exact H].
Qed.

Lemma exp_lt_fixed (x : R) (q c d : Z) :
  (0 <= q)%Z → (0 < c)%Z → (0 < d)%Z →
  IZR q / IZR fixed_scale <= 1 - x / 1024 →
  (fixed_scale * d < c * sq_chain fixed_scale 10 q)%Z →
  exp x < IZR c / IZR d.
Proof.
  intros Hq Hc Hd Hx H.
  assert (Hs : (0 < fixed_scale)%Z) by reflexivity.
  assert (HS : 0 < IZR fixed_scale) by now apply IZR_lt.
  assert (Hlow : IZR d / IZR c < exp (- x)).
  { apply (exp_gt_fixed _ q); [exact Hq | exact Hc | | lia].
    replace (1 + - x / 1024) with (1 - x / 1024) by (unfold Rdiv; ring). exact Hx. }
  rewrite exp_Ropp in Hlow.
  assert (HC : 0 < IZR c) by now apply IZR_lt.
  assert (HD : 0 < IZR d) by now apply IZR_lt.
  pose proof (exp_pos x) as He.
  apply Rmult_lt_reg_r with (r := / exp x * IZR d); [| ].
  { apply Rmult_lt_0_compat; [now apply Rinv_0_lt_compat | exact HD]. }
  replace (exp x * (/ exp x * IZR d)) with (IZR d) by (field; lra).
  replace (IZR c / IZR d * (/ exp x * IZR d)) with (IZR c * / exp x) by (field; lra).
  apply Rmult_lt_reg_r with (r := / IZR c); [now apply Rinv_0_lt_compat |].
  replace (IZR c * / exp x * / IZR c) with (/ exp x) by (field; lra).
  exact Hlow.
Qed.

Lemma exp_minus_5_2_bounds : 0.0818 < exp (- (5 / 2)) < 0.0824.
Proof.
  split.
  - replace 0.0818 with (IZR 818 / IZR 10000) by lra.
    apply (exp_gt_fixed _ 997558593750000); [lia | lia | unfold fixed_scale; lra |].
    vm_compute. reflexivity.
  - replace 0.0824 with (IZR 824 / IZR 10000) by lra.
    apply (exp_lt_fixed _ 1002441406250000); [lia | lia | lia | unfold fixed_scale; lra |].
    vm_compute. reflexivity.
Qed.

Lemma ln_2_bounds : 0.69125 < ln 2 < 0.69375.
Proof.
  split; apply exp_lt_inv; rewrite exp_ln by lra.
  - replace 2 with (IZR 2 / IZR 1) by lra.
    apply (exp_lt_fixed _ 999324951171875); [lia | lia | lia | unfold fixed_scale; lra |].
    vm_compute. reflexivity.
  - replace 2 with (IZR 2 / IZR 1) by lra.
    apply (exp_gt_fixed _ 1000677490234375); [lia | lia | unfold fixed_scale; lra |].
    vm_compute. reflexivity.
Qed.

(** ** The Vasicek forecast *)

Lemma div_R_Return (x y : R) : y ≠ 0 → div_R x y = Return (x / y).
Proof.
  intros Hy. unfold div_R. destruct (Req_dec_T y 0); [contradiction | reflexivity].
Qed.

Lemma vasicek_analysis_returns (r0 kappa theta sigma : R) :
  kappa ≠ 0 →
  ∃ v, vasicek_analysis r0 kappa theta sigma = Return v ∧
       expected_path v
       = map (λ t, (t, round_R (Spec.expected_rate r0 kappa theta t * 100) 3))
           [0.25; 0.5; 1; 2; 3; 5; 10] ∧
       rate_volatility v
       = map (λ t, (t, round_R (Spec.rate_stdev kappa sigma t * 100) 3))
           [0.25; 0.5; 1; 2; 3; 5; 10] ∧
       half_life_years v = round_R (ln 2 / kappa) 2.
Proof.
  intros Hk. unfold vasicek_analysis.
  rewrite (mapM_total (vasicek_point r0 kappa theta sigma)
             (λ t, (round_R (Spec.expected_rate r0 kappa theta t * 100) 3,
                    round_R (Spec.rate_stdev kappa sigma t * 100) 3))).
  2:{ intros t. unfold vasicek_point. rewrite div_R_Return by lra. reflexivity. }
  py_step.
  rewrite (mapM_total (vasicek_zcb_entry r0 kappa theta sigma)
             (λ t, let B := (1 - exp (- kappa * IZR t)) / kappa in
                   let price :=
                     exp ((theta - sigma ^ 2 / (2 * kappa ^ 2)) * (B - IZR t)
                          - sigma ^ 2 / (4 * kappa) * B ^ 2)
                     * exp (- B * r0) in
                   (t, (round_R price 4, round_R (- ln price / IZR t * 100) 3)))).
  2:{ intros t. unfold vasicek_zcb_entry, vasicek_zcb_price.
      assert (H2 : 2 * kappa ^ 2 ≠ 0).
      { apply Rmult_integral_contrapositive_currified;
          [lra | apply pow_nonzero; exact Hk]. }
      assert (H4 : 4 * kappa ≠ 0) by lra.
      rewrite (div_R_Return _ _ H2). py_step.
      rewrite (div_R_Return _ _ H4). reflexivity. }
  py_step. eexists. split; [reflexivity |]. repeat split.
Qed.

(** C4: for kappa > 0 the function returns, and reports at each tenor
    0.25, 0.5, 1, 2, 3, 5, 10 the expected rate
    r0 e^(-kappa t) + theta (1 - e^(-kappa t)) and the standard deviation
    sqrt((sigma^2 / 2 kappa)(1 - e^(-2 kappa t))), times 100 and rounded to 3
    decimals, and the half-life ln(2)/kappa rounded to 2 decimals; for
    r0 = 0.0427, kappa = 0.25, theta = 0.035, sigma = 0.01 the expected rate at
    t = 10 is 3.563, within 0.1 of 3.5, and the half-life is 2.77. *)
Theorem vasicek_forecast (r0 kappa theta sigma : R) :
  0 < kappa →
  (∃ v, vasicek_analysis r0 kappa theta sigma = Return v ∧
        expected_path v
        = map (λ t, (t, round_R (Spec.expected_rate r0 kappa theta t * 100) 3))
            [0.25; 0.5; 1; 2; 3; 5; 10] ∧
        rate_volatility v
        = map (λ t, (t, round_R (Spec.rate_stdev kappa sigma t * 100) 3))
            [0.25; 0.5; 1; 2; 3; 5; 10] ∧
        half_life_years v = round_R (ln 2 / kappa) 2) ∧
  (∃ v, vasicek_analysis 0.0427 0.25 0.035 0.01 = Return v ∧
        In (10, 3.563) (expected_path v) ∧ Rabs (3.563 - 3.5) <= 0.1 ∧
        half_life_years v = 2.77).
Proof.
  intros Hk. split; [apply vasicek_analysis_returns; lra |].
  destruct (vasicek_analysis_returns 0.0427 0.25 0.035 0.01) as (v & Hv & He & _ & Hh);
    [lra |].
  exists v. split; [exact Hv |]. split; [| split].
  - rewrite He. cbn [map In]. do 6 right. left. f_equal.
    rewrite (round_R_near _ 3 3563).
    + cbn [Rpow_def.pow]. lra.
    + unfold Spec.expected_rate.
      replace (- (0.25) * 10) with (- (5 / 2)) by lra.
      pose proof exp_minus_5_2_bounds as [H1 H2].
      cbn [Rpow_def.pow]. split; lra.
  - unfold Rabs. destruct (Rcase_abs (3.563 - 3.5)); lra.
  - rewrite Hh. rewrite (round_R_near _ 2 277).
    + cbn [Rpow_def.pow]. lra.
    + pose proof ln_2_bounds as [H1 H2]. cbn [Rpow_def.pow]. split; lra.
Qed.

(** C4 at the parameters [comprehensive_analysis] passes. *)
Lemma vasicek_forecast_witness :
  0 < 0.25 ∧
  ∃ v, vasicek_analysis 0.0427 0.25 0.035 0.01 = Return v ∧
       half_life_years v = round_R (ln 2 / 0.25) 2.
Proof.
  assert (H : 0 < 0.25) by lra.
  split; [exact H |].
  destruct (vasicek_forecast 0.0427 0.25 0.035 0.01 H) as [(v & Hv & _ & _ & Hh) _].
  exists v. split; assumption.
Defined.

(** ** Value at Risk *)

(** C8, as the code has it: daily_vol = (vix/100)/sqrt(252) and
    var_1d = portfolio_value * daily_vol * z; before rounding, the 5-day and
    20-day figures are var_1d times sqrt(5) and sqrt(20), so their ratios to a
    non-zero var_1d are exactly sqrt(5) and sqrt(20); the reported figures are
    these values rounded to whole units. *)
Theorem var_sqrt_time_scaling (portfolio_value vix confidence : Q) :
  let f := var_figures portfolio_value vix confidence in
  let r := _calculate_var portfolio_value vix confidence in
  daily_vol f = Q2R vix / 100 / sqrt 252 ∧
  raw_var_1d f
  = Q2R portfolio_value * daily_vol f * Q2R (z_score_get z_score confidence 1.645%Q) ∧
  raw_var_5d f = raw_var_1d f * sqrt 5 ∧
  raw_var_20d f = raw_var_1d f * sqrt 20 ∧
  (raw_var_1d f ≠ 0 →
   raw_var_5d f / raw_var_1d f = sqrt 5 ∧ raw_var_20d f / raw_var_1d f = sqrt 20) ∧
  var_1d r = round_R (raw_var_1d f) 0 ∧
  var_5d r = round_R (raw_var_5d f) 0 ∧
  var_20d r = round_R (raw_var_20d f) 0.
Proof.
  intros f r. do 4 (split; [reflexivity |]).
  split; [| repeat split].
  intros Hne.
  change (raw_var_5d f) with (raw_var_1d f * sqrt 5).
  change (raw_var_20d f) with (raw_var_1d f * sqrt 20).
  split; field; exact Hne.
Qed.

Lemma sqrt_252_bounds : 15.87450786 < sqrt 252 < 15.87450787.
Proof. split; [apply sqrt_gt | apply sqrt_lt]; lra. Qed.

Lemma sqrt_5_bounds : 2.23606797 < sqrt 5 < 2.23606798.
Proof. split; [apply sqrt_gt | apply sqrt_lt]; lra. Qed.

Lemma var_figures_main :
  let f := var_figures 100000000 18 0.95 in
  1865254.67 < raw_var_1d f < 1865254.68 ∧ 4170836.2 < raw_var_5d f < 4170836.3.
Proof.
  intros f.
  assert (E1 : raw_var_1d f = 29610000 / sqrt 252).
  { cbn [raw_var_1d f var_figures].
    change (z_score_get z_score 0.95%Q 1.645%Q) with 1.645%Q.
    unfold Rdiv. lra. }
  assert (E5 : raw_var_5d f = raw_var_1d f * sqrt 5) by reflexivity.
  pose proof sqrt_252_bounds as [Hs1 Hs2]. pose proof sqrt_5_bounds as [Ht1 Ht2].
  assert (H1 : 1865254.67 < raw_var_1d f < 1865254.68).
  { rewrite E1.
    assert (Hv : 29610000 / sqrt 252 * sqrt 252 = 29610000) by (field; lra).
    set (v := 29610000 / sqrt 252) in *. split; nra. }
  split; [exact H1 |]. rewrite E5. destruct H1 as [H1 H1']. split; nra.
Qed.

(** C8 as stated fails on the code: for the portfolio of 100,000,000 at
    VIX = 18 the reported figures are 1,865,255 and 4,170,836, whose ratio is
    a fraction and not sqrt(5). *)
Lemma var_scaling_counterexample :
  let r := _calculate_var 100000000 18 0.95 in
  var_1d r = 1865255 ∧ var_5d r = 4170836 ∧ var_5d r / var_1d r ≠ sqrt 5.
Proof.
  intros r. pose proof var_figures_main as [[H1 H1'] [H5 H5']]. cbv zeta in *.
  assert (E1 : var_1d r = 1865255).
  { cbn [var_1d r _calculate_var]. rewrite (round_R_near _ 0 1865255).
    - cbn [Rpow_def.pow]. lra.
    - cbn [Rpow_def.pow]. lra. }
  assert (E5 : var_5d r = 4170836).
  { cbn [var_5d r _calculate_var]. rewrite (round_R_near _ 0 4170836).
    - cbn [Rpow_def.pow]. lra.
    - cbn [Rpow_def.pow]. lra. }
  split; [exact E1 |]. split; [exact E5 |].
  rewrite E1, E5. intros H.
  pose proof (sqrt_sqrt 5 ltac:(lra)) as Hsq. rewrite <- H in Hsq. lra.
Qed.

(** C8 at the same portfolio. *)
Lemma var_sqrt_time_scaling_witness :
  let f := var_figures 100000000 18 0.95 in
  raw_var_1d f ≠ 0 ∧
  raw_var_5d f / raw_var_1d f = sqrt 5 ∧ raw_var_20d f / raw_var_1d f = sqrt 20.
Proof.
  intros f.
  assert (H : raw_var_1d f ≠ 0).
  { pose proof var_figures_main as [[H1 _] _]. cbv zeta in H1. fold f in H1. lra. }
  split; [exact H |].
  destruct (var_sqrt_time_scaling 100000000 18 0.95) as (_ & _ & _ & _ & Hr & _).
  exact (Hr H).
Defined.

(** ** The orchestrators *)

Lemma yield_curve_analysis_four (a b c d : Q) :
  ∃ r, yield_curve_analysis [("3M", a); ("2Y", b); ("10Y", c); ("30Y", d)]
       = Return (YieldCurve r).
Proof.
  unfold yield_curve_analysis.
  change (collect [("3M", a); ("2Y", b); ("10Y", c); ("30Y", d)])
    with ([0.25; 2; 10; 30]%Q, [a; b; c; d]).
  cbn [length Nat.ltb Nat.leb].
  change (sorted (zip [0.25; 2; 10; 30]%Q [a; b; c; d]))
    with [(0.25, a); (2, b); (10, c); (30, d)]%Q.
  cbn [map fst snd length Nat.leb head last zip zip_with].
  destruct (classify_slope (d - a)) as [shape text].
  unfold forwards. unfold div.
  change (Qeq_bool (2 - 0.25) 0) with false.
  change (Qeq_bool (10 - 2) 0) with false.
  change (Qeq_bool (30 - 10) 0) with false.
  py_step. eexists. reflexivity.
Qed.

Lemma volatility_surface_analysis_returns (spot rate : Q)
    (vol_data : option (gmap string Q)) :
  ∃ r, volatility_surface_analysis spot rate vol_data = Return r.
Proof.
  unfold volatility_surface_analysis.
  set (d := match vol_data with None => default_vol_data | Some d => d end).
  set (atm_vol := get d "ATM" 0.18%Q).
  pose proof (term_structure_lookup (round (atm_vol * 1.1) 4) (round atm_vol 4)
                (round (atm_vol * 0.95) 4) (round (atm_vol * 0.92) 4)
                (round (atm_vol * 0.90) 4)) as [E1 E2].
  cbv zeta in E1, E2. rewrite E1. py_step. rewrite E2. py_step.
  destruct (gtb _ _); eexists; reflexivity.
Qed.

Lemma bond_analysis_sample_returns (ytm : Q) :
  (0 < 1 + ytm / 2)%Q → ∃ r, bond_analysis 10000 0.04 ytm 10 2 = Return r.
Proof.
  intros Hy.
  assert (Hpos : (0 < Spec.bond_price 10000 (10000 * 0.04 / inject_Z 2)
                        (ytm / inject_Z 2)
                        (Z.to_nat (Qfloor (10 * inject_Z 2))))%Q).
  { apply bond_price_positive; [reflexivity | discriminate | exact Hy]. }
  destruct (bond_figures_returns 10000 0.04 ytm 10 2) as (f & Hf & _ & _ & _ & Hprice).
  - reflexivity.
  - lia.
  - change (inject_Z 2) with 2%Q. lra.
  - apply Qnot_eq_sym, Qlt_not_eq. exact Hpos.
  - unfold bond_analysis. rewrite Hf. py_step.
    rewrite div_Return.
    + py_step. eexists. reflexivity.
    + rewrite Hprice. apply Qnot_eq_sym, Qlt_not_eq. exact Hpos.
Qed.

(** [comprehensive_analysis] returns for every snapshot whose 10-year rate is
    above -200%. *)
Lemma comprehensive_analysis_returns (ql : QuantLib) (self : QuantLibAnalyzer.t)
    (market_data : gmap string Q) :
  (0 < 1 + get market_data "us_10y" 0.0427 / 2)%Q →
  ∃ c, comprehensive_analysis ql self market_data = Return c.
Proof.
  intros Hy. unfold comprehensive_analysis.
  destruct (vasicek_analysis_returns (Q2R (get market_data "us_10y" 0.0427%Q))
              0.25 0.035 0.01) as (v & Hv & _); [lra |].
  rewrite Hv. py_step.
  destruct (yield_curve_analysis_four
              (get market_data "us_3m" 0.045%Q) (get market_data "us_2y" 0.0359%Q)
              (get market_data "us_10y" 0.0427%Q) (get market_data "us_30y" 0.045%Q))
    as (yc & Hyc).
  rewrite Hyc. py_step.
  unfold comprehensive_volatility.
  match goal with
  | |- context [volatility_surface_analysis ?s ?r ?d] =>
      destruct (volatility_surface_analysis_returns s r d) as (vol & Hvol)
  end.
  rewrite Hvol. py_step.
  destruct (bond_analysis_sample_returns _ Hy) as (b & Hb).
  rewrite Hb. py_step. eexists. reflexivity.
Qed.

(** The library reaches a comprehensive result through [option_atm] alone, and
    through its answer for the one option priced. *)
Lemma comprehensive_analysis_library (ql1 ql2 : QuantLib) (self : QuantLibAnalyzer.t)
    (market_data : gmap string Q) :
  library_free <$> comprehensive_analysis ql1 self market_data
  = library_free <$> comprehensive_analysis ql2 self market_data ∧
  (ql1 (sample_option self market_data) = ql2 (sample_option self market_data) →
   comprehensive_analysis ql1 self market_data
   = comprehensive_analysis ql2 self market_data).
Proof.
  unfold comprehensive_analysis.
  destruct (vasicek_analysis _ _ _ _) as [v | e]; [| split; reflexivity]. py_step.
  destruct (yield_curve_analysis _) as [yc | e]; [| split; reflexivity]. py_step.
  destruct (comprehensive_volatility _) as [vol | e]; [| split; reflexivity]. py_step.
  destruct (bond_analysis _ _ _ _ _) as [b | e]; [| split; reflexivity]. py_step.
  split; [reflexivity |].
  intros H. do 2 f_equal.
  unfold black_scholes_analysis, greeks.
  change (is_call "call") with true. unfold sample_option in H. rewrite H. reflexivity.
Qed.

(** C3, as the code has it: two calls of [analyze] on the same object and the
    same inputs, at any two clock readings and in any two states of the pricing
    library, raise alike or both return; each result carries its own clock
    reading in [timestamp]; the two agree on risk_metrics, position_sizing,
    var_analysis and on the vasicek, yield_curve, volatility and bond_10y parts
    of quantlib; they agree on every field but [timestamp] when the library
    gives the same answer for the one option priced.  [comprehensive_analysis]
    does not read the clock: its two results agree outside option_atm in any
    two states of the library, and are equal when the library gives the same
    answer for the option priced. *)
Theorem analyze_equal_up_to_timestamp (ql1 ql2 : QuantLib) (self : RiskManager.t)
    (now1 now2 : string) (move_value vix_value portfolio_value : Q)
    (market_data : option (gmap string Q)) (snap : gmap string Q) :
  let run1 := analyze ql1 self now1 move_value vix_value portfolio_value market_data in
  let run2 := analyze ql2 self now2 move_value vix_value portfolio_value market_data in
  let priced := sample_option (ql_analyzer self) (snapshot vix_value market_data) in
  (timestamp <$> run1 = (λ _, now1) <$> run2 ∧
   timestamp <$> run2 = (λ _, now2) <$> run1 ∧
   state_free <$> run1 = state_free <$> run2 ∧
   (ql1 priced = ql2 priced → body_of <$> run1 = body_of <$> run2)) ∧
  (library_free <$> comprehensive_analysis ql1 (ql_analyzer self) snap
   = library_free <$> comprehensive_analysis ql2 (ql_analyzer self) snap ∧
   (ql1 (sample_option (ql_analyzer self) snap)
    = ql2 (sample_option (ql_analyzer self) snap) →
    comprehensive_analysis ql1 (ql_analyzer self) snap
    = comprehensive_analysis ql2 (ql_analyzer self) snap)).
Proof.
  intros run1 run2 priced.
  split; [| apply comprehensive_analysis_library].
  destruct (comprehensive_analysis_library ql1 ql2 (ql_analyzer self)
              (snapshot vix_value market_data)) as [Hfree Hsame].
  unfold run1, run2, analyze. fold (snapshot vix_value market_data).
  destruct (comprehensive_analysis ql1 _ _) as [c1 | e1];
    destruct (comprehensive_analysis ql2 _ _) as [c2 | e2];
    try discriminate Hfree.
  - injection Hfree as Hv Hy Hvol Hb.
    repeat split.
    + unfold state_free, library_free. cbn. now rewrite Hv, Hy, Hvol, Hb.
    + intros H. specialize (Hsame H). injection Hsame as ->. reflexivity.
  - injection Hfree as ->. repeat split.
Qed.

(** C3 on the module's own example, at two clock readings and with two
    libraries that differ on puts only. *)
Lemma analyze_equal_up_to_timestamp_witness :
  let ql1 : QuantLib := λ _, None in
  let ql2 : QuantLib :=
    λ o, if ql_is_call o then None
         else Some {| ql_NPV := 1; ql_delta := 0; ql_gamma := 0; ql_theta := 0;
                      ql_vega := 0; ql_rho := 0 |} in
  let self := RiskManager.init {| today := 45000 |} in
  let market_data : option (gmap string Q) :=
    Some (list_to_map [("us_10y", 0.0427); ("us_2y", 0.0359); ("kospi", 2650)]%Q) in
  ql1 (sample_option (ql_analyzer self) (snapshot 18 market_data))
  = ql2 (sample_option (ql_analyzer self) (snapshot 18 market_data)) ∧
  ∃ a1 a2,
    analyze ql1 self "2026-01-05T09:00:00" 99 18 100000000 market_data = Return a1 ∧
    analyze ql2 self "2026-01-05T09:00:01" 99 18 100000000 market_data = Return a2 ∧
    body_of a1 = body_of a2 ∧ timestamp a1 ≠ timestamp a2.
Proof.
  intros ql1 ql2 self market_data.
  assert (Hq : ql1 (sample_option (ql_analyzer self) (snapshot 18 market_data))
               = ql2 (sample_option (ql_analyzer self) (snapshot 18 market_data)))
    by reflexivity.
  split; [exact Hq |].
  destruct (analyze_equal_up_to_timestamp ql1 ql2 self "2026-01-05T09:00:00"
              "2026-01-05T09:00:01" 99 18 100000000 market_data ∅)
    as [(Ht1 & Ht2 & _ & Hbody) _].
  specialize (Hbody Hq).
  destruct (analyze ql1 self "2026-01-05T09:00:00" 99 18 100000000 market_data)
    as [a1 | e1] eqn:E1;
    destruct (analyze ql2 self "2026-01-05T09:00:01" 99 18 100000000 market_data)
      as [a2 | e2] eqn:E2; try discriminate Ht1.
  - exists a1, a2. split; [reflexivity |]. split; [reflexivity |].
    assert (Hb : body_of a1 = body_of a2) by (cbn in Hbody; congruence).
    assert (H1 : timestamp a1 = "2026-01-05T09:00:00") by (cbn in Ht1; congruence).
    assert (H2 : timestamp a2 = "2026-01-05T09:00:01") by (cbn in Ht2; congruence).
    split; [exact Hb |]. rewrite H1, H2. discriminate.
  - exfalso. unfold analyze in E1.
    match type of E1 with
    | context [comprehensive_analysis ql1 ?an ?d] =>
        destruct (comprehensive_analysis_returns ql1 an d) as (c & Hc);
          [vm_compute; reflexivity | rewrite Hc in E1]
    end.
    discriminate E1.
Defined.

(** C3 as stated fails on the code: the run of the module's own example at
    two clock readings one second apart returns two different results. *)
Lemma analyze_counterexample :
  let ql : QuantLib := λ _, None in
  let self := RiskManager.init {| today := 45000 |} in
  let market_data : option (gmap string Q) :=
    Some (list_to_map [("us_10y", 0.0427); ("us_2y", 0.0359); ("kospi", 2650)]%Q) in
  ∃ a1 a2,
    analyze ql self "2026-01-05T09:00:00" 99 18 100000000 market_data = Return a1 ∧
    analyze ql self "2026-01-05T09:00:01" 99 18 100000000 market_data = Return a2 ∧
    timestamp a1 = "2026-01-05T09:00:00" ∧ timestamp a2 = "2026-01-05T09:00:01" ∧
    a1 ≠ a2.
Proof.
  intros ql self market_data. unfold analyze.
  match goal with
  | |- context [comprehensive_analysis ql ?an ?d] =>
      destruct (comprehensive_analysis_returns ql an d) as (c & Hc);
        [vm_compute; reflexivity | rewrite Hc]
  end.
  py_step. eexists. eexists.
  split; [reflexivity |]. split; [reflexivity |].
  split; [reflexivity |]. split; [reflexivity |].
  intros H. apply (f_equal timestamp) in H. cbn [timestamp] in H. discriminate H.
Qed.

(** * Further properties of the code *)

#[local] Open Scope Q_scope.

(** ** Rounding: ties to even, monotone, odd *)

Lemma round_half_even_tie (x : Q) :
  x == inject_Z (round_half_even x) + (1 # 2) ∨
  x == inject_Z (round_half_even x) - (1 # 2) →
  Z.even (round_half_even x) = true.
Proof.
  unfold round_half_even.
  pose proof (Qfloor_le x) as Hlo. pose proof (Qlt_floor x) as Hhi.
  rewrite inject_Z_plus in Hhi. change (inject_Z 1) with 1 in Hhi.
  destruct (Qcompare_spec (x - inject_Z (Qfloor x)) (1 # 2)) as [E | E | E].
  - destruct (Z.even (Qfloor x)) eqn:Ev; [intros _; exact Ev |].
    intros _. rewrite Z.even_add, Ev. reflexivity.
  - intros [H | H]; exfalso; lra.
  - rewrite inject_Z_plus. change (inject_Z 1) with 1. intros [H | H]; exfalso; lra.
Qed.

Lemma inject_Z_minus (a b : Z) : inject_Z (a - b) == inject_Z a - inject_Z b.
Proof.
  unfold Z.sub. rewrite inject_Z_plus, inject_Z_opp. reflexivity.
Qed.

Lemma inject_Z_le_inv (a b : Z) : inject_Z a <= inject_Z b → (a <= b)%Z.
Proof. rewrite <- Zle_Qle. tauto. Qed.

Lemma round_half_even_mono (x y : Q) :
  x <= y → (round_half_even x <= round_half_even y)%Z.
Proof.
  intros Hxy.
  pose proof (round_half_even_bounds x) as [Hx1 Hx2].
  pose proof (round_half_even_bounds y) as [Hy1 Hy2].
  destruct (Z_le_gt_dec (round_half_even x) (round_half_even y)) as [H | H];
    [exact H | exfalso].
  assert (Hz : (round_half_even y + 1 <= round_half_even x)%Z) by lia.
  rewrite Zle_Qle, inject_Z_plus in Hz. change (inject_Z 1) with 1 in Hz.
  assert (Ex : x == inject_Z (round_half_even x) - (1 # 2)) by lra.
  assert (Ey : y == inject_Z (round_half_even y) + (1 # 2)) by lra.
  assert (Exy : (round_half_even x = round_half_even y + 1)%Z).
  { apply Z.le_antisymm.
    - apply inject_Z_le_inv. rewrite inject_Z_plus. change (inject_Z 1) with 1. lra.
    - apply inject_Z_le_inv. rewrite inject_Z_plus. change (inject_Z 1) with 1. lra. }
  pose proof (round_half_even_tie x (or_intror Ex)) as Evx.
  pose proof (round_half_even_tie y (or_introl Ey)) as Evy.
  rewrite Exy, Z.even_add, Evy in Evx. discriminate Evx.
Qed.

(** A value within half a unit of an integer, ties only at even integers,
    rounds to that integer. *)
Lemma round_half_even_unique (x : Q) (z : Z) :
  x - (1 # 2) <= inject_Z z → inject_Z z <= x + (1 # 2) →
  (x == inject_Z z + (1 # 2) ∨ x == inject_Z z - (1 # 2) → Z.even z = true) →
  round_half_even x = z.
Proof.
  intros H1 H2 Hev.
  pose proof (round_half_even_bounds x) as [Hx1 Hx2].
  pose proof (round_half_even_tie x) as Htie.
  set (r := round_half_even x) in *.
  assert (Hd : (z - 1 <= r <= z + 1)%Z).
  { split; apply inject_Z_le_inv;
      [rewrite inject_Z_minus | rewrite inject_Z_plus];
      change (inject_Z 1) with 1; lra. }
  destruct (Z.eq_dec r z) as [E | Hne]; [exact E | exfalso].
  assert (Hc : (r = z + 1 ∨ r = z - 1)%Z) by lia.
  destruct Hc as [E | E].
  - assert (Er : inject_Z r == inject_Z z + 1).
    { rewrite E, inject_Z_plus. reflexivity. }
    assert (Ez : Z.even z = true) by (apply Hev; left; lra).
    assert (Err : Z.even r = true) by (apply Htie; right; lra).
    rewrite E, Z.even_add, Ez in Err. discriminate Err.
  - assert (Er : inject_Z r == inject_Z z - 1).
    { rewrite E, inject_Z_minus. reflexivity. }
    assert (Ez : Z.even z = true) by (apply Hev; right; lra).
    assert (Err : Z.even r = true) by (apply Htie; left; lra).
    rewrite E, Z.even_sub, Ez in Err. discriminate Err.
Qed.

Lemma round_half_even_opp (x : Q) : round_half_even (- x) = (- round_half_even x)%Z.
Proof.
  pose proof (round_half_even_bounds x) as [Hx1 Hx2].
  pose proof (round_half_even_tie x) as Htie.
  apply round_half_even_unique.
  - rewrite inject_Z_opp. lra.
  - rewrite inject_Z_opp. lra.
  - rewrite inject_Z_opp, Z.even_opp. intros [H | H]; apply Htie; [right | left]; lra.
Qed.

Lemma scale_pos (ndigits : nat) : 0 < inject_Z (10 ^ Z.of_nat ndigits).
Proof.
  rewrite <- (Zlt_Qlt 0). apply Z.pow_pos_nonneg; lia.
Qed.

Lemma round_mono (x y : Q) (ndigits : nat) : x <= y → round x ndigits <= round y ndigits.
Proof.
  intros Hxy. unfold round.
  pose proof (scale_pos ndigits) as Hs.
  set (s := inject_Z (10 ^ Z.of_nat ndigits)) in *.
  assert (H : (round_half_even (x * s) <= round_half_even (y * s))%Z).
  { apply round_half_even_mono. apply Qmult_le_compat_r; lra. }
  rewrite Zle_Qle in H.
  apply Qmult_le_r with (z := s); [exact Hs |].
  field_simplify; [lra | lra | lra].
Qed.

Lemma round_opp (x : Q) (ndigits : nat) : round (- x) ndigits == - round x ndigits.
Proof.
  unfold round. pose proof (scale_pos ndigits) as Hs.
  set (s := inject_Z (10 ^ Z.of_nat ndigits)) in *.
  rewrite (round_half_even_comp (- x * s) (- (x * s))) by ring.
  rewrite round_half_even_opp, inject_Z_opp. field. lra.
Qed.

Lemma round_comp (x y : Q) (ndigits : nat) : x == y → round x ndigits = round y ndigits.
Proof.
  intros E. unfold round.
  rewrite (round_half_even_comp (x * _) (y * inject_Z (10 ^ Z.of_nat ndigits)));
    [reflexivity | now rewrite E].
Qed.

Lemma round_0 (ndigits : nat) : round 0 ndigits == 0.
Proof.
  unfold round. pose proof (scale_pos ndigits) as Hs.
  rewrite (round_half_even_comp _ (inject_Z 0)) by ring.
  rewrite round_half_even_Z. field. lra.
Qed.

Lemma round_nonneg (x : Q) (ndigits : nat) : 0 <= x → 0 <= round x ndigits.
Proof.
  intros H. rewrite <- (round_0 ndigits). now apply round_mono.
Qed.

(** ** Risk levels and position sizing *)

Ltac q_cases :=
  intros;
  repeat match goal with
         | H : _ ∧ _ |- _ => destruct H
         | H : _ ∨ _ |- _ => destruct H
         end;
  try discriminate; try reflexivity.

Ltac q_close :=
  first [ solve [q_order]
        | solve [exfalso; q_order]
        | solve [split; q_close]
        | solve [left; q_close]
        | solve [right; q_close] ].

(** X1: the level is LOW exactly when MOVE < 80 with VIX < 20 or MOVE < 100
    with VIX < 15, and EXTREME exactly when MOVE >= 100 and VIX >= 20 with one
    of them in its upper two buckets (MOVE >= 120 or VIX >= 25). *)
Theorem risk_level_regions (a : QuantLibAnalyzer.t) (m v : Q) :
  let r := _calculate_risk_metrics (RiskManager.init a) m v in
  (risk_level r = LOW ↔ (m < 80 ∧ v < 20) ∨ (m < 100 ∧ v < 15)) ∧
  (risk_level r = EXTREME ↔ 100 <= m ∧ 20 <= v ∧ (120 <= m ∨ 25 <= v)).
Proof.
  cbn [risk_level _calculate_risk_metrics RiskManager.init move_thresholds vix_thresholds].
  unfold bucket. cbn [low medium high extreme].
  case_ltb; cbn; (split; split); q_cases; q_close.
Qed.

Lemma ltb_inject_Z (s k : Z) : ltb (inject_Z s) (inject_Z k) = (s <? k)%Z.
Proof.
  destruct (ltb_spec (inject_Z s) (inject_Z k)) as [H | H];
    destruct (Z.ltb_spec s k) as [H' | H']; try reflexivity; exfalso.
  - rewrite <- Zlt_Qlt in H. lia.
  - apply H. rewrite <- Zlt_Qlt. exact H'.
Qed.

(** X2: with a non-negative portfolio a higher risk score never gives a larger
    allocation, position limit, stop-loss percentage or stop-loss amount. *)
Theorem position_sizing_monotone (s1 s2 portfolio_value : Q) :
  0 <= portfolio_value → s1 <= s2 →
  let p1 := _calculate_position_sizing s1 portfolio_value in
  let p2 := _calculate_position_sizing s2 portfolio_value in
  adjusted_allocation p2 <= adjusted_allocation p1 ∧
  max_position_value p2 <= max_position_value p1 ∧
  stop_loss_pct p2 <= stop_loss_pct p1 ∧
  stop_loss_value p2 <= stop_loss_value p1.
Proof.
  intros Hpv Hs.
  cbn [adjusted_allocation max_position_value stop_loss_pct stop_loss_value
       _calculate_position_sizing].
  case_ltb; try (exfalso; q_order);
    (split; [apply round_mono; lra |]);
    (split; [apply round_mono; lra |]);
    (split; [lra | apply round_mono; lra]).
Qed.

Lemma position_sizing_monotone_witness :
  0 <= 100000000 ∧ 50 <= 85 ∧
  let p1 := _calculate_position_sizing 50 100000000 in
  let p2 := _calculate_position_sizing 85 100000000 in
  adjusted_allocation p2 <= adjusted_allocation p1 ∧
  max_position_value p2 <= max_position_value p1 ∧
  stop_loss_pct p2 <= stop_loss_pct p1 ∧
  stop_loss_value p2 <= stop_loss_value p1.
Proof.
  assert (H1 : 0 <= 100000000) by q_compute.
  assert (H2 : 50 <= 85) by q_compute.
  split; [exact H1 |]. split; [exact H2 |].
  exact (position_sizing_monotone 50 85 100000000 H1 H2).
Defined.

(** X3: with a non-negative portfolio the stop-loss amount is between 0 and
    the position limit, the position limit is at most 12% of the portfolio
    (rounded), and the allocation is between 4% and 12%. *)
Theorem position_sizing_bounds (risk_score portfolio_value : Q) :
  0 <= portfolio_value →
  let p := _calculate_position_sizing risk_score portfolio_value in
  0 <= stop_loss_value p ∧ stop_loss_value p <= max_position_value p ∧
  max_position_value p <= round (portfolio_value * 0.12) 0 ∧
  0.04 <= adjusted_allocation p ∧ adjusted_allocation p <= 0.12.
Proof.
  intros Hpv.
  cbn [adjusted_allocation max_position_value stop_loss_value
       _calculate_position_sizing].
  case_ltb;
    (split; [apply round_nonneg; lra |]);
    (split; [apply round_mono; lra |]);
    (split; [apply round_mono; lra |]);
    split; vm_compute; discriminate.
Qed.

Lemma position_sizing_bounds_witness :
  0 <= 100000000 ∧
  let p := _calculate_position_sizing 50 100000000 in
  0 <= stop_loss_value p ∧ stop_loss_value p <= max_position_value p ∧
  max_position_value p <= round (100000000 * 0.12) 0 ∧
  0.04 <= adjusted_allocation p ∧ adjusted_allocation p <= 0.12.
Proof.
  assert (H1 : 0 <= 100000000) by q_compute.
  split; [exact H1 |].
  exact (position_sizing_bounds 50 100000000 H1).
Defined.

(** ** [analyze] and the snapshot it is given *)

(** X4: [analyze] reads only the keys us_10y, us_2y, us_30y and kospi of
    [market_data]: two snapshots that agree on them give the same result,
    whatever they hold under "vix", "us_3m" or any other key, and no snapshot
    at all is the same as an empty one. *)
Theorem analyze_reads_four_keys (ql : QuantLib) (self : RiskManager.t) (now : string)
    (move_value vix_value portfolio_value : Q) (d1 d2 : gmap string Q) :
  (∀ k, In k ["us_10y"; "us_2y"; "us_30y"; "kospi"] → d1 !! k = d2 !! k) →
  analyze ql self now move_value vix_value portfolio_value (Some d1)
  = analyze ql self now move_value vix_value portfolio_value (Some d2) ∧
  analyze ql self now move_value vix_value portfolio_value None
  = analyze ql self now move_value vix_value portfolio_value (Some ∅).
Proof.
  intros H. split; [| reflexivity].
  unfold analyze, get.
  rewrite (H "us_10y"), (H "us_2y"), (H "us_30y"), (H "kospi");
    [reflexivity | cbn; tauto ..].
Qed.

Lemma analyze_reads_four_keys_witness :
  let d1 : gmap string Q := {[ "us_10y" := 0.04 ]} in
  let d2 : gmap string Q := <[ "vix" := 99 ]> (<[ "us_3m" := 0.01 ]> {[ "us_10y" := 0.04 ]}) in
  (∀ k, In k ["us_10y"; "us_2y"; "us_30y"; "kospi"] → d1 !! k = d2 !! k) ∧
  analyze (λ _, None) (RiskManager.init {| today := 45000 |}) "2026-01-05T09:00:00"
    99 18 100000000 (Some d1)
  = analyze (λ _, None) (RiskManager.init {| today := 45000 |}) "2026-01-05T09:00:00"
      99 18 100000000 (Some d2).
Proof.
  intros d1 d2.
  assert (H : ∀ k, In k ["us_10y"; "us_2y"; "us_30y"; "kospi"] → d1 !! k = d2 !! k).
  { intros k Hk. cbn in Hk.
    destruct Hk as [<- | [<- | [<- | [<- | []]]]]; vm_compute; reflexivity. }
  split; [exact H |].
  exact (proj1 (analyze_reads_four_keys _ _ _ _ _ _ d1 d2 H)).
Defined.

Lemma ql_data_us_10y (a b c v k : Q) :
  get (list_to_map [("us_10y", a); ("us_2y", b); ("us_30y", c); ("vix", v);
                    ("kospi", k)] : gmap string Q) "us_10y" 0.0427 = a.
Proof.
  unfold get. cbn [list_to_map foldr curry fst snd uncurry].
  now rewrite lookup_insert_eq.
Qed.

Lemma ql_data_lookups (a b c v k : Q) :
  let d : gmap string Q :=
    list_to_map [("us_10y", a); ("us_2y", b); ("us_30y", c); ("vix", v); ("kospi", k)] in
  get d "us_3m" 0.045 = 0.045 ∧ get d "us_2y" 0.0359 = b ∧
  get d "us_30y" 0.045 = c ∧ get d "vix" 18 = v ∧ get d "kospi" 2650 = k.
Proof.
  intros d. unfold get, d. cbn [list_to_map foldr curry fst snd uncurry].
  repeat split.
Qed.
#[local] Open Scope Q_scope.

(** ** Sorting the curve *)

Lemma tuple_lt_tenor (p q : Q * Q) :
  tenor_ne p q → tuple_lt p q = ltb (fst p) (fst q).
Proof.
  intros H. unfold tuple_lt. destruct (Qeq_bool (fst p) (fst q)) eqn:E; [| reflexivity].
  apply Qeq_bool_iff in E. contradiction.
Qed.

Lemma insert_sorted_Permutation (p : Q * Q) (l : list (Q * Q)) :
  insert_sorted p l ≡ₚ p :: l.
Proof.
  induction l as [| q l IH]; [reflexivity |].
  cbn [insert_sorted]. destruct (tuple_lt q p); [| reflexivity].
  rewrite IH. apply Permutation_swap.
Qed.

Lemma sorted_Permutation (l : list (Q * Q)) : sorted l ≡ₚ l.
Proof.
  induction l as [| p l IH]; [reflexivity |].
  cbn [sorted fold_right]. fold (sorted l).
  rewrite insert_sorted_Permutation. now rewrite IH.
Qed.

Lemma insert_sorted_StronglySorted (p : Q * Q) (l : list (Q * Q)) :
  StronglySorted tenor_lt l → Forall (tenor_ne p) l →
  StronglySorted tenor_lt (insert_sorted p l).
Proof.
  induction l as [| q l IH]; intros Hs Hne.
  - cbn. constructor; constructor.
  - apply StronglySorted_inv in Hs as [Hs Hq].
    apply Forall_cons in Hne as [Hpq Hne].
    cbn [insert_sorted].
    assert (Hqp : tenor_ne q p) by (unfold tenor_ne in *; intros E; apply Hpq; now symmetry).
    rewrite (tuple_lt_tenor q p Hqp).
    destruct (ltb_spec (fst q) (fst p)) as [Hlt | Hge].
    + constructor; [now apply IH |].
      rewrite insert_sorted_Permutation. constructor; assumption.
    + assert (Hlt : tenor_lt p q).
      { unfold tenor_lt, tenor_ne in *. apply Qnot_lt_le in Hge.
        apply Qle_lteq in Hge as [H | H]; [exact H | contradiction]. }
      constructor; [constructor; assumption |].
      constructor; [exact Hlt |].
      eapply Forall_impl; [exact Hq |].
      intros r Hr. unfold tenor_lt in *. now apply Qlt_trans with (y := fst q).
Qed.

Lemma sorted_StronglySorted (l : list (Q * Q)) :
  ForallOrdPairs tenor_ne l → StronglySorted tenor_lt (sorted l).
Proof.
  induction 1 as [| p l Hp Hl IH]; [constructor |].
  cbn [sorted fold_right]. fold (sorted l).
  apply insert_sorted_StronglySorted; [exact IH |].
  now rewrite sorted_Permutation.
Qed.

(** Two increasing arrangements of the same points are the same list. *)
Lemma StronglySorted_unique (l1 l2 : list (Q * Q)) :
  StronglySorted tenor_lt l1 → StronglySorted tenor_lt l2 → l1 ≡ₚ l2 → l1 = l2.
Proof.
  revert l2. induction l1 as [| p l1 IH]; intros l2 H1 H2 Hp.
  - apply Permutation_nil in Hp. now subst.
  - destruct l2 as [| q l2]; [symmetry in Hp; now apply Permutation_nil_cons in Hp |].
    apply StronglySorted_inv in H1 as [H1 Hp1].
    apply StronglySorted_inv in H2 as [H2 Hq2].
    assert (E : p = q).
    { assert (Hin : p ∈ q :: l2) by (rewrite <- Hp; left).
      assert (Hin' : q ∈ p :: l1) by (rewrite Hp; left).
      apply elem_of_cons in Hin as [E | Hin]; [exact E |].
      apply elem_of_cons in Hin' as [E | Hin']; [now symmetry |].
      rewrite Forall_forall in Hp1, Hq2.
      pose proof (Hp1 q Hin') as Ha. pose proof (Hq2 p Hin) as Hb.
      unfold tenor_lt in *. exfalso. lra. }
    subst q. f_equal. apply IH; [assumption | assumption |].
    now apply Permutation_cons_inv in Hp.
Qed.

(** ** The recognized points *)

Lemma collect_lengths (rates : list (string * Q)) :
  length (fst (collect rates)) = length (snd (collect rates)).
Proof.
  induction rates as [| [k r] rest IH]; [reflexivity |].
  cbn [collect]. destruct (collect rest) as [ts ys]. cbn [fst snd] in IH.
  destruct (tenor_map !! k); cbn [fst snd length]; congruence.
Qed.

Lemma points_cons (k : string) (r : Q) (rest : list (string * Q)) :
  points ((k, r) :: rest)
  = match tenor_map !! k with
    | Some t => (t, r) :: points rest
    | None => points rest
    end.
Proof.
  unfold points. cbn [collect]. destruct (collect rest) as [ts ys].
  destruct (tenor_map !! k); reflexivity.
Qed.

Lemma points_length (rates : list (string * Q)) :
  length (points rates) = length (fst (collect rates)).
Proof.
  unfold points. rewrite length_zip_with, <- collect_lengths. lia.
Qed.

Lemma points_elem (rates : list (string * Q)) (q : Q * Q) :
  q ∈ points rates ↔ ∃ k, (k, snd q) ∈ rates ∧ tenor_map !! k = Some (fst q).
Proof.
  induction rates as [| [k r] rest IH].
  - unfold points. cbn. split; [intros H; inversion H |].
    intros (k & H & _). inversion H.
  - rewrite points_cons. split.
    + destruct (tenor_map !! k) as [t |] eqn:E.
      * intros H. apply elem_of_cons in H as [-> | H].
        -- exists k. split; [left | exact E].
        -- apply IH in H as (k' & H1 & H2). exists k'. split; [now right | exact H2].
      * intros H. apply IH in H as (k' & H1 & H2). exists k'. split; [now right | exact H2].
    + intros (k' & H1 & H2). apply elem_of_cons in H1 as [H1 | H1].
      * injection H1 as Hk Hr. subst k'. rewrite H2.
        destruct q as [t y]. cbn [fst snd] in *. subst r. left.
      * assert (Hq : q ∈ points rest) by (apply IH; eauto).
        destruct (tenor_map !! k); [now right | exact Hq].
Qed.

Lemma points_Permutation (rates1 rates2 : list (string * Q)) :
  rates1 ≡ₚ rates2 → points rates1 ≡ₚ points rates2.
Proof.
  induction 1 as [| [k r] l1 l2 H IH | [k1 r1] [k2 r2] l | l1 l2 l3 H1 IH1 H2 IH2].
  - reflexivity.
  - rewrite !points_cons. destruct (tenor_map !! k); [now constructor | exact IH].
  - rewrite !points_cons.
    destruct (tenor_map !! k1), (tenor_map !! k2); try reflexivity.
    apply Permutation_swap.
  - now transitivity (points l2).
Qed.

(** [tenor_map] sends different labels to different maturities. *)
Lemma tenor_map_injective (k1 k2 : string) (t1 t2 : Q) :
  tenor_map !! k1 = Some t1 → tenor_map !! k2 = Some t2 → t1 == t2 → k1 = k2.
Proof.
  intros H1 H2.
  apply elem_of_list_to_map_2 in H1. apply elem_of_list_to_map_2 in H2.
  repeat (apply elem_of_cons in H1 as [H1 | H1]; [injection H1 as -> -> |]);
    [.. | apply elem_of_nil in H1; contradiction];
    (repeat (apply elem_of_cons in H2 as [H2 | H2]; [injection H2 as -> -> |]);
     [.. | apply elem_of_nil in H2; contradiction]);
    intros E; try reflexivity; exfalso; revert E; vm_compute; discriminate.
Qed.

Lemma points_distinct (rates : list (string * Q)) :
  NoDup rates.*1 → ForallOrdPairs tenor_ne (points rates).
Proof.
  induction rates as [| [k r] rest IH]; intros Hnd.
  - unfold points. cbn. constructor.
  - cbn [fmap list_fmap fst] in Hnd. apply NoDup_cons in Hnd as [Hk Hnd].
    rewrite points_cons. destruct (tenor_map !! k) as [t |] eqn:E; [| now apply IH].
    constructor; [| now apply IH].
    apply Forall_forall. intros q Hq. apply points_elem in Hq as (k' & Hin & Hk').
    unfold tenor_ne. cbn [fst]. intros Eq.
    assert (k = k') by (eapply tenor_map_injective; eauto). subst k'.
    apply Hk. apply list_elem_of_fmap. exists (k, snd q). split; [reflexivity | exact Hin].
Qed.

Lemma zip_fst_snd (l : list (Q * Q)) : zip (map fst l) (map snd l) = l.
Proof.
  induction l as [| [a b] l IH]; [reflexivity |]. cbn. now rewrite IH.
Qed.

(** ** Forward rates and the report *)

Lemma forwards_sorted (l : list (Q * Q)) :
  StronglySorted tenor_lt l →
  ∃ fw, forwards l = Return fw ∧ length fw = pred (length l) ∧
        Forall (λ e, ∃ p q, p ∈ l ∧ q ∈ l ∧ tenor_lt p q ∧
                            fst e = (fst p, fst q) ∧
                            snd e = round ((snd q * fst q - snd p * fst p)
                                           / (fst q - fst p) * 100) 3) fw.
Proof.
  induction l as [| [t1 r1] l IH]; intros Hs.
  - exists []. repeat split. constructor.
  - apply StronglySorted_inv in Hs as [Hs Hall].
    destruct (IH Hs) as (fw & Hfw & Hlen & Hform).
    destruct l as [| [t2 r2] l'].
    + exists []. repeat split. constructor.
    + apply Forall_cons in Hall as [H12 _]. unfold tenor_lt in H12. cbn [fst] in H12.
      cbn [forwards]. cbn [forwards] in Hfw.
      rewrite div_Return by lra. py_step. rewrite Hfw. py_step.
      eexists. split; [reflexivity |]. split; [cbn [length] in *; lia |].
      constructor.
      * exists (t1, r1), (t2, r2). cbn [fst snd].
        repeat split; [left | right; left | exact H12].
      * eapply Forall_impl; [exact Hform |].
        intros e (p & q & Hp & Hq & Hrest). exists p, q.
        split; [now right |]. split; [now right | exact Hrest].
Qed.

Lemma yield_curve_analysis_report (rates : list (string * Q)) :
  NoDup rates.*1 →
  let pts := sorted (points rates) in
  (2 <= length pts)%nat →
  ∃ first lst fw,
    head pts = Some first ∧ last pts = Some lst ∧ forwards pts = Return fw ∧
    yield_curve_analysis rates
    = Return (YieldCurve {|
        curve_shape := fst (classify_slope (snd lst - snd first));
        slope_bps := round ((snd lst - snd first) * 10000) 1;
        interpretation := snd (classify_slope (snd lst - snd first));
        short_rate := round (snd first * 100) 3;
        long_rate := round (snd lst * 100) 3;
        forward_rates := fw;
        data_points := length pts |}).
Proof.
  intros Hnd pts Hlen.
  assert (Hs : StronglySorted tenor_lt pts).
  { apply sorted_StronglySorted. now apply points_distinct. }
  destruct (forwards_sorted pts Hs) as (fw & Hfw & _ & _).
  assert (Hplen : length pts = length (points rates)).
  { apply Permutation_length. apply sorted_Permutation. }
  unfold yield_curve_analysis.
  pose proof (points_length rates) as Hcl. unfold points in pts, Hplen, Hcl.
  destruct (collect rates) as [ts ys]. cbn [fst snd] in *.
  fold pts.
  destruct (Nat.ltb_spec (length ts) 2) as [Hlt | _]; [lia |].
  rewrite length_map.
  destruct (Nat.leb_spec 2 (length pts)) as [_ | Hlt]; [| lia].
  destruct pts as [| first rest] eqn:Epts; [cbn in Hlen; lia |].
  assert (Hlast : ∃ lst, last (first :: rest) = Some lst).
  { destruct (last (first :: rest)) eqn:El; [eauto |].
    apply last_None in El. discriminate El. }
  destruct Hlast as (lst & Hlast).
  exists first, lst, fw. split; [reflexivity |]. split; [exact Hlast |].
  split; [exact Hfw |].
  cbn [map head].
  change (snd first :: map snd rest) with (map snd (first :: rest)).
  change (fst first :: map fst rest) with (map fst (first :: rest)).
  assert (Hl : last (map snd (first :: rest)) = Some (snd lst)).
  { change (map snd (first :: rest)) with (snd <$> first :: rest).
    rewrite fmap_last, Hlast. reflexivity. }
  rewrite Hl, zip_fst_snd, Hfw. py_step.
  destruct (classify_slope (snd lst - snd first)) as [shape text].
  reflexivity.
Qed.

Lemma yield_curve_analysis_short (rates : list (string * Q)) :
  (length (points rates) < 2)%nat →
  yield_curve_analysis rates = Return (YieldCurveError "Insufficient data").
Proof.
  intros H. rewrite points_length in H. unfold yield_curve_analysis.
  destruct (collect rates) as [ts ys]. cbn [fst] in H.
  destruct (Nat.ltb_spec (length ts) 2); [reflexivity | lia].
Qed.

Lemma points_count (rates : list (string * Q)) :
  length (points rates) = length (List.filter (λ kv, Spec.recognized kv.1) rates).
Proof. rewrite points_length. apply collect_length. Qed.

(** The count of points and of forward rates in a report. *)
Lemma yield_curve_report_counts (rates : list (string * Q)) :
  NoDup rates.*1 →
  let n := length (List.filter (λ kv, Spec.recognized kv.1) rates) in
  (2 <= n)%nat →
  ∃ r, yield_curve_analysis rates = Return (YieldCurve r) ∧
       data_points r = n ∧ length (forward_rates r) = (n - 1)%nat.
Proof.
  intros Hnd n Hn.
  assert (Hlen : length (sorted (points rates)) = n).
  { rewrite (Permutation_length (sorted_Permutation _)). apply points_count. }
  destruct (yield_curve_analysis_report rates Hnd) as (first & lst & fw & _ & _ & Hfw & Hr);
    [lia |].
  destruct (forwards_sorted (sorted (points rates))) as (fw' & Hfw' & Hl & _).
  { apply sorted_StronglySorted. now apply points_distinct. }
  rewrite Hfw in Hfw'. injection Hfw' as <-.
  eexists. split; [exact Hr |]. cbn [data_points forward_rates].
  split; [exact Hlen | lia].
Qed.

(** X5: on a dict (labels all different) with at least two recognized labels
    the function does not raise; it returns a report whose data_points is the
    number of recognized labels and which holds one forward rate less. *)
Theorem yield_curve_analysis_returns_report (rates : list (string * Q)) :
  NoDup rates.*1 →
  let n := length (List.filter (λ kv, Spec.recognized kv.1) rates) in
  (2 <= n)%nat →
  ∃ r, yield_curve_analysis rates = Return (YieldCurve r) ∧
       data_points r = n ∧ length (forward_rates r) = (n - 1)%nat.
Proof. exact (yield_curve_report_counts rates). Qed.

Lemma yield_curve_analysis_returns_report_witness :
  let rates := [("10Y", 0.0427); ("3M", 0.045); ("spread", 0.01); ("2Y", 0.0359)] in
  NoDup rates.*1 ∧
  (2 <= length (List.filter (λ kv, Spec.recognized kv.1) rates))%nat ∧
  ∃ r, yield_curve_analysis rates = Return (YieldCurve r) ∧
       data_points r = 3%nat ∧ length (forward_rates r) = 2%nat.
Proof.
  intros rates.
  assert (H1 : NoDup rates.*1) by (refine (bool_decide_unpack _ _); vm_compute; exact I).
  assert (H2 : (2 <= length (List.filter (λ kv, Spec.recognized kv.1) rates))%nat)
    by (vm_compute; lia).
  split; [exact H1 |]. split; [exact H2 |].
  exact (yield_curve_analysis_returns_report rates H1 H2).
Defined.

(** X6: the result does not depend on the order in which the dict holds its
    items. *)
Theorem yield_curve_analysis_order (rates1 rates2 : list (string * Q)) :
  NoDup rates1.*1 → rates1 ≡ₚ rates2 →
  yield_curve_analysis rates1 = yield_curve_analysis rates2.
Proof.
  intros Hnd Hp.
  assert (Hnd2 : NoDup rates2.*1) by now rewrite <- Hp.
  assert (E : sorted (points rates1) = sorted (points rates2)).
  { apply StronglySorted_unique.
    - apply sorted_StronglySorted. now apply points_distinct.
    - apply sorted_StronglySorted. now apply points_distinct.
    - rewrite !sorted_Permutation. now apply points_Permutation. }
  assert (El : length (points rates1) = length (points rates2)).
  { apply Permutation_length. now apply points_Permutation. }
  destruct (Nat.lt_ge_cases (length (points rates1)) 2) as [Hlt | Hge].
  - rewrite !yield_curve_analysis_short; [reflexivity | lia | lia].
  - destruct (yield_curve_analysis_report rates1 Hnd)
      as (f1 & l1 & fw1 & Hh1 & Hl1 & Hf1 & Hr1).
    { rewrite (Permutation_length (sorted_Permutation _)). exact Hge. }
    destruct (yield_curve_analysis_report rates2 Hnd2)
      as (f2 & l2 & fw2 & Hh2 & Hl2 & Hf2 & Hr2).
    { rewrite (Permutation_length (sorted_Permutation _)). lia. }
    rewrite E in Hh1, Hl1, Hf1, Hr1.
    rewrite Hh2 in Hh1. rewrite Hl2 in Hl1. rewrite Hf2 in Hf1.
    injection Hh1 as <-. injection Hl1 as <-. injection Hf1 as <-.
    now rewrite Hr1, Hr2.
Qed.

Lemma yield_curve_analysis_order_witness :
  let rates1 := [("3M", 0.045); ("2Y", 0.0359); ("10Y", 0.0427)] in
  let rates2 := [("10Y", 0.0427); ("3M", 0.045); ("2Y", 0.0359)] in
  NoDup rates1.*1 ∧ rates1 ≡ₚ rates2 ∧
  yield_curve_analysis rates1 = yield_curve_analysis rates2.
Proof.
  intros rates1 rates2.
  assert (H1 : NoDup rates1.*1) by (refine (bool_decide_unpack _ _); vm_compute; exact I).
  assert (H2 : rates1 ≡ₚ rates2).
  { unfold rates1, rates2.
    symmetry. apply (Permutation_cons_append [("3M", 0.045); ("2Y", 0.0359)]). }
  split; [exact H1 |]. split; [exact H2 |].
  exact (yield_curve_analysis_order rates1 rates2 H1 H2).
Defined.

Lemma StronglySorted_last (l : list (Q * Q)) (x : Q * Q) :
  StronglySorted tenor_lt l → last l = Some x →
  ∀ y, y ∈ l → y = x ∨ tenor_lt y x.
Proof.
  induction l as [| p l IH]; intros Hs Hl y Hy; [inversion Hy |].
  apply StronglySorted_inv in Hs as [Hs Hp].
  destruct l as [| q l'].
  - cbn in Hl. injection Hl as <-. apply list_elem_of_singleton in Hy. now left.
  - change (last (p :: q :: l')) with (last (q :: l')) in Hl.
    apply elem_of_cons in Hy as [-> | Hy].
    + right. rewrite Forall_forall in Hp. apply Hp.
      apply last_Some_elem_of in Hl. exact Hl.
    + now apply IH.
Qed.

(** The two ends of the sorted curve. *)
Lemma yield_curve_report_ends (rates : list (string * Q))
    (kmin kmax : string) (ymin ymax tmin tmax : Q) :
  NoDup rates.*1 →
  (kmin, ymin) ∈ rates → tenor_map !! kmin = Some tmin →
  (kmax, ymax) ∈ rates → tenor_map !! kmax = Some tmax →
  kmin ≠ kmax →
  (∀ k y t, (k, y) ∈ rates → tenor_map !! k = Some t → tmin <= t ∧ t <= tmax) →
  ∃ r, yield_curve_analysis rates = Return (YieldCurve r) ∧
       short_rate r = round (ymin * 100) 3 ∧
       long_rate r = round (ymax * 100) 3 ∧
       slope_bps r = round ((ymax - ymin) * 10000) 1 ∧
       curve_shape r = fst (classify_slope (ymax - ymin)).
Proof.
  intros Hnd Hmin Htmin Hmax Htmax Hne Hall.
  set (pts := sorted (points rates)).
  assert (Hs : StronglySorted tenor_lt pts).
  { apply sorted_StronglySorted. now apply points_distinct. }
  assert (Hin : ∀ q, q ∈ pts ↔ q ∈ points rates).
  { intros q. unfold pts. now rewrite sorted_Permutation. }
  assert (Hpmin : (tmin, ymin) ∈ pts) by (apply Hin, points_elem; eauto).
  assert (Hpmax : (tmax, ymax) ∈ pts) by (apply Hin, points_elem; eauto).
  assert (Hbound : ∀ q, q ∈ pts → tmin <= fst q ∧ fst q <= tmax).
  { intros q Hq. apply Hin, points_elem in Hq as (k & Hk1 & Hk2). eauto. }
  assert (Hdiff : ¬ tmin == tmax).
  { intros E. apply Hne. eapply tenor_map_injective; eauto. }
  assert (Hlen : (2 <= length pts)%nat).
  { destruct pts as [| a [| b l]]; [inversion Hpmin | | cbn; lia].
    apply list_elem_of_singleton in Hpmin, Hpmax. subst a.
    injection Hpmax as E _. exfalso. apply Hdiff. now rewrite E. }
  destruct (yield_curve_analysis_report rates Hnd Hlen)
    as (first & lst & fw & Hh & Hl & _ & Hr).
  fold pts in Hh, Hl, Hr.
  assert (Ef : first = (tmin, ymin)).
  { destruct pts as [| a l]; [discriminate Hh |]. injection Hh as ->.
    apply StronglySorted_inv in Hs as [_ Hf].
    apply elem_of_cons in Hpmin as [E | Hpmin]; [now symmetry |].
    rewrite Forall_forall in Hf. pose proof (Hf _ Hpmin) as Hlt.
    unfold tenor_lt in Hlt. cbn [fst] in Hlt.
    destruct (Hbound first) as [Hb _]; [left |]. exfalso. lra. }
  assert (El : lst = (tmax, ymax)).
  { destruct (StronglySorted_last pts lst Hs Hl _ Hpmax) as [E | Hlt]; [now symmetry |].
    unfold tenor_lt in Hlt. cbn [fst] in Hlt.
    destruct (Hbound lst) as [_ Hb]; [now apply last_Some_elem_of |]. exfalso. lra. }
  subst first lst. cbn [snd] in Hr.
  eexists. split; [exact Hr |]. repeat split.
Qed.

(** X7: the short and the long end of the report are the yields at the
    recognized label of smallest and of largest maturity, wherever they stand
    in the dict; the slope and the shape are taken from their difference. *)
Theorem yield_curve_extremes (rates : list (string * Q))
    (kmin kmax : string) (ymin ymax tmin tmax : Q) :
  NoDup rates.*1 →
  (kmin, ymin) ∈ rates → tenor_map !! kmin = Some tmin →
  (kmax, ymax) ∈ rates → tenor_map !! kmax = Some tmax →
  kmin ≠ kmax →
  (∀ k y t, (k, y) ∈ rates → tenor_map !! k = Some t → tmin <= t ∧ t <= tmax) →
  ∃ r, yield_curve_analysis rates = Return (YieldCurve r) ∧
       short_rate r = round (ymin * 100) 3 ∧
       long_rate r = round (ymax * 100) 3 ∧
       slope_bps r = round ((ymax - ymin) * 10000) 1 ∧
       curve_shape r = fst (classify_slope (ymax - ymin)).
Proof. exact (yield_curve_report_ends rates kmin kmax ymin ymax tmin tmax). Qed.

Lemma yield_curve_extremes_witness :
  let rates := [("10Y", 0.0427); ("30Y", 0.045); ("3M", 0.02); ("2Y", 0.0359)] in
  NoDup rates.*1 ∧
  ∃ r, yield_curve_analysis rates = Return (YieldCurve r) ∧
       short_rate r = round (0.02 * 100) 3 ∧
       long_rate r = round (0.045 * 100) 3 ∧
       slope_bps r = round ((0.045 - 0.02) * 10000) 1 ∧
       curve_shape r = fst (classify_slope (0.045 - 0.02)).
Proof.
  intros rates.
  assert (H1 : NoDup rates.*1) by (refine (bool_decide_unpack _ _); vm_compute; exact I).
  split; [exact H1 |].
  apply (yield_curve_extremes rates "3M" "30Y" 0.02 0.045 0.25 30 H1).
  - unfold rates. do 2 right. left.
  - reflexivity.
  - unfold rates. right. left.
  - reflexivity.
  - discriminate.
  - intros k y t Hk Ht. unfold rates in Hk.
    repeat (apply elem_of_cons in Hk as [Hk | Hk];
            [injection Hk as -> ->; vm_compute in Ht; injection Ht as <-;
             split; q_compute |]).
    inversion Hk.
Defined.

(** X8: a flat curve, where every recognized label carries the same yield y
    between -100% and 100%, is reported FLAT with a slope of 0 and with both
    ends at round(100 y, 3); every reported forward rate is less than 0.002 away
    from that figure (the exact forward rate is y itself; the last digit the
    code reports may differ by one). *)
Theorem yield_curve_flat (rates : list (string * Q)) (y : Q) :
  NoDup rates.*1 →
  (2 <= length (List.filter (λ kv, Spec.recognized kv.1) rates))%nat →
  (∀ k y', (k, y') ∈ rates → is_Some (tenor_map !! k) → y' = y) →
  -1 <= y <= 1 →
  ∃ r, yield_curve_analysis rates = Return (YieldCurve r) ∧
       curve_shape r = FLAT ∧ slope_bps r == 0 ∧
       short_rate r = round (y * 100) 3 ∧ long_rate r = round (y * 100) 3 ∧
       Forall (λ e, round (y * 100) 3 - 0.002 < snd e
                    ∧ snd e < round (y * 100) 3 + 0.002)
         (forward_rates r).
Proof.
  intros Hnd Hn Hflat _.
  set (pts := sorted (points rates)).
  assert (Hs : StronglySorted tenor_lt pts).
  { apply sorted_StronglySorted. now apply points_distinct. }
  assert (Hy : ∀ q, q ∈ pts → snd q = y).
  { intros q Hq. unfold pts in Hq. rewrite sorted_Permutation in Hq.
    apply points_elem in Hq as (k & Hk1 & Hk2). eapply Hflat; eauto. }
  assert (Hlen : (2 <= length pts)%nat).
  { unfold pts. rewrite (Permutation_length (sorted_Permutation _)), points_count.
    exact Hn. }
  destruct (yield_curve_analysis_report rates Hnd Hlen)
    as (first & lst & fw & Hh & Hl & Hfw & Hr).
  fold pts in Hh, Hl, Hfw, Hr.
  assert (Ef : snd first = y).
  { apply Hy. destruct pts; [discriminate Hh |]. injection Hh as ->. left. }
  assert (El : snd lst = y) by (apply Hy; now apply last_Some_elem_of).
  rewrite Ef, El in Hr.
  destruct (forwards_sorted pts Hs) as (fw' & Hfw' & _ & Hform).
  rewrite Hfw in Hfw'. injection Hfw' as <-.
  eexists. split; [exact Hr |].
  cbn [curve_shape slope_bps short_rate long_rate forward_rates].
  split; [| split; [| split; [reflexivity | split; [reflexivity |]]]].
  - unfold classify_slope, gtb. case_ltb; try reflexivity; exfalso; q_order.
  - rewrite (round_comp _ 0) by ring. apply round_0.
  - eapply Forall_impl; [exact Hform |].
    intros e (p & q & Hp & Hq & Hlt & _ & He). rewrite He.
    rewrite (Hy p Hp), (Hy q Hq).
    rewrite (round_comp ((y * fst q - y * fst p) / (fst q - fst p) * 100) (y * 100)).
    + split; lra.
    + unfold tenor_lt in Hlt. field. lra.
Qed.

Lemma yield_curve_flat_witness :
  let rates := [("3M", 0.04); ("2Y", 0.04); ("note", 0.07); ("10Y", 0.04)] in
  NoDup rates.*1 ∧
  (2 <= length (List.filter (λ kv, Spec.recognized kv.1) rates))%nat ∧
  -1 <= 0.04 <= 1 ∧
  ∃ r, yield_curve_analysis rates = Return (YieldCurve r) ∧
       curve_shape r = FLAT ∧ slope_bps r == 0 ∧ short_rate r == 4 ∧
       Forall (λ e, round (0.04 * 100) 3 - 0.002 < snd e
                    ∧ snd e < round (0.04 * 100) 3 + 0.002)
         (forward_rates r).
Proof.
  intros rates.
  assert (H1 : NoDup rates.*1) by (refine (bool_decide_unpack _ _); vm_compute; exact I).
  assert (H2 : (2 <= length (List.filter (λ kv, Spec.recognized kv.1) rates))%nat)
    by (vm_compute; lia).
  assert (H3 : -1 <= 0.04 <= 1) by (split; q_compute).
  split; [exact H1 |]. split; [exact H2 |]. split; [exact H3 |].
  destruct (yield_curve_flat rates 0.04 H1 H2) as (r & Hr & Hs & Hb & Hsr & _ & Hf).
  - intros k y' Hk Hsome. unfold rates in Hk.
    repeat (apply elem_of_cons in Hk as [Hk | Hk];
            [injection Hk as -> ->; first [reflexivity | vm_compute in Hsome;
                                           destruct Hsome as [? Hsome]; discriminate Hsome] |]).
    inversion Hk.
  - exact H3.
  - exists r. repeat split; try assumption. rewrite Hsr. vm_compute. reflexivity.
Defined.

(** ** What the orchestrators put together *)

Lemma comprehensive_analysis_fields (ql : QuantLib) (self : QuantLibAnalyzer.t)
    (market_data : gmap string Q) :
  0 < 1 + get market_data "us_10y" 0.0427 / 2 →
  ∃ v yc vol b,
    yield_curve_analysis
      [("3M", get market_data "us_3m" 0.045); ("2Y", get market_data "us_2y" 0.0359);
       ("10Y", get market_data "us_10y" 0.0427);
       ("30Y", get market_data "us_30y" 0.045)] = Return yc ∧
    comprehensive_volatility market_data = Return vol ∧
    bond_analysis 10000 0.04 (get market_data "us_10y" 0.0427) 10 2 = Return b ∧
    comprehensive_analysis ql self market_data
    = Return {| vasicek := v; yield_curve := yc; volatility := vol; bond_10y := b;
                option_atm :=
                  black_scholes_analysis ql self
                    (get market_data "kospi" 2650) (get market_data "kospi" 2650)
                    (get market_data "us_10y" 0.0427)
                    (get market_data "vix" 18 / 100) 30 "call" |}.
Proof.
  intros Hy. unfold comprehensive_analysis.
  destruct (vasicek_analysis_returns (Q2R (get market_data "us_10y" 0.0427))
              0.25%R 0.035%R 0.01%R) as (v & Hv & _); [lra |].
  rewrite Hv. py_step.
  destruct (yield_curve_analysis_four
              (get market_data "us_3m" 0.045) (get market_data "us_2y" 0.0359)
              (get market_data "us_10y" 0.0427) (get market_data "us_30y" 0.045))
    as (yc & Hyc).
  rewrite Hyc. py_step.
  destruct (volatility_surface_analysis_returns
              (get market_data "kospi" 2650) (get market_data "us_10y" 0.0427)
              (Some (list_to_map
                 [("10D_Put", get market_data "vix" 18 / 100 * 1.3);
                  ("25D_Put", get market_data "vix" 18 / 100 * 1.15);
                  ("ATM", get market_data "vix" 18 / 100);
                  ("25D_Call", get market_data "vix" 18 / 100 * 0.95);
                  ("10D_Call", get market_data "vix" 18 / 100 * 0.90)])))
    as (vol & Hvol).
  change (comprehensive_volatility market_data = Return vol) in Hvol.
  rewrite Hvol. py_step.
  destruct (bond_analysis_sample_returns _ Hy) as (b & Hb).
  rewrite Hb. py_step.
  exists v, (YieldCurve yc), vol, b. repeat split; assumption.
Qed.

(** X9: [comprehensive_analysis] returns for every 10-year rate above -200%;
    its curve has the four points 3M, 2Y, 10Y, 30Y, and the slope and shape it
    reports come from the 30-year and the 3-month rate alone. *)
Theorem comprehensive_yield_curve (ql : QuantLib) (self : QuantLibAnalyzer.t)
    (market_data : gmap string Q) :
  0 < 1 + get market_data "us_10y" 0.0427 / 2 →
  let us_3m := get market_data "us_3m" 0.045 in
  let us_30y := get market_data "us_30y" 0.045 in
  ∃ c yc, comprehensive_analysis ql self market_data = Return c ∧
          yield_curve c = YieldCurve yc ∧ data_points yc = 4%nat ∧
          short_rate yc = round (us_3m * 100) 3 ∧
          long_rate yc = round (us_30y * 100) 3 ∧
          slope_bps yc = round ((us_30y - us_3m) * 10000) 1 ∧
          curve_shape yc = fst (classify_slope (us_30y - us_3m)).
Proof.
  intros Hy us_3m us_30y.
  destruct (comprehensive_analysis_fields ql self market_data Hy)
    as (v & yc & vol & b & Hyc & _ & _ & Hc).
  set (rates := [("3M", us_3m); ("2Y", get market_data "us_2y" 0.0359);
                 ("10Y", get market_data "us_10y" 0.0427); ("30Y", us_30y)]).
  assert (Hnd : NoDup rates.*1) by (refine (bool_decide_unpack _ _); vm_compute; exact I).
  destruct (yield_curve_report_ends rates "3M" "30Y" us_3m us_30y 0.25 30 Hnd)
    as (r & Hr & H1 & H2 & H3 & H4).
  - left.
  - reflexivity.
  - do 3 right. left.
  - reflexivity.
  - discriminate.
  - intros k y t Hk Ht. unfold rates in Hk.
    repeat (apply elem_of_cons in Hk as [Hk | Hk];
            [injection Hk as -> _; vm_compute in Ht; injection Ht as <-;
             split; q_compute |]).
    inversion Hk.
  - fold us_3m us_30y rates in Hyc. rewrite Hr in Hyc. injection Hyc as <-.
    destruct (yield_curve_report_counts rates Hnd) as (r' & Hr' & Hd & _).
    { vm_compute. lia. }
    rewrite Hr in Hr'. injection Hr' as <-.
    eexists. exists r. split; [exact Hc |]. cbn [yield_curve].
    repeat split; assumption.
Qed.

Lemma comprehensive_yield_curve_witness :
  let market_data : gmap string Q := {[ "us_10y" := 0.0427 ]} in
  0 < 1 + get market_data "us_10y" 0.0427 / 2 ∧
  ∃ c yc, comprehensive_analysis (λ _, None) {| today := 45000 |} market_data = Return c ∧
          yield_curve c = YieldCurve yc ∧ data_points yc = 4%nat.
Proof.
  intros market_data.
  assert (H : 0 < 1 + get market_data "us_10y" 0.0427 / 2) by (vm_compute; reflexivity).
  split; [exact H |].
  destruct (comprehensive_yield_curve (λ _, None) {| today := 45000 |} market_data H)
    as (c & yc & Hc & Hyc & Hd & _).
  exists c, yc. repeat split; assumption.
Defined.

(** ** Option report *)

Lemma max_0_spec (x : Q) : (0 < x → Py.max 0 x = x) ∧ (x <= 0 → Py.max 0 x = 0).
Proof.
  unfold Py.max. destruct (ltb_spec 0 x); split; intros; try reflexivity; exfalso; q_order.
Qed.

(** X10: whatever the pricing library answers, the report is consistent: the
    option is ATM exactly when spot equals strike, a call is ITM exactly when
    spot > strike and a put when spot < strike, any [option_type] other than
    "call" (in any case) is handled as a put, the intrinsic value is never
    negative and it is 0 unless the option is ITM. *)
Theorem option_moneyness_consistent (ql : QuantLib) (self : QuantLibAnalyzer.t)
    (spot strike rate volatility : Q) (maturity_days : Z) (option_type : string) :
  let r := black_scholes_analysis ql self spot strike rate volatility
             maturity_days option_type in
  (opt_moneyness r = ATM ↔ spot == strike) ∧
  (opt_moneyness r = ITM ↔
   if String.eqb (lower option_type) "call" then strike < spot else spot < strike) ∧
  0 <= opt_intrinsic_value r ∧
  (opt_moneyness r ≠ ITM → opt_intrinsic_value r == 0).
Proof.
  intros r. subst r. unfold black_scholes_analysis.
  destruct (greeks ql _) as [[[[[price delta] gamma] theta] vega] rho].
  change (String.eqb (lower option_type) "call") with (is_call option_type).
  destruct (is_call option_type); cbn [opt_moneyness opt_intrinsic_value]; unfold gtb;
    [ pose proof (max_0_spec (spot - strike)) as [Hm1 Hm2]
    | pose proof (max_0_spec (strike - spot)) as [Hm1 Hm2] ];
    case_ltb;
    (split; [split; q_cases; q_close |]);
    (split; [split; q_cases; q_close |]);
    (split; [apply round_nonneg; unfold Py.max; case_ltb; q_close |]);
    intros Hne; try (exfalso; apply Hne; reflexivity);
    (rewrite Hm2 by q_order); apply round_0.
Qed.

(** X11: the sample option of [comprehensive_analysis] is struck at the spot:
    it is a call reported ATM with intrinsic value 0, so its time value is its
    price and its breakeven is the index level plus the price. *)
Theorem comprehensive_option_at_the_money (ql : QuantLib) (self : QuantLibAnalyzer.t)
    (market_data : gmap string Q) (c : Comprehensive) :
  comprehensive_analysis ql self market_data = Return c →
  let o := option_atm c in
  opt_type o = "call" ∧ opt_strike o = opt_spot o ∧
  opt_spot o = get market_data "kospi" 2650 ∧
  opt_maturity_days o = 30%Z ∧
  opt_moneyness o = ATM ∧ opt_intrinsic_value o == 0 ∧
  opt_time_value o = opt_price o.
Proof.
  unfold comprehensive_analysis.
  destruct (vasicek_analysis _ _ _ _) as [v | e]; [| discriminate]. py_step.
  destruct (yield_curve_analysis _) as [yc | e]; [| discriminate]. py_step.
  destruct (comprehensive_volatility _) as [vol | e]; [| discriminate]. py_step.
  destruct (bond_analysis _ _ _ _ _) as [b | e]; [| discriminate]. py_step.
  intros [= <-]. cbn [option_atm].
  set (spot := get market_data "kospi" 2650).
  unfold black_scholes_analysis.
  destruct (greeks ql _) as [[[[[price delta] gamma] theta] vega] rho].
  change (is_call "call") with true. cbn iota.
  cbn [opt_type opt_strike opt_spot opt_maturity_days opt_moneyness
       opt_intrinsic_value opt_time_value opt_price].
  pose proof (max_0_spec (spot - spot)) as [_ Hm].
  assert (Hmax : Py.max 0 (spot - spot) = 0) by (apply Hm; lra).
  rewrite Hmax. unfold gtb.
  destruct (ltb_spec spot spot) as [Hlt | _]; [exfalso; lra |].
  repeat split; try apply round_0. apply round_comp. ring.
Qed.

Lemma comprehensive_option_at_the_money_witness :
  ∃ c, comprehensive_analysis (λ _, None) {| today := 45000 |} ∅ = Return c ∧
       opt_moneyness (option_atm c) = ATM ∧
       opt_time_value (option_atm c) = opt_price (option_atm c).
Proof.
  destruct (comprehensive_analysis_returns (λ _, None) {| today := 45000 |} ∅)
    as (c & Hc); [vm_compute; reflexivity |].
  exists c. split; [exact Hc |].
  destruct (comprehensive_option_at_the_money _ _ _ c Hc) as (_ & _ & _ & _ & Ha & _ & Ht).
  split; assumption.
Defined.

(** ** [analyze] as a whole *)

Lemma analyze_fields (ql : QuantLib) (self : RiskManager.t) (now : string)
    (move_value vix_value portfolio_value : Q) (market_data : option (gmap string Q)) :
  let d := match market_data with None => ∅ | Some d => d end in
  let ql_data : gmap string Q :=
    list_to_map
      [("us_10y", get d "us_10y" 0.0427); ("us_2y", get d "us_2y" 0.0359);
       ("us_30y", get d "us_30y" 0.045); ("vix", vix_value);
       ("kospi", get d "kospi" 2650)] in
  0 < 1 + get d "us_10y" 0.0427 / 2 →
  ∃ c, comprehensive_analysis ql (ql_analyzer self) ql_data = Return c ∧
       analyze ql self now move_value vix_value portfolio_value market_data
       = Return {|
           timestamp := now;
           risk_metrics := _calculate_risk_metrics self move_value vix_value;
           position_sizing :=
             _calculate_position_sizing
               (inject_Z (risk_score (_calculate_risk_metrics self move_value vix_value)))
               portfolio_value;
           var_analysis := _calculate_var portfolio_value vix_value 0.95;
           quantlib := c |}.
Proof.
  intros d ql_data Hy.
  destruct (comprehensive_analysis_returns ql (ql_analyzer self) ql_data) as (c & Hc).
  { unfold ql_data. now rewrite ql_data_us_10y. }
  exists c. split; [exact Hc |].
  unfold analyze. fold d. fold ql_data. rewrite Hc. reflexivity.
Qed.

(** X12: [analyze] returns whenever the 10-year rate of the snapshot is above
    -200%, and in its result the position sizing goes with the risk level:
    LOW gives the factor 1.2, a 12% allocation and a 5% stop, MEDIUM 1.0, 10%
    and 3%, HIGH 0.7, 7% and 2%, EXTREME 0.4, 4% and 2%. *)
Theorem analyze_sizing_matches_level (ql : QuantLib) (self : RiskManager.t)
    (now : string) (move_value vix_value portfolio_value : Q)
    (market_data : option (gmap string Q)) :
  0 < 1 + get (match market_data with None => ∅ | Some d => d end) "us_10y" 0.0427 / 2 →
  ∃ a, analyze ql self now move_value vix_value portfolio_value market_data = Return a ∧
       risk_metrics a = _calculate_risk_metrics self move_value vix_value ∧
       let p := position_sizing a in
       match risk_level (risk_metrics a) with
       | LOW => risk_adjustment p = 1.2 ∧ adjusted_allocation p == 0.12 ∧
                stop_loss_pct p = 0.05
       | MEDIUM => risk_adjustment p = 1.0 ∧ adjusted_allocation p == 0.1 ∧
                   stop_loss_pct p = 0.03
       | HIGH => risk_adjustment p = 0.7 ∧ adjusted_allocation p == 0.07 ∧
                 stop_loss_pct p = 0.02
       | EXTREME => risk_adjustment p = 0.4 ∧ adjusted_allocation p == 0.04 ∧
                    stop_loss_pct p = 0.02
       end.
Proof.
  intros Hy.
  destruct (analyze_fields ql self now move_value vix_value portfolio_value
              market_data Hy) as (c & _ & Ha).
  eexists. split; [exact Ha |]. cbn [risk_metrics position_sizing].
  split; [reflexivity |].
  cbn [risk_level risk_score _calculate_risk_metrics].
  set (s := (bucket (move_thresholds self) move_value
             + bucket (vix_thresholds self) vix_value)%Z).
  unfold _calculate_position_sizing.
  cbn [risk_adjustment adjusted_allocation stop_loss_pct].
  change 40 with (inject_Z 40). change 60 with (inject_Z 60).
  change 80 with (inject_Z 80). rewrite !ltb_inject_Z.
  destruct (s <? 40)%Z; [repeat split |].
  destruct (s <? 60)%Z; [repeat split |].
  destruct (s <? 80)%Z; repeat split.
Qed.

Lemma analyze_sizing_matches_level_witness :
  let market_data : option (gmap string Q) := Some {[ "us_10y" := 0.0427 ]} in
  0 < 1 + get (match market_data with None => ∅ | Some d => d end) "us_10y" 0.0427 / 2 ∧
  ∃ a, analyze (λ _, None) (RiskManager.init {| today := 45000 |})
         "2026-01-05T09:00:00" 99 18 100000000 market_data = Return a ∧
       risk_level (risk_metrics a) = MEDIUM ∧
       adjusted_allocation (position_sizing a) == 0.1.
Proof.
  intros market_data.
  assert (H : 0 < 1 + get (match market_data with None => ∅ | Some d => d end)
                        "us_10y" 0.0427 / 2) by (vm_compute; reflexivity).
  split; [exact H |].
  destruct (analyze_sizing_matches_level (λ _, None) (RiskManager.init {| today := 45000 |})
              "2026-01-05T09:00:00" 99 18 100000000 market_data H)
    as (a & Ha & Hrm & Hp).
  exists a. split; [exact Ha |].
  assert (Hl : risk_level (risk_metrics a) = MEDIUM) by (rewrite Hrm; reflexivity).
  split; [exact Hl |]. rewrite Hl in Hp. cbv zeta in Hp. tauto.
Defined.

(** X13: the snapshot [analyze] hands to [comprehensive_analysis] has no
    "us_3m" entry, so the short end of the curve is always the built-in 4.5%:
    short_rate is 4.5 whatever [market_data] holds, and the slope is the
    30-year rate minus 0.045. *)
Theorem analyze_short_rate_fixed (ql : QuantLib) (self : RiskManager.t)
    (now : string) (move_value vix_value portfolio_value : Q)
    (market_data : option (gmap string Q)) :
  let d := match market_data with None => ∅ | Some d => d end in
  0 < 1 + get d "us_10y" 0.0427 / 2 →
  ∃ a yc, analyze ql self now move_value vix_value portfolio_value market_data
          = Return a ∧
          yield_curve (quantlib a) = YieldCurve yc ∧
          short_rate yc == 4.5 ∧
          long_rate yc = round (get d "us_30y" 0.045 * 100) 3 ∧
          slope_bps yc = round ((get d "us_30y" 0.045 - 0.045) * 10000) 1.
Proof.
  intros d Hy.
  destruct (analyze_fields ql self now move_value vix_value portfolio_value
              market_data Hy) as (c & Hc & Ha).
  fold d in Hc.
  set (ql_data := list_to_map _ : gmap string Q) in Hc.
  pose proof (ql_data_lookups (get d "us_10y" 0.0427) (get d "us_2y" 0.0359)
                (get d "us_30y" 0.045) vix_value (get d "kospi" 2650))
    as (E3m & _ & E30 & _ & _).
  cbv zeta in E3m, E30. fold ql_data in E3m, E30.
  destruct (comprehensive_analysis_fields ql (ql_analyzer self) ql_data)
    as (v & yc & vol & b & Hyc & _ & _ & Hc').
  { unfold ql_data. now rewrite ql_data_us_10y. }
  rewrite Hc in Hc'. injection Hc' as ->.
  rewrite E3m, E30 in Hyc.
  set (rates := [("3M", 0.045); ("2Y", get ql_data "us_2y" 0.0359);
                 ("10Y", get ql_data "us_10y" 0.0427);
                 ("30Y", get d "us_30y" 0.045)]) in Hyc.
  assert (Hnd : NoDup rates.*1) by (refine (bool_decide_unpack _ _); vm_compute; exact I).
  destruct (yield_curve_report_ends rates "3M" "30Y" 0.045 (get d "us_30y" 0.045) 0.25 30 Hnd)
    as (r & Hr & H1 & H2 & H3 & _).
  - left.
  - reflexivity.
  - do 3 right. left.
  - reflexivity.
  - discriminate.
  - intros k y t Hk Ht. unfold rates in Hk.
    repeat (apply elem_of_cons in Hk as [Hk | Hk];
            [injection Hk as -> _; vm_compute in Ht; injection Ht as <-;
             split; q_compute |]).
    inversion Hk.
  - rewrite Hr in Hyc. injection Hyc as <-.
    eexists. exists r. split; [exact Ha |]. cbn [quantlib yield_curve].
    split; [reflexivity |]. split; [rewrite H1; vm_compute; reflexivity |].
    split; assumption.
Qed.

Lemma analyze_short_rate_fixed_witness :
  let market_data : option (gmap string Q) :=
    Some (<[ "us_3m" := 0.01 ]> {[ "us_10y" := 0.0427 ]}) in
  0 < 1 + get (match market_data with None => ∅ | Some d => d end) "us_10y" 0.0427 / 2 ∧
  ∃ a yc, analyze (λ _, None) (RiskManager.init {| today := 45000 |})
            "2026-01-05T09:00:00" 99 18 100000000 market_data = Return a ∧
          yield_curve (quantlib a) = YieldCurve yc ∧ short_rate yc == 4.5.
Proof.
  intros market_data.
  assert (H : 0 < 1 + get (match market_data with None => ∅ | Some d => d end)
                        "us_10y" 0.0427 / 2) by (vm_compute; reflexivity).
  split; [exact H |].
  destruct (analyze_short_rate_fixed (λ _, None) (RiskManager.init {| today := 45000 |})
              "2026-01-05T09:00:00" 99 18 100000000 market_data H)
    as (a & yc & Ha & Hyc & Hs & _).
  exists a, yc. repeat split; assumption.
Defined.

(** ** Volatility surface *)

Lemma volatility_surface_analysis_fields (spot rate : Q)
    (vol_data : option (gmap string Q)) :
  let d := match vol_data with None => default_vol_data | Some d => d end in
  let atm_vol := get d "ATM" 0.18 in
  let put_vol := get d "25D_Put" atm_vol in
  let call_vol := get d "25D_Call" atm_vol in
  ∃ r, volatility_surface_analysis spot rate vol_data = Return r ∧
       skew r = round ((put_vol - call_vol) * 100) 2 ∧
       risk_reversal r = round ((call_vol - put_vol) * 100) 2 ∧
       butterfly r = round (((put_vol + call_vol) / 2 - atm_vol) * 100) 2 ∧
       atm_volatility r = round (atm_vol * 100) 2 ∧
       volatility_smile r = (λ v, round (v * 100) 2) <$> d ∧
       skew_interpretation r
       = (if gtb (put_vol - call_vol) 0.03 then "강한 하방 리스크 프리미엄 - 시장 불안 신호"
          else if gtb (put_vol - call_vol) 0.01 then "정상적 하방 헤지 수요"
          else if gtb (put_vol - call_vol) (-0.01) then "균형 잡힌 변동성 구조"
          else "상방 기대감 - 콜옵션 수요 증가")%string ∧
       term_structure r
       = (λ v, round (v * 100) 2)
           <$> (list_to_map
                  [("1W", round (atm_vol * 1.1) 4); ("1M", round atm_vol 4);
                   ("3M", round (atm_vol * 0.95) 4); ("6M", round (atm_vol * 0.92) 4);
                   ("1Y", round (atm_vol * 0.90) 4)] : gmap string Q).
Proof.
  intros d atm_vol put_vol call_vol. unfold volatility_surface_analysis.
  fold d. fold atm_vol. fold put_vol. fold call_vol.
  pose proof (term_structure_lookup (round (atm_vol * 1.1) 4) (round atm_vol 4)
                (round (atm_vol * 0.95) 4) (round (atm_vol * 0.92) 4)
                (round (atm_vol * 0.90) 4)) as [E1 E2].
  cbv zeta in E1, E2. rewrite E1. py_step. rewrite E2. py_step.
  destruct (gtb (round (atm_vol * 1.1) 4) (round atm_vol 4));
    eexists; (split; [reflexivity |]); repeat split.
Qed.

(** X14: the reported risk reversal is the reported skew with the opposite
    sign, on every input. *)
Theorem risk_reversal_is_minus_skew (spot rate : Q) (vol_data : option (gmap string Q)) :
  ∃ r, volatility_surface_analysis spot rate vol_data = Return r ∧
       risk_reversal r == - skew r.
Proof.
  destruct (volatility_surface_analysis_fields spot rate vol_data)
    as (r & Hr & Hs & Hrr & _).
  exists r. split; [exact Hr |]. rewrite Hs, Hrr.
  set (p := get _ "25D_Put" _). set (c := get _ "25D_Call" _).
  rewrite <- round_opp.
  rewrite (round_comp ((c - p) * 100) (- ((p - c) * 100))) by ring. reflexivity.
Qed.

(** X15: a smile without the 25-delta points falls back on the ATM volatility
    for both, so skew, risk reversal and butterfly are 0 and the structure is
    read as balanced; without an ATM point the ATM volatility is 18%. *)
Theorem volatility_missing_wings (spot rate : Q) (d : gmap string Q) :
  d !! "25D_Put" = None → d !! "25D_Call" = None →
  ∃ r, volatility_surface_analysis spot rate (Some d) = Return r ∧
       skew r == 0 ∧ risk_reversal r == 0 ∧ butterfly r == 0 ∧
       skew_interpretation r = "균형 잡힌 변동성 구조" ∧
       atm_volatility r = round (default 0.18 (d !! "ATM") * 100) 2.
Proof.
  intros Hp Hc.
  destruct (volatility_surface_analysis_fields spot rate (Some d))
    as (r & Hr & Hs & Hrr & Hb & Ha & _ & Hi & _).
  cbv zeta in *. unfold get in *. rewrite Hp, Hc in *. cbn [default] in *.
  set (atm := default 0.18 (d !! "ATM")) in *.
  exists r. split; [exact Hr |].
  rewrite Hs, Hrr, Hb, Hi, Ha.
  rewrite (round_comp ((atm - atm) * 100) 0) by ring.
  rewrite (round_comp (((atm + atm) / 2 - atm) * 100) 0) by field.
  repeat split; try apply round_0.
  unfold gtb. case_ltb; try reflexivity; exfalso; q_order.
Qed.

Lemma volatility_missing_wings_witness :
  let d : gmap string Q := {[ "10D_Put" := 0.3 ]} in
  d !! "25D_Put" = None ∧ d !! "25D_Call" = None ∧
  ∃ r, volatility_surface_analysis 2650 0.04 (Some d) = Return r ∧
       skew r == 0 ∧ butterfly r == 0 ∧ atm_volatility r == 18.
Proof.
  intros d.
  assert (H1 : d !! "25D_Put" = None) by reflexivity.
  assert (H2 : d !! "25D_Call" = None) by reflexivity.
  split; [exact H1 |]. split; [exact H2 |].
  destruct (volatility_missing_wings 2650 0.04 d H1 H2) as (r & Hr & Hs & _ & Hb & _ & Ha).
  exists r. split; [exact Hr |]. split; [exact Hs |]. split; [exact Hb |].
  rewrite Ha. vm_compute. reflexivity.
Defined.

(** X16: for a non-negative ATM volatility the reported term structure never
    rises with the maturity: 1W >= 1M >= 3M >= 6M >= 1Y. *)
Theorem term_structure_decreasing (spot rate : Q) (vol_data : option (gmap string Q)) :
  0 <= get (match vol_data with None => default_vol_data | Some d => d end) "ATM" 0.18 →
  ∃ r w m q h y,
    volatility_surface_analysis spot rate vol_data = Return r ∧
    term_structure r !! "1W" = Some w ∧ term_structure r !! "1M" = Some m ∧
    term_structure r !! "3M" = Some q ∧ term_structure r !! "6M" = Some h ∧
    term_structure r !! "1Y" = Some y ∧
    y <= h ∧ h <= q ∧ q <= m ∧ m <= w.
Proof.
  intros Hatm.
  destruct (volatility_surface_analysis_fields spot rate vol_data)
    as (r & Hr & _ & _ & _ & _ & _ & _ & Ht).
  cbv zeta in Ht.
  set (atm := get _ "ATM" 0.18) in *.
  exists r. do 5 eexists. split; [exact Hr |].
  rewrite Ht, !lookup_fmap.
  do 5 (split; [reflexivity |]).
  cbn [snd].
  repeat split; apply round_mono;
    (apply Qmult_le_compat_r; [apply round_mono; lra | discriminate]).
Qed.

Lemma term_structure_decreasing_witness :
  0 <= get default_vol_data "ATM" 0.18 ∧
  ∃ r w y,
    volatility_surface_analysis 2650 0.04 None = Return r ∧
    term_structure r !! "1W" = Some w ∧ term_structure r !! "1Y" = Some y ∧ y <= w.
Proof.
  assert (H : 0 <= get default_vol_data "ATM" 0.18) by (vm_compute; discriminate).
  split; [exact H |].
  destruct (term_structure_decreasing 2650 0.04 None H)
    as (r & w & m & q & h & y & Hr & Hw & _ & _ & _ & Hy & H1 & H2 & H3 & H4).
  exists r, w, y. repeat split; try assumption. lra.
Defined.
#[local] Open Scope Q_scope.

(** ** More on bond pricing *)

Lemma fold_right_Qplus_acc (l : list Q) (a : Q) :
  fold_right Qplus a l == a + fold_right Qplus 0 l.
Proof.
  induction l as [| x l IH]; cbn [fold_right]; [ring | rewrite IH; ring].
Qed.

Lemma sigma_S (n : nat) (term : nat → Q) :
  Spec.sigma (S n) term == Spec.sigma n term + term (S n).
Proof.
  unfold Spec.sigma. rewrite seq_S, map_app, fold_right_app. cbn [map fold_right].
  rewrite fold_right_Qplus_acc. cbn [Nat.add]. ring.
Qed.

Lemma Qpower_S (a : Q) (n : nat) :
  ¬ a == 0 → a ^ Z.of_nat (S n) == a ^ Z.of_nat n * a.
Proof.
  intros Ha. rewrite Nat2Z.inj_succ, <- Z.add_1_r, Qpower_plus by exact Ha.
  reflexivity.
Qed.

(** The price is the face value plus the excess coupon over an annuity. *)
Lemma bond_price_gap (face c y : Q) (n : nat) :
  0 < 1 + y →
  Spec.bond_price face c y n - face
  == (c - face * y) * Spec.sigma n (λ t, 1 / (1 + y) ^ Z.of_nat t).
Proof.
  intros Hy. assert (Hy0 : ¬ 1 + y == 0) by lra.
  unfold Spec.bond_price. induction n as [| n IH].
  - unfold Spec.sigma. cbn [seq map fold_right].
    change ((1 + y) ^ Z.of_nat 0) with 1. field.
  - rewrite !sigma_S.
    assert (Hp : ¬ (1 + y) ^ Z.of_nat n == 0) by now apply Qpower_not_0.
    rewrite (Qpower_S _ n Hy0).
    set (P := (1 + y) ^ Z.of_nat n) in *.
    set (s := Spec.sigma n (λ t, c / (1 + y) ^ Z.of_nat t)) in *.
    set (a := Spec.sigma n (λ t, 1 / (1 + y) ^ Z.of_nat t)) in *.
    assert (E : s == (c - face * y) * a + face - face / P) by lra.
    rewrite E. field. split; assumption.
Qed.

Lemma annuity_lower (y : Q) (n : nat) :
  0 < 1 + y → (1 <= n)%nat →
  1 / (1 + y) <= Spec.sigma n (λ t, 1 / (1 + y) ^ Z.of_nat t).
Proof.
  intros Hy Hn.
  assert (Hterm : ∀ t, 0 < 1 / (1 + y) ^ Z.of_nat t).
  { intros t. apply Qlt_shift_div_l; [now apply Qpower_0_lt | lra]. }
  induction n as [| n IH]; [lia |].
  rewrite sigma_S. destruct n as [| n].
  - unfold Spec.sigma at 1. cbn [seq map fold_right].
    change ((1 + y) ^ Z.of_nat 1) with (1 + y). lra.
  - specialize (Hterm (S (S n))).
    assert (1 / (1 + y) <= Spec.sigma (S n) (λ t, 1 / (1 + y) ^ Z.of_nat t))
      by (apply IH; lia).
    lra.
Qed.

(** The distance of the price formula from the face value, for a yield between
    0 and 100% per period and at least one period: at least half the excess
    coupon. *)
Lemma bond_price_gap_lower (face c y : Q) (n : nat) :
  0 <= y → y <= 1 → (1 <= n)%nat →
  (0 <= c - face * y →
   (c - face * y) * (1 # 2) <= Spec.bond_price face c y n - face) ∧
  (c - face * y <= 0 →
   Spec.bond_price face c y n - face <= (c - face * y) * (1 # 2)).
Proof.
  intros Hy0 Hy1 Hn.
  assert (Hy : 0 < 1 + y) by lra.
  pose proof (bond_price_gap face c y n Hy) as Hgap.
  pose proof (annuity_lower y n Hy Hn) as Ha.
  assert (Hhalf : (1 # 2) <= 1 / (1 + y)).
  { apply Qle_shift_div_l; [exact Hy |]. lra. }
  set (a := Spec.sigma n (λ t, 1 / (1 + y) ^ Z.of_nat t)) in *.
  set (e := c - face * y) in *.
  assert (Ha2 : (1 # 2) <= a) by lra.
  split; intros He; rewrite Hgap; nra.
Qed.

(** X17: on an ordinary bond with at least one whole coupon period left, a
    coupon rate above the yield by frequency / 2^29 or more puts the price
    formula above the face value by one part in 2^30 or more, and the bond is
    classified Premium; a coupon rate below the yield by as much puts it below
    by as much, and the bond is classified Discount. *)
Theorem bond_class_by_coupon_and_yield
    (face_value coupon_rate ytm years : Q) (frequency : Z) :
  Regime.ordinary_bond face_value coupon_rate ytm years frequency →
  1 <= years * inject_Z frequency →
  let n := Qfloor (years * inject_Z frequency) in
  let c := face_value * coupon_rate / inject_Z frequency in
  let y := ytm / inject_Z frequency in
  let p := Spec.bond_price face_value c y (Z.to_nat n) in
  ∃ r, bond_analysis face_value coupon_rate ytm years frequency = Return r ∧
       (ytm + Regime.rate_margin frequency <= coupon_rate →
        face_value * (1 + Regime.price_margin) <= p ∧
        premium_discount r = Premium) ∧
       (coupon_rate + Regime.rate_margin frequency <= ytm →
        p <= face_value * (1 - Regime.price_margin) ∧
        premium_discount r = Discount).
Proof.
  intros Hord Hper n c y p.
  destruct (bond_figures_regime face_value coupon_rate ytm years frequency Hord)
    as (Hc & Hy & Hy1 & Hp & f & Hf & _ & _ & _ & Hprice).
  fold n c y p in Hc, Hy, Hy1, Hp, Hprice.
  destruct Hord as (Hface & _ & _ & _ & Hfreq & _).
  pose proof (inject_Z_pos frequency Hfreq) as Hq.
  assert (Hn : (1 <= Z.to_nat n)%nat).
  { assert (1 <= n)%Z.
    { unfold n. rewrite <- (Qfloor_Z 1). now apply Qfloor_resp_le. }
    lia. }
  destruct (bond_price_gap_lower face_value c y (Z.to_nat n) Hy Hy1 Hn) as [Hup Hdown].
  fold p in Hup, Hdown.
  assert (Hexc : c - face_value * y
                 == face_value * ((coupon_rate - ytm) / inject_Z frequency)).
  { unfold c, y. field. lra. }
  assert (Hmargin : Regime.price_margin * 2 == 1 # 536870912) by reflexivity.
  assert (Hsign : (ytm + Regime.rate_margin frequency <= coupon_rate →
                   face_value * (1 + Regime.price_margin) <= p) ∧
                  (coupon_rate + Regime.rate_margin frequency <= ytm →
                   p <= face_value * (1 - Regime.price_margin))).
  { unfold Regime.rate_margin.
    set (d := (coupon_rate - ytm) / inject_Z frequency) in *.
    split; intros H.
    - assert (Hd : (1 # 536870912) <= d).
      { unfold d. apply Qle_shift_div_l; [exact Hq | lra]. }
      assert (He : 0 <= c - face_value * y) by (rewrite Hexc; nra).
      specialize (Hup He). rewrite Hexc in Hup. nra.
    - assert (Hd : d <= - (1 # 536870912)).
      { unfold d. apply Qle_shift_div_r; [exact Hq | lra]. }
      assert (He : c - face_value * y <= 0) by (rewrite Hexc; nra).
      specialize (Hdown He). rewrite Hexc in Hdown. nra. }
  destruct Hsign as [Hs1 Hs2].
  assert (Hm : 0 < Regime.price_margin) by reflexivity.
  unfold bond_analysis. rewrite Hf. py_step.
  rewrite div_Return by (rewrite Hprice; lra).
  py_step. eexists. split; [reflexivity |].
  cbn [premium_discount]. unfold gtb.
  split; intros H; [specialize (Hs1 H) | specialize (Hs2 H)];
    (split; [assumption |]); case_ltb; try reflexivity; exfalso; nra.
Qed.

Lemma bond_class_by_coupon_and_yield_witness :
  Regime.ordinary_bond 1000 0.05 0.04 10 2 ∧ 1 <= 10 * inject_Z 2 ∧
  0.04 + Regime.rate_margin 2 <= 0.05 ∧
  ∃ r, bond_analysis 1000 0.05 0.04 10 2 = Return r ∧ premium_discount r = Premium.
Proof.
  assert (H1 : Regime.ordinary_bond 1000 0.05 0.04 10 2).
  { unfold Regime.ordinary_bond. repeat split; first [q_compute | lia]. }
  assert (H2 : 1 <= 10 * inject_Z 2) by q_compute.
  assert (H3 : 0.04 + Regime.rate_margin 2 <= 0.05) by (vm_compute; discriminate).
  repeat (split; [assumption |]).
  destruct (bond_class_by_coupon_and_yield 1000 0.05 0.04 10 2 H1 H2)
    as (r & Hr & Hp & _).
  exists r. split; [exact Hr |]. exact (proj2 (Hp H3)).
Defined.

Lemma bond_price_0 (face c y : Q) : Spec.bond_price face c y 0 == face.
Proof.
  unfold Spec.bond_price, Spec.sigma. cbn [seq map fold_right].
  change ((1 + y) ^ Z.of_nat 0) with 1. field.
Qed.

(** X18: on an ordinary bond with less than one coupon period left (years x
    frequency below 1 by 2^-40 or more) no cash flow is discounted: the bond is
    priced at its face value and classified as Par, whatever its coupon rate
    and its yield. *)
Theorem bond_within_last_period
    (face_value coupon_rate ytm years : Q) (frequency : Z) :
  Regime.ordinary_bond face_value coupon_rate ytm years frequency →
  years * inject_Z frequency <= 1 - Regime.period_margin →
  ∃ f r, bond_figures face_value coupon_rate ytm years frequency = Return f ∧
         bond_analysis face_value coupon_rate ytm years frequency = Return r ∧
         n_periods f = 0%Z ∧ price f == face_value ∧
         premium_discount r = Par ∧ bond_price r = round face_value 2.
Proof.
  intros Hord Hper.
  destruct (bond_figures_regime face_value coupon_rate ytm years frequency Hord)
    as (_ & _ & _ & _ & f & Hf & Hfn & _ & _ & Hprice).
  destruct Hord as (Hface & _ & _ & _ & Hfreq & _ & _ & _ & Hyears & _).
  pose proof (inject_Z_pos frequency Hfreq) as Hq.
  assert (Hm : 0 < Regime.period_margin) by reflexivity.
  assert (Hn : Qfloor (years * inject_Z frequency) = 0%Z).
  { assert (H0 : (0 <= Qfloor (years * inject_Z frequency))%Z).
    { rewrite <- (Qfloor_Z 0). apply Qfloor_resp_le. change (inject_Z 0) with 0.
      apply Qmult_le_0_compat; lra. }
    assert (H1 : (Qfloor (years * inject_Z frequency) < 1)%Z).
    { apply inject_Z_lt_inv.
      apply Qle_lt_trans with (years * inject_Z frequency); [apply Qfloor_le |].
      change (inject_Z 1) with 1. lra. }
    lia. }
  cbv zeta in Hfn, Hprice. rewrite Hn in Hfn, Hprice.
  assert (Hp : price f == face_value).
  { rewrite Hprice. change (Z.to_nat 0) with 0%nat. apply bond_price_0. }
  exists f. unfold bond_analysis. rewrite Hf. py_step.
  rewrite div_Return by (rewrite Hp; lra).
  py_step. eexists. split; [reflexivity |]. split; [reflexivity |].
  cbn [premium_discount bond_price].
  split; [exact Hfn |]. split; [exact Hp |]. split.
  - case_ltb; first [reflexivity | exfalso; q_order].
  - now apply round_comp.
Qed.

Lemma bond_within_last_period_witness :
  Regime.ordinary_bond 1000 0.08 0.04 0.4 2 ∧
  0.4 * inject_Z 2 <= 1 - Regime.period_margin ∧
  ∃ r, bond_analysis 1000 0.08 0.04 0.4 2 = Return r ∧
       premium_discount r = Par ∧ bond_price r == 1000.
Proof.
  assert (H1 : Regime.ordinary_bond 1000 0.08 0.04 0.4 2).
  { unfold Regime.ordinary_bond. repeat split; first [q_compute | lia]. }
  assert (H2 : 0.4 * inject_Z 2 <= 1 - Regime.period_margin)
    by (vm_compute; discriminate).
  repeat (split; [assumption |]).
  destruct (bond_within_last_period 1000 0.08 0.04 0.4 2 H1 H2)
    as (f & r & _ & Hr & _ & _ & Hpar & Hpr).
  exists r. split; [exact Hr |]. split; [exact Hpar |].
  rewrite Hpr. vm_compute. reflexivity.
Defined.

#[local] Open Scope R_scope.

(** ** Rounding over the reals *)

Lemma round_half_even_R_tie (x : R) :
  x = IZR (round_half_even_R x) + 1 / 2 ∨ x = IZR (round_half_even_R x) - 1 / 2 →
  Z.even (round_half_even_R x) = true.
Proof.
  unfold round_half_even_R. pose proof (floorR_spec x) as [Hf1 Hf2].
  destruct (Rlt_dec (x - IZR (floorR x)) (1 / 2)) as [H1 | H1].
  { intros [E | E]; exfalso; lra. }
  destruct (Rlt_dec (1 / 2) (x - IZR (floorR x))) as [H2 | H2].
  { rewrite plus_IZR. intros [E | E]; exfalso; lra. }
  destruct (Z.even (floorR x)) eqn:Ev; intros _; [exact Ev |].
  rewrite Z.add_1_r, Z.even_succ, <- Z.negb_even, Ev. reflexivity.
Qed.

Lemma round_half_even_R_mono (x y : R) :
  x <= y → (round_half_even_R x <= round_half_even_R y)%Z.
Proof.
  intros Hxy.
  pose proof (round_half_even_R_bounds x) as [Hx1 Hx2].
  pose proof (round_half_even_R_bounds y) as [Hy1 Hy2].
  destruct (Z_le_gt_dec (round_half_even_R x) (round_half_even_R y)) as [H | H];
    [exact H | exfalso].
  assert (Hz : (round_half_even_R y + 1 <= round_half_even_R x)%Z) by lia.
  apply IZR_le in Hz. rewrite plus_IZR in Hz.
  assert (Ex : x = IZR (round_half_even_R x) - 1 / 2) by lra.
  assert (Ey : y = IZR (round_half_even_R y) + 1 / 2) by lra.
  assert (Exy : (round_half_even_R x = round_half_even_R y + 1)%Z).
  { apply eq_IZR. rewrite plus_IZR. lra. }
  pose proof (round_half_even_R_tie x (or_intror Ex)) as Evx.
  pose proof (round_half_even_R_tie y (or_introl Ey)) as Evy.
  rewrite Exy, Z.even_add, Evy in Evx. discriminate Evx.
Qed.

Lemma pow_10_pos (n : nat) : 0 < 10 ^ n.
Proof. apply pow_lt. lra. Qed.

Lemma round_R_mono (x y : R) (ndigits : nat) :
  x <= y → round_R x ndigits <= round_R y ndigits.
Proof.
  intros H. unfold round_R. pose proof (pow_10_pos ndigits) as Hs.
  apply Rmult_le_compat_r; [left; now apply Rinv_0_lt_compat |].
  apply IZR_le, round_half_even_R_mono. now apply Rmult_le_compat_r; [left |].
Qed.

Lemma round_R_0 (ndigits : nat) : round_R 0 ndigits = 0.
Proof.
  rewrite (round_R_near 0 ndigits 0); [unfold Rdiv; lra |].
  rewrite Rmult_0_l. lra.
Qed.

Lemma round_R_nonneg (x : R) (ndigits : nat) : 0 <= x → 0 <= round_R x ndigits.
Proof.
  intros H. rewrite <- (round_R_0 ndigits). now apply round_R_mono.
Qed.

(** ** More on the Vasicek forecast *)

Lemma vasicek_point_zero (r0 theta sigma t : R) :
  vasicek_point r0 0 theta sigma t = Raise ZeroDivisionError.
Proof.
  unfold vasicek_point, div_R.
  destruct (Req_dec_T (2 * 0) 0) as [_ | H]; [reflexivity | exfalso; lra].
Qed.

(** X19: the Vasicek forecast raises ZeroDivisionError exactly when the
    mean-reversion speed kappa is 0. *)
Theorem vasicek_zero_kappa (r0 kappa theta sigma : R) :
  vasicek_analysis r0 kappa theta sigma = Raise ZeroDivisionError ↔ kappa = 0.
Proof.
  split.
  - intros Hraise. destruct (Req_dec_T kappa 0) as [E | Hk]; [exact E | exfalso].
    destruct (vasicek_analysis_returns r0 kappa theta sigma Hk) as (v & Hv & _).
    rewrite Hv in Hraise. discriminate Hraise.
  - intros ->. unfold vasicek_analysis, times. cbn [mapM].
    rewrite !vasicek_point_zero. reflexivity.
Qed.




(** X21: without volatility (sigma = 0) every reported standard deviation is
    0 and the three rate scenarios coincide. *)
Theorem vasicek_zero_sigma (r0 kappa theta : R) :
  kappa ≠ 0 →
  ∃ v, vasicek_analysis r0 kappa theta 0 = Return v ∧
       Forall (λ p, snd p = 0) (rate_volatility v) ∧
       scenario_rate (scenario_up_1std v) = scenario_rate (scenario_base v) ∧
       scenario_rate (scenario_down_1std v) = scenario_rate (scenario_base v).
Proof.
  intros Hk.
  destruct (vasicek_analysis_returns r0 kappa theta 0 Hk) as (v & Hv & _ & Hvol & _).
  exists v. split; [exact Hv |]. split.
  - rewrite Hvol. apply Forall_forall. intros p Hin.
    apply list_elem_of_In, in_map_iff in Hin as (t & <- & _). cbn [snd].
    unfold Spec.rate_stdev.
    replace (0 ^ 2 / (2 * kappa) * (1 - exp (- 2 * kappa * t))) with 0
      by (unfold Rdiv; ring).
    rewrite sqrt_0, Rmult_0_l. apply round_R_0.
  - revert Hv. unfold vasicek_analysis.
    destruct (mapM _ times) as [pts | e]; [| discriminate]. py_step.
    destruct (mapM _ [1; 2; 5; 10]%Z) as [z | e]; [| discriminate]. py_step.
    intros [= <-]. cbn [scenario_up_1std scenario_down_1std scenario_base scenario_rate].
    split; f_equal; ring.
Qed.

Lemma vasicek_zero_sigma_witness :
  0.25 ≠ 0 ∧
  ∃ v, vasicek_analysis 0.0427 0.25 0.035 0 = Return v ∧
       Forall (λ p, snd p = 0) (rate_volatility v).
Proof.
  assert (H : 0.25 ≠ 0) by lra.
  split; [exact H |].
  destruct (vasicek_zero_sigma 0.0427 0.25 0.035 H) as (v & Hv & Hvol & _).
  exists v. split; [exact Hv | exact Hvol].
Defined.

Lemma rate_stdev_mono (kappa sigma t1 t2 : R) :
  0 < kappa → t1 <= t2 →
  Spec.rate_stdev kappa sigma t1 <= Spec.rate_stdev kappa sigma t2.
Proof.
  intros Hk Ht. unfold Spec.rate_stdev. apply sqrt_le_1_alt.
  assert (Ha : 0 <= sigma ^ 2 / (2 * kappa)).
  { apply Rdiv_nonneg; [apply pow2_ge_0 | lra]. }
  assert (He : exp (- 2 * kappa * t2) <= exp (- 2 * kappa * t1)).
  { destruct (Req_dec_T t1 t2) as [-> | Hne]; [lra |].
    left. apply exp_increasing. nra. }
  apply Rmult_le_compat_l; [exact Ha | lra].
Qed.

Lemma StronglySorted_map_mono {A B} (R1 : A → A → Prop) (R2 : B → B → Prop)
    (f : A → B) (l : list A) :
  (∀ x y, R1 x y → R2 (f x) (f y)) →
  StronglySorted R1 l → StronglySorted R2 (map f l).
Proof.
  intros Hf. induction 1 as [| x l Hl IH Hx]; cbn [map]; constructor.
  - exact IH.
  - clear -Hf Hx. induction Hx; cbn [map]; constructor; auto.
Qed.

Lemma times_sorted : StronglySorted Rle [0.25; 0.5; 1; 2; 3; 5; 10].
Proof. repeat (constructor; [| repeat (constructor; try lra)]). constructor. Qed.

(** X22: for kappa > 0 the reported standard deviations are non-negative and
    never shrink as the horizon grows. *)
Theorem vasicek_volatility_grows (r0 kappa theta sigma : R) :
  0 < kappa →
  ∃ v, vasicek_analysis r0 kappa theta sigma = Return v ∧
       Forall (λ p, 0 <= snd p) (rate_volatility v) ∧
       StronglySorted (λ p q, snd p <= snd q) (rate_volatility v).
Proof.
  intros Hk.
  assert (Hne : kappa ≠ 0) by lra.
  destruct (vasicek_analysis_returns r0 kappa theta sigma Hne) as (v & Hv & _ & Hvol & _).
  exists v. split; [exact Hv |]. rewrite Hvol. split.
  - apply Forall_forall. intros p Hin.
    apply list_elem_of_In, in_map_iff in Hin as (t & <- & _). cbn [snd].
    apply round_R_nonneg. apply Rmult_le_pos; [apply sqrt_pos | lra].
  - apply (StronglySorted_map_mono Rle); [| exact times_sorted].
    intros t1 t2 Ht. cbn [snd]. apply round_R_mono.
    apply Rmult_le_compat_r; [lra |]. now apply rate_stdev_mono.
Qed.

Lemma vasicek_volatility_grows_witness :
  0 < 0.25 ∧
  ∃ v, vasicek_analysis 0.0427 0.25 0.035 0.01 = Return v ∧
       StronglySorted (λ p q, snd p <= snd q) (rate_volatility v).
Proof.
  assert (H : 0 < 0.25) by lra.
  split; [exact H |].
  destruct (vasicek_volatility_grows 0.0427 0.25 0.035 0.01 H) as (v & Hv & _ & Hs).
  exists v. split; [exact Hv | exact Hs].
Defined.

(** ** More on Value at Risk *)

Lemma z_score_get_cases (c : Q) :
  let z := z_score_get z_score c 1.645%Q in
  z = 1.28%Q ∨ z = 1.645%Q ∨ z = 2.33%Q.
Proof.
  unfold z_score_get, z_score.
  destruct (Qeq_bool c 0.90); [now left |].
  destruct (Qeq_bool c 0.95); [now right; left |].
  destruct (Qeq_bool c 0.99); [now right; right | now right; left].
Qed.

(** X23: a confidence level other than 0.90, 0.95 and 0.99 is computed with
    the z-score of 0.95, so all the figures are those of the 95% VaR. *)
Theorem var_unlisted_confidence (portfolio_value vix confidence : Q) :
  ¬ (confidence == 0.90)%Q → ¬ (confidence == 0.95)%Q → ¬ (confidence == 0.99)%Q →
  let r := _calculate_var portfolio_value vix confidence in
  let r95 := _calculate_var portfolio_value vix 0.95 in
  daily_volatility r = daily_volatility r95 ∧
  var_1d r = var_1d r95 ∧ var_5d r = var_5d r95 ∧ var_20d r = var_20d r95 ∧
  cvar_1d r = cvar_1d r95 ∧ confidence_level r = confidence.
Proof.
  intros H90 H95 H99 r r95.
  assert (E : z_score_get z_score confidence 1.645%Q = 1.645%Q).
  { unfold z_score_get, z_score.
    destruct (Qeq_bool confidence 0.90) eqn:E1;
      [apply Qeq_bool_iff in E1; contradiction |].
    destruct (Qeq_bool confidence 0.95) eqn:E2;
      [apply Qeq_bool_iff in E2; contradiction |].
    destruct (Qeq_bool confidence 0.99) eqn:E3;
      [apply Qeq_bool_iff in E3; contradiction | reflexivity]. }
  unfold r, r95, _calculate_var, var_figures.
  cbn [daily_volatility var_1d var_5d var_20d cvar_1d confidence_level
       daily_vol raw_var_1d raw_var_5d raw_var_20d raw_cvar_1d].
  rewrite E. repeat split.
Qed.

Lemma var_unlisted_confidence_witness :
  ¬ (0.975 == 0.90)%Q ∧ ¬ (0.975 == 0.95)%Q ∧ ¬ (0.975 == 0.99)%Q ∧
  var_1d (_calculate_var 100000000 18 0.975) = var_1d (_calculate_var 100000000 18 0.95).
Proof.
  assert (H1 : ¬ (0.975 == 0.90)%Q) by (vm_compute; discriminate).
  assert (H2 : ¬ (0.975 == 0.95)%Q) by (vm_compute; discriminate).
  assert (H3 : ¬ (0.975 == 0.99)%Q) by (vm_compute; discriminate).
  repeat (split; [assumption |]).
  destruct (var_unlisted_confidence 100000000 18 0.975 H1 H2 H3) as (_ & H & _).
  exact H.
Defined.

(** X24: for a non-negative portfolio value and VIX the reported figures are
    ordered: 0 <= var_1d <= cvar_1d <= var_5d <= var_20d. *)
Theorem var_horizons_ordered (portfolio_value vix confidence : Q) :
  (0 <= portfolio_value)%Q → (0 <= vix)%Q →
  let r := _calculate_var portfolio_value vix confidence in
  0 <= var_1d r ∧ var_1d r <= cvar_1d r ∧ cvar_1d r <= var_5d r ∧
  var_5d r <= var_20d r.
Proof.
  intros Hp Hv r.
  apply Qle_Rle in Hp, Hv. rewrite RMicromega.Q2R_0 in Hp, Hv.
  pose proof sqrt_252_bounds as [Hs _]. pose proof sqrt_5_bounds as [H5 H5'].
  assert (H20 : sqrt 5 <= sqrt 20) by (apply sqrt_le_1_alt; lra).
  assert (Hz : 0 < Q2R (z_score_get z_score confidence 1.645%Q)).
  { destruct (z_score_get_cases confidence) as [E | [E | E]]; cbv zeta in E;
      rewrite E; lra. }
  assert (Hd : 0 <= Q2R vix / 100 / sqrt 252).
  { apply Rdiv_nonneg; [apply Rdiv_nonneg |]; lra. }
  assert (H1 : 0 <= raw_var_1d (var_figures portfolio_value vix confidence)).
  { cbn [raw_var_1d var_figures].
    apply Rmult_le_pos; [apply Rmult_le_pos |]; [exact Hp | exact Hd | lra]. }
  unfold r, _calculate_var. cbn [var_1d var_5d var_20d cvar_1d].
  set (f := var_figures portfolio_value vix confidence) in *.
  change (raw_var_5d f) with (raw_var_1d f * sqrt 5).
  change (raw_var_20d f) with (raw_var_1d f * sqrt 20).
  change (raw_cvar_1d f) with (raw_var_1d f * 1.25).
  set (x := raw_var_1d f) in *.
  repeat split.
  - now apply round_R_nonneg.
  - apply round_R_mono. nra.
  - apply round_R_mono. nra.
  - apply round_R_mono. nra.
Qed.

Lemma var_horizons_ordered_witness :
  (0 <= 100000000)%Q ∧ (0 <= 18)%Q ∧
  let r := _calculate_var 100000000 18 0.95 in
  0 <= var_1d r ∧ var_1d r <= cvar_1d r ∧ cvar_1d r <= var_5d r ∧
  var_5d r <= var_20d r.
Proof.
  assert (H1 : (0 <= 100000000)%Q) by (vm_compute; discriminate).
  assert (H2 : (0 <= 18)%Q) by (vm_compute; discriminate).
  split; [exact H1 |]. split; [exact H2 |].
  exact (var_horizons_ordered 100000000 18 0.95 H1 H2).
Defined.
#[local] Open Scope Q_scope.

(** ** The decision of [main.py] *)

Import InvestmentAdvisor.

(** The decision and the allocation are read off the score. *)
Lemma decision_by_score (now macro_signal : string) (risk : RiskManager.Analysis)
    (sentiment : string) (claude_analysis : option ClaudeAnalysis) :
  let d := make_decision now macro_signal risk sentiment claude_analysis in
  (decision d, allocation d)
  = if (70 <=? score d)%Z then
      (STRONG_BUY, [("주식", 70); ("채권", 20); ("현금", 10)]%Z)
    else if (55 <=? score d)%Z then
      (BUY, [("주식", 60); ("채권", 30); ("현금", 10)]%Z)
    else if (45 <=? score d)%Z then
      (HOLD, [("주식", 50); ("채권", 35); ("현금", 15)]%Z)
    else if (30 <=? score d)%Z then
      (REDUCE, [("주식", 35); ("채권", 45); ("현금", 20)]%Z)
    else (SELL, [("주식", 20); ("채권", 50); ("현금", 30)]%Z).
Proof.
  unfold make_decision.
  match goal with
  | |- context [(70 <=? ?s)%Z] => set (sc := s)
  end.
  destruct (70 <=? sc)%Z eqn:E1; cbn [score decision allocation];
    [rewrite E1; reflexivity |].
  destruct (55 <=? sc)%Z eqn:E2; cbn [score decision allocation];
    [rewrite E1, E2; reflexivity |].
  destruct (45 <=? sc)%Z eqn:E3; cbn [score decision allocation];
    [rewrite E1, E2, E3; reflexivity |].
  destruct (30 <=? sc)%Z eqn:E4; cbn [score decision allocation];
    rewrite E1, E2, E3, E4; reflexivity.
Qed.

(** The score as a sum of the four adjustments. *)
Lemma decision_score (now macro_signal : string) (risk : RiskManager.Analysis)
    (sentiment : string) (claude_analysis : option ClaudeAnalysis) :
  let rotation :=
    match claude_analysis with
    | Some c => default "NEUTRAL" (rotation_signal c)
    | None => "NEUTRAL"
    end in
  score (make_decision now macro_signal risk sentiment claude_analysis)
  = (50
     + (if String.eqb macro_signal "BULLISH" then 20
        else if String.eqb macro_signal "BEARISH" then -20 else 0)
     + match risk_level (risk_metrics risk) with
       | LOW => 15 | HIGH => -15 | _ => 0
       end
     + (if String.eqb sentiment "POSITIVE" then 15
        else if String.eqb sentiment "NEGATIVE" then -15 else 0)
     + (if String.eqb rotation "RISK_ON" then 10
        else if String.eqb rotation "RISK_OFF" then -10 else 0))%Z.
Proof.
  intros rotation. unfold make_decision. fold rotation.
  match goal with
  | |- context [(70 <=? ?s)%Z] => set (sc := s)
  end.
  transitivity sc.
  - clearbody sc. destruct (70 <=? sc)%Z; [reflexivity |].
    destruct (55 <=? sc)%Z; [reflexivity |].
    destruct (45 <=? sc)%Z; [reflexivity |].
    destruct (30 <=? sc)%Z; reflexivity.
  - unfold sc.
    destruct (String.eqb macro_signal "BULLISH");
      [| destruct (String.eqb macro_signal "BEARISH")];
    (destruct (String.eqb sentiment "POSITIVE");
       [| destruct (String.eqb sentiment "NEGATIVE")]);
    (destruct (String.eqb rotation "RISK_ON");
       [| destruct (String.eqb rotation "RISK_OFF")]);
    destruct (risk_level (risk_metrics risk)); lia.
Qed.

(** X25: the score, announced as out of 100, lies between -10 and 110, and
    the three weights of the allocation always add up to 100. *)
Theorem decision_score_range (now macro_signal : string)
    (risk : RiskManager.Analysis) (sentiment : string)
    (claude_analysis : option ClaudeAnalysis) :
  let d := make_decision now macro_signal risk sentiment claude_analysis in
  (-10 <= score d <= 110)%Z ∧
  ∃ stock bond cash : Z,
    allocation d = [("주식", stock); ("채권", bond); ("현금", cash)] ∧
    (stock + bond + cash = 100)%Z.
Proof.
  intros d. split.
  - unfold d. rewrite decision_score.
    destruct (String.eqb macro_signal "BULLISH");
      [| destruct (String.eqb macro_signal "BEARISH")];
    (destruct (String.eqb sentiment "POSITIVE");
       [| destruct (String.eqb sentiment "NEGATIVE")]);
    (destruct (String.eqb _ "RISK_ON"); [| destruct (String.eqb _ "RISK_OFF")]);
    destruct (risk_level (risk_metrics risk)); lia.
  - pose proof (decision_by_score now macro_signal risk sentiment claude_analysis) as H.
    cbv zeta in H. fold d in H.
    destruct (70 <=? score d)%Z; [injection H as _ ->; do 3 eexists; split; [reflexivity | lia] |].
    destruct (55 <=? score d)%Z; [injection H as _ ->; do 3 eexists; split; [reflexivity | lia] |].
    destruct (45 <=? score d)%Z; [injection H as _ ->; do 3 eexists; split; [reflexivity | lia] |].
    destruct (30 <=? score d)%Z; injection H as _ ->; do 3 eexists; (split; [reflexivity | lia]).
Qed.

(** A run of [analyze] without a snapshot and without the pricing engine. *)
Lemma analyze_sample (m v : Q) :
  ∃ a, analyze (λ _, None) (RiskManager.init {| today := 45000 |})
         "2026-01-05T09:00:00" m v 100000000 None = Return a ∧
       risk_metrics a
       = _calculate_risk_metrics (RiskManager.init {| today := 45000 |}) m v.
Proof.
  destruct (analyze_fields (λ _, None) (RiskManager.init {| today := 45000 |})
              "2026-01-05T09:00:00" m v 100000000 None) as (c & _ & Ha).
  { vm_compute. reflexivity. }
  eexists. split; [exact Ha | reflexivity].
Qed.

(** X26: a higher score never lowers the stock weight and never raises the
    bond or the cash weight. *)
Theorem allocation_monotone (now1 now2 macro1 macro2 : string)
    (risk1 risk2 : RiskManager.Analysis) (sentiment1 sentiment2 : string)
    (claude1 claude2 : option ClaudeAnalysis) :
  let d1 := make_decision now1 macro1 risk1 sentiment1 claude1 in
  let d2 := make_decision now2 macro2 risk2 sentiment2 claude2 in
  (score d1 <= score d2)%Z →
  ∃ s1 b1 c1 s2 b2 c2 : Z,
    allocation d1 = [("주식", s1); ("채권", b1); ("현금", c1)] ∧
    allocation d2 = [("주식", s2); ("채권", b2); ("현금", c2)] ∧
    (s1 <= s2)%Z ∧ (b2 <= b1)%Z ∧ (c2 <= c1)%Z.
Proof.
  intros d1 d2 Hle.
  pose proof (decision_by_score now1 macro1 risk1 sentiment1 claude1) as H1.
  pose proof (decision_by_score now2 macro2 risk2 sentiment2 claude2) as H2.
  cbv zeta in H1, H2. fold d1 in H1. fold d2 in H2.
  destruct (70 <=? score d1)%Z eqn:A1;
    [| destruct (55 <=? score d1)%Z eqn:A2;
       [| destruct (45 <=? score d1)%Z eqn:A3;
          [| destruct (30 <=? score d1)%Z eqn:A4]]];
  injection H1 as _ ->;
  (destruct (70 <=? score d2)%Z eqn:B1;
    [| destruct (55 <=? score d2)%Z eqn:B2;
       [| destruct (45 <=? score d2)%Z eqn:B3;
          [| destruct (30 <=? score d2)%Z eqn:B4]]]);
  injection H2 as _ ->;
  do 6 eexists; (split; [reflexivity |]); (split; [reflexivity |]); lia.
Qed.

Lemma allocation_monotone_witness :
  ∃ a, analyze (λ _, None) (RiskManager.init {| today := 45000 |})
         "2026-01-05T09:00:00" 99 18 100000000 None = Return a ∧
       let d1 := make_decision "t" "BEARISH" a "NEUTRAL" None in
       let d2 := make_decision "t" "BULLISH" a "POSITIVE" None in
       (score d1 <= score d2)%Z ∧
       ∃ s1 b1 c1 s2 b2 c2 : Z,
         allocation d1 = [("주식", s1); ("채권", b1); ("현금", c1)] ∧
         allocation d2 = [("주식", s2); ("채권", b2); ("현금", c2)] ∧
         (s1 <= s2)%Z ∧ (b2 <= b1)%Z ∧ (c2 <= c1)%Z.
Proof.
  destruct (analyze_sample 99 18) as (a & Ha & Hrm).
  exists a. split; [exact Ha |]. intros d1 d2.
  assert (Hl : risk_level (risk_metrics a) = MEDIUM) by (rewrite Hrm; reflexivity).
  assert (Hle : (score d1 <= score d2)%Z).
  { unfold d1, d2. rewrite !decision_score, Hl. cbn. lia. }
  split; [exact Hle |].
  exact (allocation_monotone "t" "t" "BEARISH" "BULLISH" a a "NEUTRAL" "POSITIVE"
           None None Hle).
Defined.

(** X27: the score rewards a LOW risk level with +15 and charges a HIGH one
    -15, but leaves an EXTREME one as it leaves MEDIUM: with everything else
    equal, EXTREME risk scores 15 above HIGH risk. *)
Theorem extreme_risk_scored_as_medium (now macro_signal : string)
    (extreme_risk high_risk medium_risk : RiskManager.Analysis)
    (sentiment : string) (claude_analysis : option ClaudeAnalysis) :
  risk_level (risk_metrics extreme_risk) = EXTREME →
  risk_level (risk_metrics high_risk) = HIGH →
  risk_level (risk_metrics medium_risk) = MEDIUM →
  let d r := make_decision now macro_signal r sentiment claude_analysis in
  score (d extreme_risk) = score (d medium_risk) ∧
  score (d extreme_risk) = (score (d high_risk) + 15)%Z.
Proof.
  intros He Hh Hm d. unfold d. rewrite !decision_score, He, Hh, Hm. lia.
Qed.

Lemma extreme_risk_scored_as_medium_witness :
  ∃ e h m,
    analyze (λ _, None) (RiskManager.init {| today := 45000 |})
      "2026-01-05T09:00:00" 160 40 100000000 None = Return e ∧
    analyze (λ _, None) (RiskManager.init {| today := 45000 |})
      "2026-01-05T09:00:00" 110 22 100000000 None = Return h ∧
    analyze (λ _, None) (RiskManager.init {| today := 45000 |})
      "2026-01-05T09:00:00" 99 18 100000000 None = Return m ∧
    risk_level (risk_metrics e) = EXTREME ∧
    risk_level (risk_metrics h) = HIGH ∧
    risk_level (risk_metrics m) = MEDIUM ∧
    score (make_decision "t" "NEUTRAL" e "NEUTRAL" None)
    = (score (make_decision "t" "NEUTRAL" h "NEUTRAL" None) + 15)%Z.
Proof.
  destruct (analyze_sample 160 40) as (e & He & Hre).
  destruct (analyze_sample 110 22) as (h & Hh & Hrh).
  destruct (analyze_sample 99 18) as (m & Hm & Hrm).
  exists e, h, m. do 3 (split; [assumption |]).
  assert (Le : risk_level (risk_metrics e) = EXTREME) by (rewrite Hre; reflexivity).
  assert (Lh : risk_level (risk_metrics h) = HIGH) by (rewrite Hrh; reflexivity).
  assert (Lm : risk_level (risk_metrics m) = MEDIUM) by (rewrite Hrm; reflexivity).
  do 3 (split; [assumption |]).
  exact (proj2 (extreme_risk_scored_as_medium "t" "NEUTRAL" e h m "NEUTRAL" None
                  Le Lh Lm)).
Defined.

Lemma bucket_values (th : Thresholds) (x : Q) :
  bucket th x = 10%Z ∨ bucket th x = 25%Z ∨ bucket th x = 35%Z ∨
  bucket th x = 45%Z ∨ bucket th x = 50%Z.
Proof.
  unfold bucket.
  destruct (ltb x (low th)); [tauto |].
  destruct (ltb x (medium th)); [tauto |].
  destruct (ltb x (high th)); [tauto |].
  destruct (ltb x (extreme th)); tauto.
Qed.

(** X28: on a result of [analyze] the decision raises [risk_warning] exactly
    from a risk score of 75 on: always at the EXTREME level, at the HIGH level
    only for the score 75, never at LOW or MEDIUM. *)
Theorem risk_warning_by_level (ql : QuantLib) (self : RiskManager.t)
    (now : string) (move_value vix_value portfolio_value : Q)
    (market_data : option (gmap string Q))
    (now' macro_signal sentiment : string) (claude_analysis : option ClaudeAnalysis) :
  0 < 1 + get (match market_data with None => ∅ | Some d => d end) "us_10y" 0.0427 / 2 →
  ∃ a, analyze ql self now move_value vix_value portfolio_value market_data = Return a ∧
       let d := make_decision now' macro_signal a sentiment claude_analysis in
       (risk_warning d = true ↔ (75 <= risk_score (risk_metrics a))%Z) ∧
       (risk_level (risk_metrics a) = EXTREME → risk_warning d = true) ∧
       (risk_level (risk_metrics a) = HIGH →
        (risk_warning d = true ↔ risk_score (risk_metrics a) = 75%Z)) ∧
       (risk_warning d = true →
        risk_level (risk_metrics a) = HIGH ∨ risk_level (risk_metrics a) = EXTREME).
Proof.
  intros Hy.
  destruct (analyze_fields ql self now move_value vix_value portfolio_value
              market_data Hy) as (c & _ & Ha).
  eexists. split; [exact Ha |].
  assert (Hw : ∀ r, risk_warning (make_decision now' macro_signal r sentiment
                                    claude_analysis)
                    = (70 <? risk_score (risk_metrics r))%Z).
  { intros r. unfold make_decision.
    match goal with
    | |- context [(70 <=? ?s)%Z] => generalize s; intros sc
    end.
    destruct (70 <=? sc)%Z; [reflexivity |].
    destruct (55 <=? sc)%Z; [reflexivity |].
    destruct (45 <=? sc)%Z; [reflexivity |].
    destruct (30 <=? sc)%Z; reflexivity. }
  cbv zeta. rewrite Hw.
  cbn [risk_metrics risk_score risk_level _calculate_risk_metrics].
  destruct (bucket_values (move_thresholds self) move_value) as [E | [E | [E | [E | E]]]];
    destruct (bucket_values (vix_thresholds self) vix_value) as [F | [F | [F | [F | F]]]];
    rewrite E, F; cbn; repeat split; intros; try discriminate; try lia; auto.
Qed.

Lemma risk_warning_by_level_witness :
  0 < 1 + get (∅ : gmap string Q) "us_10y" 0.0427 / 2 ∧
  ∃ a, analyze (λ _, None) (RiskManager.init {| today := 45000 |})
         "2026-01-05T09:00:00" 160 18 100000000 None = Return a ∧
       risk_level (risk_metrics a) = HIGH ∧
       risk_warning (make_decision "t" "NEUTRAL" a "NEUTRAL" None) = true.
Proof.
  assert (H : 0 < 1 + get (∅ : gmap string Q) "us_10y" 0.0427 / 2)
    by (vm_compute; reflexivity).
  split; [exact H |].
  destruct (risk_warning_by_level (λ _, None) (RiskManager.init {| today := 45000 |})
              "2026-01-05T09:00:00" 160 18 100000000 None "t" "NEUTRAL" "NEUTRAL" None H)
    as (a & Ha & Hw & _ & _ & _).
  exists a. split; [exact Ha |].
  assert (E : analyze (λ _, None) (RiskManager.init {| today := 45000 |})
                "2026-01-05T09:00:00" 160 18 100000000 None = Return a) by exact Ha.
  destruct (analyze_sample 160 18) as (a' & Ha' & Hrm).
  rewrite Ha' in E. injection E as ->.
  split; [rewrite Hrm; reflexivity |].
  apply Hw. rewrite Hrm. vm_compute. discriminate.
Defined.

(** ** From the macro layer to the risk layer *)

(** X29: with MOVE estimated as 5.5 times VIX, as the macro layer does, the
    risk step returns whenever the 10-year rate, in percent, is above -200, and
    VIX alone decides the level: LOW below 15, MEDIUM from 15 to below 200/11, HIGH from
    200/11 to below 240/11, EXTREME from 240/11 (about 21.8) on. *)
Theorem risk_step_level_by_vix (ql : QuantLib) (t : QuantLibAnalyzer.t)
    (now : string) (portfolio_value : Q)
    (indicators : gmap string (gmap string Q))
    (vix us_10y us_2y kospi : gmap string Q) (v : Q) :
  indicators !! "vix" = Some vix →
  indicators !! "move" = Some (MacroAnalyzer.move_estimate vix) →
  indicators !! "us_10y" = Some us_10y →
  indicators !! "us_2y" = Some us_2y →
  indicators !! "kospi" = Some kospi →
  vix !! "value" = Some v →
  0 < 1 + get us_10y "value" 0.0427 / 100 / 2 →
  ∃ a, risk_step ql (RiskManager.init t) now portfolio_value indicators = Return a ∧
       move_value (risk_metrics a) == v * 5.5 ∧
       (risk_level (risk_metrics a) = LOW ↔ v < 15) ∧
       (risk_level (risk_metrics a) = MEDIUM ↔ 15 <= v ∧ v < 200 # 11) ∧
       (risk_level (risk_metrics a) = HIGH ↔ 200 # 11 <= v ∧ v < 240 # 11) ∧
       (risk_level (risk_metrics a) = EXTREME ↔ 240 # 11 <= v).
Proof.
  intros Hvix Hmove H10 H2 Hk Hv Hy.
  unfold risk_step, getitem. rewrite Hmove, Hvix, H10, H2, Hk. py_step.
  unfold MacroAnalyzer.move_estimate at 1. rewrite lookup_singleton_eq. py_step.
  match goal with
  | |- context [analyze ql ?s now ?m ?x portfolio_value ?md] =>
      destruct (analyze_fields ql s now m x portfolio_value md) as (c & _ & Ha)
  end.
  { cbv zeta. rewrite ql_data_us_10y. exact Hy. }
  eexists. split; [exact Ha |].
  cbn [risk_metrics move_value risk_level _calculate_risk_metrics
       RiskManager.init move_thresholds vix_thresholds].
  unfold get. rewrite Hv. cbn [default from_option]. unfold Datatypes.id.
  split; [reflexivity |].
  unfold bucket. cbn [low medium high extreme].
  case_ltb; cbn [Z.add Z.ltb Z.compare Pos.add Pos.succ Pos.compare Pos.compare_cont];
    repeat split; q_cases; q_close.
Qed.

(** X29 on the records of a failed download: VIX reads 0 and the level is LOW. *)
Lemma risk_step_level_by_vix_witness :
  let weekly := MacroAnalyzer.fetch_weekly_data_fallback in
  let daily := MacroAnalyzer.fetch_data_fallback in
  let indicators : gmap string (gmap string Q) :=
    list_to_map [("vix", weekly); ("move", MacroAnalyzer.move_estimate weekly);
                 ("us_10y", daily); ("us_2y", daily); ("us_30y", daily);
                 ("kospi", weekly)] in
  indicators !! "vix" = Some weekly ∧
  indicators !! "move" = Some (MacroAnalyzer.move_estimate weekly) ∧
  indicators !! "us_10y" = Some daily ∧
  indicators !! "us_2y" = Some daily ∧
  indicators !! "kospi" = Some weekly ∧
  weekly !! "value" = Some 0 ∧
  0 < 1 + get daily "value" 0.0427 / 100 / 2 ∧
  ∃ a, risk_step (λ _, None) (RiskManager.init {| today := 45000 |})
         "2026-01-05T09:00:00" 100000000 indicators = Return a ∧
       risk_level (risk_metrics a) = LOW.
Proof.
  intros weekly daily indicators.
  assert (H1 : indicators !! "vix" = Some weekly) by reflexivity.
  assert (H2 : indicators !! "move" = Some (MacroAnalyzer.move_estimate weekly))
    by reflexivity.
  assert (H3 : indicators !! "us_10y" = Some daily) by reflexivity.
  assert (H4 : indicators !! "us_2y" = Some daily) by reflexivity.
  assert (H5 : indicators !! "kospi" = Some weekly) by reflexivity.
  assert (H6 : weekly !! "value" = Some 0) by reflexivity.
  assert (H7 : 0 < 1 + get daily "value" 0.0427 / 100 / 2) by (vm_compute; reflexivity).
  do 7 (split; [assumption |]).
  destruct (risk_step_level_by_vix (λ _, None) {| today := 45000 |}
              "2026-01-05T09:00:00" 100000000 indicators weekly daily daily weekly 0
              H1 H2 H3 H4 H5 H6 H7) as (a & Ha & _ & Hlow & _).
  exists a. split; [exact Ha |]. apply Hlow. q_compute.
Defined.

(** ** The overall call of the macro layer *)

(** X30: in a quiet week (KOSPI and S&P 500 within 2% of the week before, the
    won not more than 1% stronger, the 10-year rate within 0.1 of the day
    before) the overall call is decided by VIX alone: BULLISH below 15, BEARISH
    above 25, NEUTRAL in between. *)
Theorem quiet_week_overall (kospi sp500 usdkrw vix us_10y : gmap string Q) :
  -2 <= get kospi "week_change_pct" 0 <= 2 →
  -2 <= get sp500 "week_change_pct" 0 <= 2 →
  -1 <= get usdkrw "week_change_pct" 0 →
  -0.1 <= get us_10y "change" 0 <= 0.1 →
  let call := MacroAnalyzer.overall
                (MacroAnalyzer.signals kospi sp500 usdkrw vix us_10y) in
  (get vix "value" 0 < 15 → call = "BULLISH") ∧
  (25 < get vix "value" 0 → call = "BEARISH") ∧
  (15 <= get vix "value" 0 <= 25 → call = "NEUTRAL").
Proof.
  intros [Hk1 Hk2] [Hs1 Hs2] Hw [Hr1 Hr2].
  unfold MacroAnalyzer.signals.
  set (k := get kospi "week_change_pct" 0) in *.
  set (s := get sp500 "week_change_pct" 0) in *.
  set (w := get usdkrw "week_change_pct" 0) in *.
  set (r := get us_10y "change" 0) in *.
  set (x := get vix "value" 0).
  unfold gtb.
  destruct (ltb_spec 2 k); [exfalso; q_order |].
  destruct (ltb_spec k (-2)); [exfalso; q_order |].
  destruct (ltb_spec 2 s); [exfalso; q_order |].
  destruct (ltb_spec s (-2)); [exfalso; q_order |].
  destruct (ltb_spec w (-1)); [exfalso; q_order |].
  destruct (ltb_spec r (-0.1)); [exfalso; q_order |].
  destruct (ltb_spec 0.1 r); [exfalso; q_order |].
  destruct (ltb_spec 1 w);
    (destruct (ltb_spec 25 x); [| destruct (ltb_spec x 15)]);
    cbn; repeat split; intros; try reflexivity; exfalso; q_order.
Qed.

(** X30 on the records of a failed download: the call is BULLISH. *)
Lemma quiet_week_overall_witness :
  let weekly := MacroAnalyzer.fetch_weekly_data_fallback in
  let daily := MacroAnalyzer.fetch_data_fallback in
  (-2 <= get weekly "week_change_pct" 0 <= 2) ∧
  (-1 <= get weekly "week_change_pct" 0) ∧
  (-0.1 <= get daily "change" 0 <= 0.1) ∧
  get weekly "value" 0 < 15 ∧
  MacroAnalyzer.overall (MacroAnalyzer.signals weekly weekly weekly weekly daily)
  = "BULLISH".
Proof.
  intros weekly daily.
  assert (H1 : -2 <= get weekly "week_change_pct" 0 <= 2)
    by (split; vm_compute; discriminate).
  assert (H2 : -1 <= get weekly "week_change_pct" 0) by (vm_compute; discriminate).
  assert (H3 : -0.1 <= get daily "change" 0 <= 0.1)
    by (split; vm_compute; discriminate).
  assert (H4 : get weekly "value" 0 < 15) by (vm_compute; reflexivity).
  do 4 (split; [assumption |]).
  exact (proj1 (quiet_week_overall weekly weekly weekly weekly daily H1 H1 H2 H3) H4).
Defined.
